(** * Legacy-file plugin: snapshot writer and snapshot consolidator

    A shallow embedding of [src/main.ts] (class [LegacyFilePlugin]):
    [getTimestamp], [createLegacyFile] and [preserveLegacyFiles], over a
    model of the host facilities they call (the vault, [normalizePath],
    [RegExp], [String.prototype] helpers and [Array.prototype.sort]).

    Strings are [string]s: every character of the model is one [ascii].
    Everything the plugin does with characters is equality, concatenation
    and the test "is an ASCII digit", so a character can be read as an
    opaque symbol of the host's alphabet. *)

From Stdlib Require Import String Ascii List Bool Arith ZArith Lia.
From Stdlib Require Import Numbers.DecimalString.
From Stdlib Require Import Permutation Sorted.
Import ListNotations.
Local Open Scope list_scope.
Local Open Scope string_scope.

(** ** Characters and strings of the host language *)

Module JS.

(** The line feed written ['\n'] in the source. *)
Definition LF : string := String "010"%char "".

Definition is_digit (c : ascii) : bool :=
  let n := nat_of_ascii c in ((48 <=? n)%nat && (n <=? 57)%nat)%bool.

Fixpoint all_digits (s : string) : bool :=
  match s with
  | "" => true
  | String c s' => is_digit c && all_digits s'
  end.

(** [s.startsWith(p)], returning what follows the prefix. *)
Fixpoint strip_prefix (p s : string) : option string :=
  match p, s with
  | "", _ => Some s
  | String a p', String b s' =>
      if Ascii.eqb a b then strip_prefix p' s' else None
  | String _ _, "" => None
  end.

Definition starts_with (p s : string) : bool :=
  match strip_prefix p s with Some _ => true | None => false end.

(** [s.includes(p)]. *)
Fixpoint includes (p s : string) : bool :=
  starts_with p s ||
  match s with
  | "" => false
  | String _ s' => includes p s'
  end.

(** [s.slice(0, n)] for [n <= s.length]. *)
Fixpoint take (n : nat) (s : string) : string :=
  match n, s with
  | S n', String c s' => String c (take n' s')
  | _, _ => ""
  end.

(** [String(z)] for an integer-valued number [z]. *)
Definition Number_toString (z : Z) : string :=
  NilZero.string_of_int (Z.to_int z).

(** The filler of [padStart]: [n] characters taken from [pad] repeated. *)
Fixpoint filler (n : nat) (pad cur : string) : string :=
  match n with
  | O => ""
  | S n' =>
      match cur with
      | String c cur' => String c (filler n' pad cur')
      | "" =>
          match pad with
          | String c pad' => String c (filler n' pad pad')
          | "" => ""
          end
      end
  end.

(** [s.padStart(targetLength, padString)]. *)
Definition padStart (targetLength : nat) (padString s : string) : string :=
  if (targetLength <=? String.length s)%nat then s
  else filler (targetLength - String.length s) padString padString ++ s.

(** [a.localeCompare(b)].  The plugin only compares timestamps, which are
    strings of fourteen ASCII digits; on those every collation agrees with
    the character-by-character order. *)
Definition localeCompare (a b : string) : comparison := String.compare a b.

(** [Array.prototype.sort(comparefn)]: a stable sort.  [comparefn a b]
    is [Gt] when [a] has to come after [b]. *)
Section Sort.
Context {A : Type} (comparefn : A -> A -> comparison).

Fixpoint insert (x : A) (l : list A) : list A :=
  match l with
  | [] => [x]
  | y :: l' =>
      match comparefn x y with
      | Gt => y :: insert x l'
      | _ => x :: l
      end
  end.

Definition sort (l : list A) : list A := fold_right insert [] l.
End Sort.

(** [s.split(sep)] for a non-empty separator [sep]: the pieces between
    the occurrences of [sep] found from left to right.  [skip] counts the
    characters of an occurrence that are still to be passed over and [cur]
    is the piece being collected. *)
Fixpoint split_go (sep : string) (skip : nat) (cur s : string)
  : list string :=
  match s with
  | "" => [cur]
  | String c s' =>
      match skip with
      | S k => split_go sep k cur s'
      | O =>
          if starts_with sep s
          then cur :: split_go sep (String.length sep - 1) "" s'
          else split_go sep 0 (cur ++ String c "") s'
      end
  end.

Definition split (sep s : string) : list string := split_go sep 0 "" s.

End JS.

(** ** Regular expressions

    The plugin builds one pattern at run time, from the base name of the
    active file, and uses one pattern literal.  [regex] is the syntax both
    need; [compile] reads the pattern source of [new RegExp(source)] for
    the part of the pattern language listed at [lex]. *)

Module RegExp.

Inductive regex : Type :=
| Empty                          (* the empty pattern *)
| Char (c : ascii)               (* a pattern character *)
| Digit                          (* \d *)
| Bol                            (* ^ *)
| Eol                            (* $ *)
| Seq (r1 r2 : regex)
| Alt (r1 r2 : regex)            (* r1|r2 *)
| Times (n : nat) (r : regex)    (* r{n} *)
| Group (i : nat) (r : regex).   (* ( r ), the i-th capturing group *)

(** A position of the matcher: whether it is the start of the input,
    the input still to read, and the groups captured so far. *)
Record mstate : Type := MState {
  at_start : bool;
  input : string;
  captures : list (nat * string)
}.

Definition advance (st : mstate) (rest : string) : mstate :=
  MState false rest (captures st).

Definition capture (i : nat) (from : mstate) (st : mstate) : mstate :=
  let n := String.length (input from) - String.length (input st) in
  MState (at_start st) (input st)
         ((i, JS.take n (input from)) :: captures st).

(** [n] rounds of [f], each from every position the round before
    has reached. *)
Definition repeated (f : mstate -> list mstate)
  : nat -> list mstate -> list mstate :=
  fix rep (n : nat) (sts : list mstate) : list mstate :=
    match n with
    | O => sts
    | S n' => rep n' (flat_map f sts)
    end.

(** All the ways [r] matches at [st], in the order a backtracking
    matcher tries them. *)
Fixpoint run (r : regex) (st : mstate) : list mstate :=
  match r with
  | Empty => [st]
  | Char c =>
      match input st with
      | String a rest => if Ascii.eqb c a then [advance st rest] else []
      | "" => []
      end
  | Digit =>
      match input st with
      | String a rest => if JS.is_digit a then [advance st rest] else []
      | "" => []
      end
  | Bol => if at_start st then [st] else []
  | Eol => match input st with "" => [st] | _ => [] end
  | Seq r1 r2 => flat_map (run r2) (run r1 st)
  | Alt r1 r2 => (run r1 st ++ run r2 st)%list
  | Times n r' => repeated (run r') n [st]
  | Group i r' => map (capture i st) (run r' st)
  end.

(** [r.exec(s)]: the first match, looked for at every start position
    from left to right. *)
Fixpoint exec_from (r : regex) (start : bool) (s : string)
  : option mstate :=
  match run r (MState start s []) with
  | st :: _ => Some st
  | [] =>
      match s with
      | "" => None
      | String _ s' => exec_from r false s'
      end
  end.

Definition exec (r : regex) (s : string) : option mstate :=
  exec_from r true s.

(** [r.test(s)]. *)
Definition test (r : regex) (s : string) : bool :=
  match exec r s with Some _ => true | None => false end.

(** [m[i]] of a match result [m]. *)
Fixpoint group (i : nat) (caps : list (nat * string)) : option string :=
  match caps with
  | [] => None
  | (j, s) :: caps' => if Nat.eqb i j then Some s else group i caps'
  end.

(** *** Reading a pattern source *)

Inductive token : Type :=
| TChar (c : ascii)
| TDigit
| TBol
| TEol
| TBar
| TBrace (n : nat).

Inductive mode : Type :=
| Plain
| Escaped
| Braced (n : option nat).

(** The characters with a meaning in the pattern language. *)
Definition syntax_character (c : ascii) : bool :=
  existsb (Ascii.eqb c)
    (list_ascii_of_string "^$\.*+?()[]{}|").

Definition digit_value (c : ascii) : nat := nat_of_ascii c - 48.

(** The part of the pattern language that is read: pattern characters,
    [^], [$], [|], [\d] and the quantifier [{n}].  Any other use of a
    syntax character gives [None]: the pattern is left to the host. *)
Fixpoint lex (m : mode) (p : string) : option (list token) :=
  match p with
  | "" => match m with Plain => Some [] | _ => None end
  | String c p' =>
      match m with
      | Plain =>
          if Ascii.eqb c "\" then lex Escaped p'
          else if Ascii.eqb c "{" then lex (Braced None) p'
          else if Ascii.eqb c "^" then option_map (cons TBol) (lex Plain p')
          else if Ascii.eqb c "$" then option_map (cons TEol) (lex Plain p')
          else if Ascii.eqb c "|" then option_map (cons TBar) (lex Plain p')
          else if syntax_character c then None
          else option_map (cons (TChar c)) (lex Plain p')
      | Escaped =>
          if Ascii.eqb c "d" then option_map (cons TDigit) (lex Plain p')
          else None
      | Braced n =>
          if JS.is_digit c
          then lex (Braced (Some (10 * match n with Some k => k | None => 0 end
                                  + digit_value c))) p'
          else if Ascii.eqb c "}"
          then match n with
               | Some k => option_map (cons (TBrace k)) (lex Plain p')
               | None => None
               end
          else None
      end
  end.

(** A pattern is a list of alternatives, an alternative a list of
    terms. *)
Definition push (r : regex) (alts : list (list regex))
  : list (list regex) :=
  match alts with
  | [] => [[r]]
  | a :: rest => (r :: a) :: rest
  end.

Fixpoint parse (ts : list token) : option (list (list regex)) :=
  match ts with
  | [] => Some [[]]
  | TBar :: ts' => option_map (cons []) (parse ts')
  | TBol :: ts' => option_map (push Bol) (parse ts')
  | TEol :: ts' => option_map (push Eol) (parse ts')
  | TChar c :: TBrace n :: ts' =>
      option_map (push (Times n (Char c))) (parse ts')
  | TDigit :: TBrace n :: ts' =>
      option_map (push (Times n Digit)) (parse ts')
  | TChar c :: ts' => option_map (push (Char c)) (parse ts')
  | TDigit :: ts' => option_map (push Digit) (parse ts')
  | TBrace _ :: _ => None
  end.

Definition sequence (terms : list regex) : regex :=
  fold_right Seq Empty terms.

Fixpoint alternatives (alts : list (list regex)) : regex :=
  match alts with
  | [] => Empty
  | [a] => sequence a
  | a :: rest => Alt (sequence a) (alternatives rest)
  end.

Definition compile (source : string) : option regex :=
  match lex Plain source with
  | Some ts => option_map alternatives (parse ts)
  | None => None
  end.

End RegExp.

(** ** The vault of the host application

    A file of the vault ([TFile]) is known by the folder it lies in, its
    base name and its extension; the vault holds the files with their
    contents in the order [getFiles] lists them, and the folders.  The
    calls follow the storage interface of the specification: [exists] and
    [getFiles] answer from the state, [read], [create], [delete] and
    [createFolder] reach the storage and can fail for reasons of the
    storage itself, and [create] fails when the path is taken.  [create]
    is given a path, and [file_of_path] tells the file a path names.
    [faults] schedules the failures of the storage, one flag per call
    still to come. *)

Module Vault.

Record TFile : Type := mkFile {
  parent : option string;     (* path of the parent folder, when any *)
  basename : string;          (* the name without its extension *)
  extension : string
}.

Definition option_eqb (a b : option string) : bool :=
  match a, b with
  | Some x, Some y => String.eqb x y
  | None, None => true
  | _, _ => false
  end.

Definition TFile_eqb (f g : TFile) : bool :=
  option_eqb (parent f) (parent g)
  && String.eqb (basename f) (basename g)
  && String.eqb (extension f) (extension g).

Record vault : Type := mkVault {
  files : list (TFile * string);
  folders : list string;
  faults : list bool
}.

Inductive error : Type :=
| StorageFault      (* the storage refused the call *)
| AlreadyExists     (* create, createFolder: the path is taken *)
| NotFound          (* read, delete: no such file *)
| SyntaxError.      (* new RegExp: the source is no pattern *)

Inductive result (A : Type) : Type :=
| Ok (a : A)
| Throw (e : error).
Arguments Ok {A} a.
Arguments Throw {A} e.

(** Code that may throw and works on the vault.  The vault is kept
    when an exception is thrown: what was written stays written. *)
Definition M (A : Type) : Type := vault -> vault * result A.

Definition ret {A} (a : A) : M A := fun v => (v, Ok a).

Definition bind {A B} (m : M A) (k : A -> M B) : M B :=
  fun v =>
    match m v with
    | (v', Ok a) => k a v'
    | (v', Throw e) => (v', Throw e)
    end.

Definition lift {A} (r : result A) : M A := fun v => (v, r).

(** [try { body } catch (error) { handler }], the handler giving the
    value of the whole. *)
Definition try_catch {A} (body : M A) (handler : error -> A)
  : vault -> vault * A :=
  fun v =>
    match body v with
    | (v', Ok a) => (v', a)
    | (v', Throw e) => (v', handler e)
    end.

Declare Scope vault_scope.
Delimit Scope vault_scope with vault.
Notation "x <- m ;; k" := (bind m (fun x => k))
  (at level 61, m at next level, right associativity) : vault_scope.
Notation "m ;; k" := (bind m (fun _ => k))
  (at level 61, right associativity) : vault_scope.
Notation "' pat <- m ;; k" :=
  (bind m (fun x => match x with pat => k end))
  (at level 61, pat pattern, m at next level, right associativity)
  : vault_scope.

Fixpoint lookup (f : TFile) (l : list (TFile * string)) : option string :=
  match l with
  | [] => None
  | (g, c) :: l' => if TFile_eqb f g then Some c else lookup f l'
  end.

Definition remove (f : TFile) (l : list (TFile * string))
  : list (TFile * string) :=
  filter (fun e => negb (TFile_eqb f (fst e))) l.

(** One call to the storage: it takes the next flag of the schedule. *)
Definition storage : M unit :=
  fun v =>
    match faults v with
    | [] => (v, Ok tt)
    | false :: fs => (mkVault (files v) (folders v) fs, Ok tt)
    | true :: fs => (mkVault (files v) (folders v) fs, Throw StorageFault)
    end.

(** [vault.adapter.exists(path)], asked about a folder path. *)
Definition adapter_exists (path : string) (v : vault) : bool :=
  existsb (String.eqb path) (folders v).

(** [vault.createFolder(path)]. *)
Definition createFolder (path : string) : M unit :=
  (storage ;;
   fun v =>
     if adapter_exists path v then (v, Throw AlreadyExists)
     else (mkVault (files v) (folders v ++ [path])%list (faults v), Ok tt))%vault.

(** [vault.getFiles()]. *)
Definition getFiles (v : vault) : list TFile := map fst (files v).

(** [vault.read(file)]. *)
Definition read (file : TFile) : M string :=
  (storage ;;
   fun v =>
     match lookup file (files v) with
     | Some content => (v, Ok content)
     | None => (v, Throw NotFound)
     end)%vault.

(** What is before the last occurrence of [c] in [s], and what is after
    it. *)
Fixpoint split_last (c : ascii) (s : string) : option (string * string) :=
  match s with
  | "" => None
  | String x s' =>
      match split_last c s' with
      | Some (before, after) => Some (String x before, after)
      | None => if Ascii.eqb x c then Some ("", s') else None
      end
  end.

(** The file a path names.  The parent folder is what is before the last
    slash, the root folder [/] when the path has no slash; the extension
    is what is after the last dot of the name. *)
Definition file_of_path (path : string) : TFile :=
  let (folder, name) :=
    match split_last "/" path with
    | Some (folder, name) => (folder, name)
    | None => ("/", path)
    end in
  match split_last "." name with
  | Some (stem, ext) => mkFile (Some folder) stem ext
  | None => mkFile (Some folder) name ""
  end.

(** [vault.create(path, data)].  An existing file is never overwritten. *)
Definition create (path : string) (data : string) : M unit :=
  (storage ;;
   fun v =>
     let file := file_of_path path in
     match lookup file (files v) with
     | Some _ => (v, Throw AlreadyExists)
     | None =>
         (mkVault (files v ++ [(file, data)])%list (folders v) (faults v), Ok tt)
     end)%vault.

(** [vault.delete(file)]. *)
Definition delete (file : TFile) : M unit :=
  (storage ;;
   fun v =>
     match lookup file (files v) with
     | Some _ =>
         (mkVault (remove file (files v)) (folders v) (faults v), Ok tt)
     | None => (v, Throw NotFound)
     end)%vault.

(** The file [stem.md] of the folder [folder]. *)
Definition markdown_at (folder stem : string) : TFile :=
  mkFile (Some folder) stem "md".

End Vault.

Import RegExp Vault.
Local Open Scope vault_scope.

(** ** The plugin *)

Inductive SortOrder : Type := asc | desc.

(** [LegacyFilePluginSettings]. *)
Record LegacyFilePluginSettings : Type := mkSettings {
  legacyFolder : string;
  sortOrder : SortOrder
}.

Definition DEFAULT_SETTINGS : LegacyFilePluginSettings :=
  mkSettings "legacy" asc.

(** What [new Date()] tells through the getters [getTimestamp] calls. *)
Record Date : Type := mkDate {
  getFullYear : Z;
  getMonth : Z;      (* 0 .. 11 *)
  getDate : Z;       (* 1 .. 31 *)
  getHours : Z;      (* 0 .. 23 *)
  getMinutes : Z;    (* 0 .. 59 *)
  getSeconds : Z     (* 0 .. 59 *)
}.

(** The range of the getters of a date. *)
Definition Date_in_range (d : Date) : Prop :=
  (0 <= getMonth d <= 11 /\ 1 <= getDate d <= 31 /\ 0 <= getHours d <= 23 /\
   0 <= getMinutes d <= 59 /\ 0 <= getSeconds d <= 59)%Z.

(** The messages shown with [new Notice(...)], one per call site. *)
Inductive Notice : Type :=
| NoActiveFile                                (* lines 82 and 124 *)
| LegacyFileCreated (newFileName : string)    (* line 113 *)
| LegacyFileFailed                            (* line 116 *)
| NoLegacyFolder                              (* line 134 *)
| NoLegacyFiles                               (* line 156 *)
| LegacyFilesPreserved (preservedFileName : string)   (* line 211 *)
| PreserveFailed.                             (* line 214 *)

(** The host functions the plugin calls and the model does not define:
    [normalizePath], and [new RegExp(source)] for the sources [compile]
    does not read ([None] when the constructor throws). *)
Record Host : Type := mkHost {
  normalizePath : string -> string;
  host_RegExp : string -> option (string -> bool)
}.

(** [getTimestamp], of the date [now] that [new Date()] gave. *)
Definition getTimestamp (now : Date) : string :=
  let year := getFullYear now in
  let month := JS.padStart 2 "0" (JS.Number_toString (getMonth now + 1)) in
  let day := JS.padStart 2 "0" (JS.Number_toString (getDate now)) in
  let hour := JS.padStart 2 "0" (JS.Number_toString (getHours now)) in
  let minute := JS.padStart 2 "0" (JS.Number_toString (getMinutes now)) in
  let second := JS.padStart 2 "0" (JS.Number_toString (getSeconds now)) in
  JS.Number_toString year ++ month ++ day ++ hour ++ minute ++ second.

(** The pattern literal [/_legacy_(\d{14})$/]. *)
Fixpoint literal (s : string) : list regex :=
  match s with
  | "" => []
  | String c s' => Char c :: literal s'
  end.

Definition timestampPattern : regex :=
  sequence (literal "_legacy_" ++ [Group 1 (Times 14 Digit); Eol])%list.

(** The separator the loop of [preserveLegacyFiles] puts between two
    files: ['\n___\n\n']. *)
Definition separator : string := JS.LF ++ "___" ++ JS.LF ++ JS.LF.

Section Plugin.

Variable host : Host.
Variable settings : LegacyFilePluginSettings.

(** [new RegExp(source).test(s)]. *)
Definition RegExp_test (source s : string) : result bool :=
  match compile source with
  | Some r => Ok (test r s)
  | None =>
      match host_RegExp host source with
      | Some accepts => Ok (accepts s)
      | None => Throw SyntaxError
      end
  end.

(** [createLegacyFile], lines 79-118. *)
Definition createLegacyFile (activeFile : option TFile) (now : Date)
  : vault -> vault * Notice :=
  match activeFile with
  | None => fun v => (v, NoActiveFile)
  | Some activeFile =>
      try_catch
        (content <- read activeFile ;;
         let baseName := basename activeFile in
         let timestamp := getTimestamp now in
         let newFileName := baseName ++ "_legacy_" ++ timestamp ++ ".md" in
         let legacyFolderPath := normalizePath host (legacyFolder settings) in
         (fun v =>
            if negb (adapter_exists legacyFolderPath v)
            then createFolder legacyFolderPath v
            else (v, Ok tt)) ;;
         let newFilePath :=
           normalizePath host (legacyFolderPath ++ "/" ++ newFileName) in
         create newFilePath content ;;
         ret (LegacyFileCreated newFileName))
        (fun _ => LegacyFileFailed)
  end.

(** The source of the pattern of line 149. *)
Definition patternSource (baseName : string) : string :=
  "^" ++ baseName ++ "_legacy_\d{14}$".

(** The callback of the filter, lines 143-153. *)
Definition isLegacyFile (baseName legacyFolderPath : string) (file : TFile)
  : result bool :=
  let fileFolder :=
    match parent file with
    | Some path => normalizePath host path
    | None => ""
    end in
  let isInLegacyFolder := String.eqb fileFolder legacyFolderPath in
  match RegExp_test (patternSource baseName) (basename file) with
  | Ok matchesPattern => Ok (isInLegacyFolder && matchesPattern)
  | Throw e => Throw e
  end.

(** [allFiles.filter(callback)] with a callback that may throw. *)
Fixpoint filterFiles (callback : TFile -> result bool) (l : list TFile)
  : result (list TFile) :=
  match l with
  | [] => Ok []
  | file :: l' =>
      match callback file with
      | Throw e => Throw e
      | Ok keep =>
          match filterFiles callback l' with
          | Throw e => Throw e
          | Ok rest => Ok (if keep then file :: rest else rest)
          end
      end
  end.

Definition legacyFiles (baseName legacyFolderPath : string) (v : vault)
  : result (list TFile) :=
  filterFiles (isLegacyFile baseName legacyFolderPath) (getFiles v).

(** The callback of the map, lines 161-166. *)
Definition withTimestamp (file : TFile) : TFile * string :=
  match exec timestampPattern (basename file) with
  | Some m =>
      match group 1 (captures m) with
      | Some timestamp => (file, timestamp)
      | None => (file, "")   (* group 1 is part of every match *)
      end
  | None => (file, "00000000000000")
  end.

(** The comparison function of the sort, lines 169-175. *)
Definition compareTimestamps (a b : TFile * string) : comparison :=
  match sortOrder settings with
  | asc => JS.localeCompare (snd a) (snd b)
  | desc => JS.localeCompare (snd b) (snd a)
  end.

Definition filesWithTimestamp (legacy : list TFile)
  : list (TFile * string) :=
  JS.sort compareTimestamps (map withTimestamp legacy).

(** What one round of the loop of lines 181-195 adds to
    [preservedContent]. *)
Definition appendFile (baseName : string) (i : nat)
           (preservedContent timestamp content : string) : string :=
  let preservedContent :=
    if (0 <? i)%nat then preservedContent ++ separator
    else preservedContent in
  let preservedContent :=
    preservedContent ++
    ("# " ++ baseName ++ "_legacy_" ++ timestamp ++ JS.LF ++ JS.LF) in
  preservedContent ++ content.

(** The loop of lines 181-195, from round [i] on. *)
Fixpoint readLoop (baseName : string) (i : nat)
         (rest : list (TFile * string))
         (preservedContent : string) (timestamps : list string)
  : M (string * list string) :=
  match rest with
  | [] => ret (preservedContent, timestamps)
  | (file, timestamp) :: rest' =>
      content <- read file ;;
      let timestamps := (timestamps ++ [timestamp])%list in
      readLoop baseName (S i) rest'
               (appendFile baseName i preservedContent timestamp content)
               timestamps
  end.

(** The loop of lines 207-209. *)
Fixpoint deleteLoop (rest : list (TFile * string)) : M unit :=
  match rest with
  | [] => ret tt
  | (file, _) :: rest' => delete file ;; deleteLoop rest'
  end.

(** Lines 198-200: [preservedFileName] without its extension [.md]. *)
Definition preservedName (baseName : string) (timestamps : list string)
  : string :=
  let startTimestamp := nth 0 timestamps "undefined" in
  let endTimestamp := nth (List.length timestamps - 1) timestamps "undefined" in
  baseName ++ "_legacy_" ++ startTimestamp ++ "-" ++ endTimestamp.

(** [preserveLegacyFiles], lines 121-216. *)
Definition preserveLegacyFiles (activeFile : option TFile)
  : vault -> vault * Notice :=
  match activeFile with
  | None => fun v => (v, NoActiveFile)
  | Some activeFile =>
      try_catch
        (let baseName := basename activeFile in
         let legacyFolderPath := normalizePath host (legacyFolder settings) in
         fun v =>
           if negb (adapter_exists legacyFolderPath v)
           then (v, Ok NoLegacyFolder)
           else
             (legacy <- lift (legacyFiles baseName legacyFolderPath v) ;;
              match legacy with
              | [] => ret NoLegacyFiles
              | _ :: _ =>
                  let sorted := filesWithTimestamp legacy in
                  '(preservedContent, timestamps) <-
                    readLoop baseName 0 sorted "" [] ;;
                  let preservedFileName :=
                    preservedName baseName timestamps ++ ".md" in
                  let preservedFilePath :=
                    normalizePath host
                      (legacyFolderPath ++ "/" ++ preservedFileName) in
                  create preservedFilePath preservedContent ;;
                  deleteLoop sorted ;;
                  ret (LegacyFilesPreserved preservedFileName)
              end) v)
        (fun _ => PreserveFailed)
  end.

End Plugin.

(** ** The vocabulary of the specification *)

(** [storageName] of a snapshot: ["{ownerBaseName}_legacy_{timestamp}"]. *)
Definition storageName (ownerBaseName timestamp : string) : string :=
  ownerBaseName ++ "_legacy_" ++ timestamp.

(** [storageName] of a consolidated record:
    ["{ownerBaseName}_legacy_{startTimestamp}-{endTimestamp}"]. *)
Definition recordName (ownerBaseName startTimestamp endTimestamp : string)
  : string :=
  ownerBaseName ++ "_legacy_" ++ startTimestamp ++ "-" ++ endTimestamp.

(** The fixed 14-digit pattern [YYYYMMDDHHmmss]: every field in decimal,
    padded with zeros to its width. *)
Definition zero_padded (width : nat) (z : Z) : string :=
  JS.padStart width "0" (JS.Number_toString z).

Definition fmt14 (T : Date) : string :=
  zero_padded 4 (getFullYear T) ++ zero_padded 2 (getMonth T + 1) ++
  zero_padded 2 (getDate T) ++ zero_padded 2 (getHours T) ++
  zero_padded 2 (getMinutes T) ++ zero_padded 2 (getSeconds T).

(** The body of a consolidated record, in the words of the specification:
    a header line ["# {storageName}"], a blank line and the content for
    the first entry; for every later entry a separator block (a blank
    line, a horizontal-rule marker on its own line, a blank line) and then
    the same.  An entry is a timestamp with a content. *)
Definition headerLine (name : string) : string := "# " ++ name ++ JS.LF.
Definition blankLine : string := JS.LF.
Definition ruleLine : string := "___" ++ JS.LF.
Definition separatorBlock : string := blankLine ++ ruleLine ++ blankLine.

Definition block (ownerBaseName : string) (entry : string * string) : string :=
  headerLine (storageName ownerBaseName (fst entry)) ++ blankLine ++ snd entry.

Fixpoint laterBlocks (ownerBaseName : string) (entries : list (string * string))
  : string :=
  match entries with
  | [] => ""
  | e :: rest =>
      separatorBlock ++ block ownerBaseName e ++ laterBlocks ownerBaseName rest
  end.

Definition body (ownerBaseName : string) (entries : list (string * string))
  : string :=
  match entries with
  | [] => ""
  | e :: rest => block ownerBaseName e ++ laterBlocks ownerBaseName rest
  end.

(** A line holding the horizontal-rule marker alone, with the line break
    before it. *)
Definition markerLine : string := JS.LF ++ ruleLine.

(** A base name none of whose characters has a meaning in a pattern. *)
Fixpoint plain_name (s : string) : bool :=
  match s with
  | "" => true
  | String c s' => negb (syntax_character c) && plain_name s'
  end.

(** ** Auxiliary functions of the proofs *)

(** The file [vault.create] makes when the plugin asks for the file
    [newFileName] of the folder [legacyFolderPath]: the one the normalized
    path of lines 108 and 201 names. *)
Definition created_at (host : Host) (legacyFolderPath newFileName : string)
  : TFile :=
  file_of_path (normalizePath host (legacyFolderPath ++ "/" ++ newFileName)).

(** The host makes the file [stem.md] asked for in [folder] under this
    name and in this folder: normalizing the path has not changed what
    the path names. *)
Definition keeps_name (host : Host) (folder stem : string) : Prop :=
  created_at host folder (stem ++ ".md") = markdown_at folder stem.

(** A string without the character [c]. *)
Fixpoint lacks (c : ascii) (s : string) : bool :=
  match s with
  | "" => true
  | String x s' => negb (Ascii.eqb x c) && lacks c s'
  end.

(** The content a file has in a vault. *)
Definition content_of (v : vault) (file : TFile) : string :=
  match lookup file (files v) with
  | Some content => content
  | None => ""
  end.

(** The entries (timestamp, content) of the sorted files. *)
Definition entries_of (v : vault) (sorted : list (TFile * string))
  : list (string * string) :=
  map (fun e => (snd e, content_of v (fst e))) sorted.

(** The string the loop of lines 181-195 builds from round [i] on, given
    what the reads return. *)
Fixpoint buildContent (baseName : string) (i : nat)
         (entries : list (string * string)) (preservedContent : string)
  : string :=
  match entries with
  | [] => preservedContent
  | (timestamp, content) :: rest =>
      buildContent baseName (S i) rest
                   (appendFile baseName i preservedContent timestamp content)
  end.

(** The files left when the loop of lines 207-209 has run. *)
Fixpoint removeAll (sorted : list (TFile * string))
         (l : list (TFile * string)) : list (TFile * string) :=
  match sorted with
  | [] => l
  | (file, _) :: rest => removeAll rest (remove file l)
  end.

(** No failure of the storage is scheduled. *)
Definition quiet (v : vault) : Prop := forall b, In b (faults v) -> b = false.

(** The storage serves the next [n] calls. *)
Definition serves (n : nat) (v : vault) : Prop :=
  forall b, In b (firstn n (faults v)) -> b = false.

(** What may follow a piece of a body: nothing, or a separator. *)
Definition piece_end (tail : string) : Prop :=
  tail = "" \/ exists t, tail = separatorBlock ++ t.

(** The checks on the decimal fields of a timestamp. *)
Definition two_digits (z : Z) : bool :=
  (String.length (zero_padded 2 z) =? 2)%nat && JS.all_digits (zero_padded 2 z).

Definition four_digits (z : Z) : bool :=
  String.eqb (JS.Number_toString z) (zero_padded 4 z)
  && (String.length (zero_padded 4 z) =? 4)%nat
  && JS.all_digits (zero_padded 4 z).

(** [n] digits at the head of a string, and what follows them. *)
Fixpoint strip_digits (n : nat) (s : string) : option string :=
  match n with
  | O => Some s
  | S n' =>
      match s with
      | String c s' => if JS.is_digit c then strip_digits n' s' else None
      | "" => None
      end
  end.

(** The timestamp of a snapshot name of [baseName]: the name is the base
    name, [_legacy_] and fourteen digits. *)
Definition snapshot_timestamp (baseName name : string) : option string :=
  match JS.strip_prefix (baseName ++ "_legacy_") name with
  | Some d =>
      match strip_digits 14 d with
      | Some "" => Some d
      | _ => None
      end
  | None => None
  end.

(** What [compile] makes of the pattern source of a plain base name. *)
Definition plain_pattern (baseName : string) : regex :=
  sequence (Bol :: literal baseName ++ literal "_legacy_"
                ++ [Times 14 Digit; Eol])%list.

Fixpoint characters (s : string) : list token :=
  match s with
  | "" => []
  | String c s' => TChar c :: characters s'
  end.

(** The position after a part of the input has been read; [still] tells
    that nothing was read. *)
Definition moved (st : mstate) (still : bool) (rest : string) : mstate :=
  MState (at_start st && still) rest (captures st).

Definition is_empty (s : string) : bool :=
  match s with "" => true | _ => false end.

(** The ends of a string, and the ends a snapshot name can have. *)
Fixpoint suffixes (s : string) : list string :=
  s :: match s with
       | "" => []
       | String _ s' => suffixes s'
       end.

Definition timestamp_tail (t : string) : bool :=
  match JS.strip_prefix "_legacy_" t with
  | Some d => match strip_digits 14 d with Some "" => true | _ => false end
  | None => false
  end.

(** ** The data of the examples *)

(** A host whose [normalizePath] leaves a path as it is, as every host
    does with the canonical paths of the examples.  Its [RegExp] throws
    for the sources [compile] does not read; the one such source met in
    the examples, [^a(b_legacy_\d{14}$], is no pattern. *)
Definition plain_host : Host := mkHost (fun path => path) (fun _ => None).

Definition descending : LegacyFilePluginSettings := mkSettings "legacy" desc.

Definition note (folder name : string) : TFile := mkFile (Some folder) name "md".

Definition nine_o_clock : Date := mkDate 2024 0 1 9 0 0.

(** The document [draft] and its snapshots of 09:00, 10:00 and 11:00. *)
Definition draft : TFile := note "/" "draft".
Definition draft09 : TFile := note "legacy" "draft_legacy_20240101090000".
Definition draft10 : TFile := note "legacy" "draft_legacy_20240101100000".
Definition draft11 : TFile := note "legacy" "draft_legacy_20240101110000".

Definition draft_files : list (TFile * string) :=
  [(draft, "now"); (draft10, "ten"); (draft09, "nine"); (draft11, "eleven")].

Definition draft_vault : vault := mkVault draft_files ["legacy"] [].

(** The same vault after the consolidation in descending order. *)
Definition draft_record : TFile :=
  note "legacy" "draft_legacy_20240101110000-20240101090000".

Definition draft_entries : list (string * string) :=
  [("20240101110000", "eleven"); ("20240101100000", "ten");
   ("20240101090000", "nine")].

Definition draft_consolidated : vault :=
  mkVault [(draft, "now"); (draft_record, body "draft" draft_entries)]
          ["legacy"] [].



(** The same vault with a storage that serves three calls and refuses the
    fourth. *)
Definition failing_vault : vault :=
  mkVault draft_files ["legacy"] [false; false; false; true].

(** Vaults without a snapshot: before the first call of the writer, and
    with the legacy folder. *)
Definition fresh_vault : vault := mkVault [(draft, "now")] [] [].
Definition empty_archive : vault := mkVault [(draft, "now")] ["legacy"] [].

(** The vault [fresh_vault] with a storage that serves three calls and
    refuses the fourth. *)
Definition served_vault : vault :=
  mkVault [(draft, "now")] [] [false; false; false; true].

(** The vault [fresh_vault] after a snapshot of 09:00:00. *)
Definition snapshot_vault : vault :=
  mkVault [(draft, "now"); (draft09, "now")] ["legacy"] [].

(** A snapshot whose content holds the separator. *)
Definition ruled_vault : vault :=
  mkVault [(draft, "now"); (draft09, "a" ++ separator ++ "b")] ["legacy"] [].

(** Snapshots of which the first holds a line made of the marker alone,
    and no separator. *)
Definition marked_entries : list (string * string) :=
  [("20240101090000", "a" ++ JS.LF ++ "___" ++ JS.LF ++ "b");
   ("20240101100000", "ten")].

Definition marked_vault : vault :=
  mkVault [(draft, "now"); (draft10, "ten");
           (draft09, "a" ++ JS.LF ++ "___" ++ JS.LF ++ "b")]
          ["legacy"] [].

(** A document whose base name holds an opening bracket, and a vault with
    this document alone: the legacy folder is empty. *)
Definition bracketed : TFile := note "/" "a(b".

Definition bracketed_vault : vault :=
  mkVault [(bracketed, "now")] ["legacy"] [].

(** A document whose base name holds a bar, with one snapshot. *)
Definition piped : TFile := note "/" "a|b".

Definition piped_vault : vault :=
  mkVault [(piped, "now"); (note "legacy" "a|b_legacy_20240101090000", "then")]
          ["legacy"] [].

(** The legacy folder holding the consolidated record of a document
    [alpha]. *)
Definition alpha_record : TFile :=
  note "legacy" "alpha_legacy_20240101090000-20240101100000".

Definition shared_vault : vault :=
  mkVault [(piped, "now"); (alpha_record, "# alpha_legacy_20240101090000")]
          ["legacy"] [].

(** ** Further auxiliary definitions *)

(** The folder the callback of lines 143-153 reads off a file. *)
Definition fileFolder (host : Host) (file : TFile) : string :=
  match parent file with
  | Some path => normalizePath host path
  | None => ""
  end.

(** The file [createLegacyFile] creates for the document [D] at the date
    [T]: the one the normalized path of line 108 names. *)
Definition snapshot_of (host : Host) (settings : LegacyFilePluginSettings)
           (D : TFile) (T : Date) : TFile :=
  created_at host (normalizePath host (legacyFolder settings))
             (basename D ++ "_legacy_" ++ getTimestamp T ++ ".md").

(** A file whose base name is a snapshot name of [baseName]. *)
Definition is_snapshot_of (baseName : string) (file : TFile) : bool :=
  match snapshot_timestamp baseName (basename file) with
  | Some _ => true
  | None => false
  end.

(** The order the sort of lines 169-175 is asked for, between a file and
    a later one: by timestamp, upwards for [asc] and downwards for
    [desc]. *)
Definition in_order (settings : LegacyFilePluginSettings)
           (a b : TFile * string) : Prop :=
  match sortOrder settings with
  | asc => (snd a <=? snd b)%string = true
  | desc => (snd b <=? snd a)%string = true
  end.

(** The order of two dates: the comparison of the first field in which
    they differ, from the year down to the second. *)
Definition and_then (first rest : comparison) : comparison :=
  match first with
  | Eq => rest
  | _ => first
  end.

Definition chronological (T1 T2 : Date) : comparison :=
  and_then (getFullYear T1 ?= getFullYear T2)%Z
  (and_then (getMonth T1 ?= getMonth T2)%Z
  (and_then (getDate T1 ?= getDate T2)%Z
  (and_then (getHours T1 ?= getHours T2)%Z
  (and_then (getMinutes T1 ?= getMinutes T2)%Z
            (getSeconds T1 ?= getSeconds T2)%Z)))).

(** The check that a field written in decimal comes before the next
    value of the field. *)
Definition before_next (width : nat) (z : Z) : bool :=
  match (zero_padded width z ?= zero_padded width (z + 1))%string with
  | Lt => true
  | _ => false
  end.

(** ** The settings: lines 57-64 and 228-257 *)

Module LegacyFilePlugin.

(** What [loadData] resolves to: [None] for [null] (no data were saved),
    else the saved object.  A field is [None] when the object has no such
    property; a property that is there holds a value of the type the
    interface of lines 4-7 gives it. *)
Record Data : Type := mkData {
  data_legacyFolder : option string;
  data_sortOrder : option SortOrder
}.

(** [Object.assign({}, defaults, source)]: the properties of [source]
    replace those of [defaults], one by one; [null] has none. *)
Definition Object_assign (defaults : LegacyFilePluginSettings)
           (source : option Data) : LegacyFilePluginSettings :=
  match source with
  | None => defaults
  | Some data =>
      mkSettings
        match data_legacyFolder data with
        | Some value => value
        | None => legacyFolder defaults
        end
        match data_sortOrder data with
        | Some value => value
        | None => sortOrder defaults
        end
  end.

(** The plugin object with the data the host keeps for it. *)
Record Plugin : Type := mkPlugin {
  settings : LegacyFilePluginSettings;
  stored : option Data
}.

(** [loadSettings], lines 57-59. *)
Definition loadSettings (this : Plugin) : Plugin :=
  mkPlugin (Object_assign DEFAULT_SETTINGS (stored this)) (stored this).

(** [saveSettings], lines 62-64.  [written] tells whether [saveData]
    wrote the object; when it did not, the data of the host are as
    before. *)
Definition saveSettings (written : bool) (this : Plugin) : Plugin :=
  if written
  then mkPlugin (settings this)
                (Some (mkData (Some (legacyFolder (settings this)))
                              (Some (sortOrder (settings this)))))
  else this.

(** The changes the settings tab of lines 228-257 reports: a text in the
    field of the folder, a choice in the list of the orders. *)
Inductive Change : Type :=
| FolderChanged (value : string)
| OrderChanged (value : SortOrder).

(** The callbacks [onChange] of lines 240-243 and 253-256. *)
Definition onChange (change : Change) (written : bool) (this : Plugin)
  : Plugin :=
  match change with
  | FolderChanged value =>
      saveSettings written
        (mkPlugin (mkSettings (if is_empty value then "legacy" else value)
                              (sortOrder (settings this)))
                  (stored this))
  | OrderChanged value =>
      saveSettings written
        (mkPlugin (mkSettings (legacyFolder (settings this)) value)
                  (stored this))
  end.

(** A session: the plugin is loaded over the data of the host, then the
    changes arrive one after the other. *)
Definition changes (session : list (Change * bool)) (this : Plugin) : Plugin :=
  fold_left (fun plugin event => onChange (fst event) (snd event) plugin)
            session this.

Definition onload (data : option Data) : Plugin :=
  loadSettings (mkPlugin DEFAULT_SETTINGS data).

(** Data that name no folder, or a folder that is not the empty string. *)
Definition names_a_folder (data : option Data) : bool :=
  match data with
  | Some (mkData (Some value) _) => negb (is_empty value)
  | _ => true
  end.

End LegacyFilePlugin.

Definition renamed_session : list (LegacyFilePlugin.Change * bool) :=
  [(LegacyFilePlugin.OrderChanged desc, false);
   (LegacyFilePlugin.FolderChanged "", true)].

(** The vault of [draft] with a storage that serves the three reads, the
    creation of the record and one deletion, and refuses the next call. *)
Definition interrupted_vault : vault :=
  mkVault draft_files ["legacy"] [false; false; false; false; false; true].

(** ** Strings *)

Lemma append_assoc (a b c : string) : (a ++ b) ++ c = a ++ (b ++ c).
Proof. induction a as [|x a IH]; simpl; [reflexivity | now rewrite IH]. Qed.

Lemma append_nil_r (a : string) : a ++ "" = a.
Proof. induction a as [|x a IH]; simpl; [reflexivity | now rewrite IH]. Qed.

Lemma length_append (a b : string) :
  String.length (a ++ b) = String.length a + String.length b.
Proof. induction a as [|x a IH]; simpl; [reflexivity | now rewrite IH]. Qed.

Lemma append_inv_tail (a b c : string) : a ++ c = b ++ c -> a = b.
Proof.
  revert b; induction a as [|x a IH]; intros [|y b] E; simpl in E.
  - reflexivity.
  - apply (f_equal String.length) in E. simpl in E.
    rewrite length_append in E. lia.
  - apply (f_equal String.length) in E. simpl in E.
    rewrite length_append in E. lia.
  - injection E as -> E. f_equal. now apply IH.
Qed.

Lemma strip_prefix_app (p s : string) : JS.strip_prefix p (p ++ s) = Some s.
Proof.
  induction p as [|c p IH]; simpl; [reflexivity|].
  now rewrite Ascii.eqb_refl.
Qed.

Lemma strip_prefix_inv (p s t : string) :
  JS.strip_prefix p s = Some t -> s = p ++ t.
Proof.
  revert s; induction p as [|c p IH]; intros s; simpl.
  - now intros [= ->].
  - destruct s as [|d s]; [discriminate|].
    destruct (Ascii.eqb_spec c d) as [->|_]; [|discriminate].
    intros E. now rewrite (IH _ E).
Qed.

(** ** Files and vault calls *)

Lemma option_eqb_eq (a b : option string) : option_eqb a b = true <-> a = b.
Proof.
  destruct a as [x|], b as [y|]; simpl; try (split; congruence).
  rewrite String.eqb_eq. split; congruence.
Qed.

Lemma TFile_eqb_eq (f g : TFile) : TFile_eqb f g = true <-> f = g.
Proof.
  destruct f as [p1 b1 e1], g as [p2 b2 e2]; unfold TFile_eqb; simpl.
  rewrite !andb_true_iff, option_eqb_eq, !String.eqb_eq.
  split; [intros [[-> ->] ->]; reflexivity | intros [= -> -> ->]; auto].
Qed.

Lemma TFile_eqb_refl (f : TFile) : TFile_eqb f f = true.
Proof. now apply TFile_eqb_eq. Qed.

Lemma TFile_eqb_neq (f g : TFile) : TFile_eqb f g = false <-> f <> g.
Proof.
  rewrite <- TFile_eqb_eq. destruct (TFile_eqb f g); split; congruence.
Qed.

Lemma lookup_None (f : TFile) (l : list (TFile * string)) :
  lookup f l = None <-> ~ In f (map fst l).
Proof.
  induction l as [|[g c] l IH]; simpl; [tauto|].
  destruct (TFile_eqb f g) eqn:E.
  - apply TFile_eqb_eq in E. subst. split; [discriminate | tauto].
  - apply TFile_eqb_neq in E. rewrite IH. split; [intros H [?|?]|]; intuition congruence.
Qed.

Lemma lookup_app_fresh (f : TFile) (l : list (TFile * string)) (c : string) :
  lookup f l = None -> lookup f (l ++ [(f, c)])%list = Some c.
Proof.
  induction l as [|[g d] l IH]; simpl.
  - now rewrite TFile_eqb_refl.
  - destruct (TFile_eqb f g); [discriminate | exact IH].
Qed.

Lemma In_remove (f g : TFile) (l : list (TFile * string)) :
  In g (map fst (remove f l)) <-> In g (map fst l) /\ g <> f.
Proof.
  unfold remove. rewrite !in_map_iff. split.
  - intros [[h c] [<- Hin]]. apply filter_In in Hin as [Hin Hne]. simpl in *.
    split; [exists (h, c); auto|].
    apply negb_true_iff, TFile_eqb_neq in Hne. congruence.
  - intros [[[h c] [<- Hin]] Hne]. exists (h, c). split; [reflexivity|].
    apply filter_In. split; [assumption|]. simpl in *.
    apply negb_true_iff, TFile_eqb_neq. congruence.
Qed.

Lemma lookup_remove_other (f g : TFile) (l : list (TFile * string)) :
  g <> f -> lookup g (remove f l) = lookup g l.
Proof.
  intros Hne. induction l as [|[h c] l IH]; simpl; [reflexivity|].
  destruct (TFile_eqb f h) eqn:E; simpl.
  - apply TFile_eqb_eq in E. subst h.
    apply TFile_eqb_neq in Hne. now rewrite Hne.
  - now rewrite IH.
Qed.

Lemma In_removeAll (sorted : list (TFile * string)) (g : TFile)
      (l : list (TFile * string)) :
  In g (map fst (removeAll sorted l)) <->
  In g (map fst l) /\ ~ In g (map fst sorted).
Proof.
  revert l; induction sorted as [|[f t] sorted IH]; intros l; simpl.
  - tauto.
  - rewrite IH, In_remove. intuition congruence.
Qed.

Lemma lookup_removeAll_other (sorted : list (TFile * string)) (g : TFile)
      (l : list (TFile * string)) :
  ~ In g (map fst sorted) -> lookup g (removeAll sorted l) = lookup g l.
Proof.
  revert l; induction sorted as [|[f t] sorted IH]; intros l Hn; simpl.
  - reflexivity.
  - simpl in Hn. rewrite IH by tauto.
    apply lookup_remove_other. intros ->. tauto.
Qed.

Lemma storage_keeps (v v' : vault) (r : result unit) :
  storage v = (v', r) -> files v' = files v /\ folders v' = folders v.
Proof.
  unfold storage. destruct (faults v) as [|[|] fs]; intros [= <- _]; auto.
Qed.

(** Unfolds one vault call made of [storage] and a lookup. *)
Ltac vault_call H :=
  unfold read, create, delete, createFolder, bind in H;
  let v1 := fresh "v" in
  let r1 := fresh "r" in
  let Hs := fresh "Hs" in
  destruct (storage _) as [v1 [[]|?]] eqn:Hs;
  apply storage_keeps in Hs; destruct Hs as [?Hf ?Hd].

Lemma read_keeps (f : TFile) (v v' : vault) (r : result string) :
  read f v = (v', r) -> files v' = files v /\ folders v' = folders v.
Proof.
  intros H. vault_call H.
  - destruct (lookup f (files v0)); injection H as <- _; auto.
  - injection H as <- _; auto.
Qed.

Lemma read_Ok (f : TFile) (v v' : vault) (c : string) :
  read f v = (v', Ok c) -> lookup f (files v) = Some c.
Proof.
  intros H. vault_call H; [|discriminate].
  rewrite <- Hf. destruct (lookup f (files v0)); congruence.
Qed.

Lemma create_Ok (path d : string) (v v' : vault) (u : unit) :
  create path d v = (v', Ok u) ->
  lookup (file_of_path path) (files v) = None /\
  files v' = (files v ++ [(file_of_path path, d)])%list /\
  folders v' = folders v.
Proof.
  intros H. vault_call H; [|discriminate]. cbv zeta in H.
  rewrite <- Hf, <- Hd.
  destruct (lookup (file_of_path path) (files v0)); [discriminate|].
  injection H as <-. simpl. auto.
Qed.

Lemma create_Throw (path d : string) (v v' : vault) (e : error) :
  create path d v = (v', Throw e) ->
  files v' = files v /\ folders v' = folders v.
Proof.
  intros H. vault_call H; cbv zeta in H.
  - destruct (lookup (file_of_path path) (files v0)); [|discriminate].
    injection H as <- _. auto.
  - injection H as <- _. auto.
Qed.

Lemma delete_Ok (f : TFile) (v v' : vault) (u : unit) :
  delete f v = (v', Ok u) ->
  files v' = remove f (files v) /\ folders v' = folders v.
Proof.
  intros H. vault_call H; [|discriminate].
  rewrite <- Hf, <- Hd.
  destruct (lookup f (files v0)); [|discriminate].
  injection H as <-. simpl. auto.
Qed.

(** ** Paths *)

Lemma split_last_lacks (c : ascii) (s : string) :
  lacks c s = true -> split_last c s = None.
Proof.
  induction s as [|x s IH]; simpl; [reflexivity|].
  intros H. apply andb_true_iff in H as [Hx Hs].
  rewrite (IH Hs). apply negb_true_iff in Hx. now rewrite Hx.
Qed.

Lemma split_last_app (c : ascii) (a b : string) :
  lacks c b = true -> split_last c (a ++ String c b) = Some (a, b).
Proof.
  intros Hb. induction a as [|x a IH]; simpl.
  - now rewrite (split_last_lacks c b Hb), Ascii.eqb_refl.
  - now rewrite IH.
Qed.

Lemma lacks_app (c : ascii) (a b : string) :
  lacks c (a ++ b) = lacks c a && lacks c b.
Proof.
  induction a as [|x a IH]; simpl; [reflexivity|].
  now rewrite IH, andb_assoc.
Qed.

(** A path of a folder names a file of that folder. *)
Lemma parent_file_of_path (folder name : string) :
  lacks "/" name = true ->
  parent (file_of_path (folder ++ "/" ++ name)) = Some folder.
Proof.
  intros Hn. unfold file_of_path.
  change (folder ++ "/" ++ name) with (folder ++ String "/" name).
  rewrite (split_last_app "/" folder name Hn).
  now destruct (split_last "." name) as [[stem ext]|].
Qed.

Lemma file_of_path_markdown (folder stem : string) :
  lacks "/" stem = true ->
  file_of_path (folder ++ "/" ++ stem ++ ".md") = markdown_at folder stem.
Proof.
  intros Hn. unfold file_of_path.
  change (folder ++ "/" ++ stem ++ ".md")
    with (folder ++ String "/" (stem ++ ".md")).
  rewrite (split_last_app "/" folder (stem ++ ".md"))
    by (rewrite lacks_app, Hn; reflexivity).
  change (stem ++ ".md") with (stem ++ String "." "md").
  now rewrite (split_last_app "." stem "md").
Qed.

(** A host that leaves the path of a file as it is makes the file under
    the name asked for. *)
Lemma keeps_name_unchanged (host : Host) (folder stem : string) :
  lacks "/" stem = true ->
  normalizePath host (folder ++ "/" ++ stem ++ ".md")
  = folder ++ "/" ++ stem ++ ".md" ->
  keeps_name host folder stem.
Proof.
  intros Hn Hp. unfold keeps_name, created_at. rewrite Hp.
  now apply file_of_path_markdown.
Qed.

Section Loops.

Variable baseName : string.

Lemma readLoop_keeps (rest : list (TFile * string)) :
  forall i pc tss v v' r,
    readLoop baseName i rest pc tss v = (v', r) ->
    files v' = files v /\ folders v' = folders v.
Proof.
  induction rest as [|[f t] rest IH]; intros i pc tss v v' r; simpl.
  - intros [= <- _]. auto.
  - unfold bind. destruct (read f v) as [v1 [c|e]] eqn:Hr.
    + apply read_keeps in Hr as [Hf Hd]. intros H.
      apply IH in H as [H1 H2]. split; congruence.
    + apply read_keeps in Hr. now intros [= <- _].
Qed.

Lemma readLoop_Ok (rest : list (TFile * string)) :
  forall i pc tss v v' pc' tss',
    readLoop baseName i rest pc tss v = (v', Ok (pc', tss')) ->
    pc' = buildContent baseName i (entries_of v rest) pc /\
    tss' = (tss ++ map snd rest)%list.
Proof.
  induction rest as [|[f t] rest IH]; intros i pc tss v v' pc' tss'; simpl.
  - intros [= _ <- <-]. now rewrite app_nil_r.
  - unfold bind. destruct (read f v) as [v1 [c|e]] eqn:Hr; [|discriminate].
    pose proof (read_Ok _ _ _ _ Hr) as Hc.
    apply read_keeps in Hr as [Hf _]. intros H.
    apply IH in H as [-> ->].
    assert (Hv : entries_of v1 rest = entries_of v rest)
      by (unfold entries_of, content_of; now rewrite Hf).
    assert (Hcf : content_of v f = c) by (unfold content_of; now rewrite Hc).
    rewrite Hv, <- app_assoc. simpl. now rewrite Hcf.
Qed.

End Loops.

Lemma deleteLoop_Ok (sorted : list (TFile * string)) :
  forall v v' u,
    deleteLoop sorted v = (v', Ok u) ->
    files v' = removeAll sorted (files v) /\ folders v' = folders v.
Proof.
  induction sorted as [|[f t] sorted IH]; intros v v' u; simpl.
  - intros [= <-]. auto.
  - unfold bind at 1. destruct (delete f v) as [v1 [[]|e]] eqn:Hd; [|discriminate].
    apply delete_Ok in Hd as [Hf Hd]. intros H.
    apply IH in H as [H1 H2]. split; congruence.
Qed.

(** ** The stable sort *)

Section SortFacts.

Context {A : Type} (comparefn : A -> A -> comparison).

Lemma In_insert (x y : A) (l : list A) :
  In y (JS.insert comparefn x l) <-> y = x \/ In y l.
Proof.
  induction l as [|z l IH]; simpl; [intuition|].
  destruct (comparefn x z); simpl; rewrite ?IH; intuition.
Qed.

Lemma In_sort (y : A) (l : list A) : In y (JS.sort comparefn l) <-> In y l.
Proof.
  induction l as [|x l IH]; simpl; [tauto|].
  rewrite In_insert, IH. intuition.
Qed.

Lemma length_insert (x : A) (l : list A) :
  List.length (JS.insert comparefn x l) = S (List.length l).
Proof.
  induction l as [|z l IH]; simpl; [reflexivity|].
  destruct (comparefn x z); simpl; now rewrite ?IH.
Qed.

Lemma length_sort (l : list A) :
  List.length (JS.sort comparefn l) = List.length l.
Proof.
  induction l as [|x l IH]; simpl; [reflexivity|].
  now rewrite length_insert, IH.
Qed.

End SortFacts.

(** ** The consolidated body *)

(** Brings both sides of an equation between strings to the same
    bracketing. *)
Ltac same_string :=
  unfold JS.LF;
  repeat (progress simpl || rewrite append_assoc);
  reflexivity.

Lemma separator_is_block : separator = separatorBlock.
Proof. reflexivity. Qed.

Lemma appendFile_first (baseName pc t c : string) :
  appendFile baseName 0 pc t c = pc ++ block baseName (t, c).
Proof.
  unfold appendFile, block, headerLine, storageName, blankLine.
  same_string.
Qed.

Lemma appendFile_later (baseName : string) (i : nat) (pc t c : string) :
  appendFile baseName (S i) pc t c
  = pc ++ separatorBlock ++ block baseName (t, c).
Proof.
  unfold appendFile, block, headerLine, storageName, blankLine.
  rewrite separator_is_block. simpl Nat.ltb. cbv iota.
  unfold separatorBlock, ruleLine, blankLine. same_string.
Qed.

Lemma buildContent_later (baseName : string) (entries : list (string * string)) :
  forall i pc,
    buildContent baseName (S i) entries pc
    = pc ++ laterBlocks baseName entries.
Proof.
  induction entries as [|[t c] entries IH]; intros i pc;
    cbn [buildContent laterBlocks].
  - now rewrite append_nil_r.
  - rewrite IH, appendFile_later. now rewrite !append_assoc.
Qed.

Lemma buildContent_body (baseName : string) (entries : list (string * string)) :
  buildContent baseName 0 entries "" = body baseName entries.
Proof.
  destruct entries as [|[t c] entries]; cbn [buildContent body];
    [reflexivity|].
  now rewrite buildContent_later, appendFile_first.
Qed.

(** ** Splitting a body on the separator *)

Lemma laterBlocks_concat (base : string) (entries : list (string * string)) :
  laterBlocks base entries
  = match entries with
    | [] => ""
    | _ :: _ =>
        separatorBlock ++ String.concat separatorBlock (map (block base) entries)
    end.
Proof.
  induction entries as [|e entries IH]; [reflexivity|].
  cbn [laterBlocks map String.concat]. rewrite IH.
  destruct entries as [|e' entries]; [now rewrite append_nil_r | reflexivity].
Qed.

Lemma body_concat (base : string) (entries : list (string * string)) :
  body base entries = String.concat separatorBlock (map (block base) entries).
Proof.
  destruct entries as [|e entries]; [reflexivity|].
  cbn [body map String.concat]. rewrite laterBlocks_concat.
  destruct entries as [|e' entries]; [now rewrite append_nil_r | reflexivity].
Qed.

(** Decides the comparisons of characters met while a prefix is
    stripped: a comparison with an unknown character splits the goal. *)
Ltac compare_chars :=
  repeat (cbn [JS.strip_prefix append] in *;
          match goal with
          | H : context [Ascii.eqb ?a ?b] |- _ =>
              first [ is_var b; destruct (Ascii.eqb a b)
                    | let r := eval vm_compute in (Ascii.eqb a b) in
                      change (Ascii.eqb a b) with r in H ]
          | |- context [Ascii.eqb ?a ?b] =>
              first [ is_var b; destruct (Ascii.eqb a b)
                    | let r := eval vm_compute in (Ascii.eqb a b) in
                      change (Ascii.eqb a b) with r ]
          end);
  cbn [JS.strip_prefix append] in *;
  try reflexivity; try discriminate.

(** Like [compare_chars], keeping what a comparison with an unknown
    character tells about it. *)
Ltac settle_chars :=
  repeat (cbn [JS.strip_prefix append] in *;
          match goal with
          | H : context [Ascii.eqb ?a ?b] |- _ =>
              first [ is_var b; destruct (Ascii.eqb_spec a b); [subst b|]
                    | let r := eval vm_compute in (Ascii.eqb a b) in
                      change (Ascii.eqb a b) with r in H ]
          | |- context [Ascii.eqb ?a ?b] =>
              first [ is_var b; destruct (Ascii.eqb_spec a b); [subst b|]
                    | let r := eval vm_compute in (Ascii.eqb a b) in
                      change (Ascii.eqb a b) with r ]
          end);
  cbn [JS.strip_prefix append] in *;
  try reflexivity; try discriminate.

(** A separator found where a piece meets what follows it starts in the
    piece, and then the piece with a line break holds a separator. *)
Lemma no_separator_across (s tail : string) :
  s <> "" ->
  JS.starts_with separatorBlock (s ++ JS.LF) = false ->
  piece_end tail ->
  JS.starts_with separatorBlock (s ++ tail) = false.
Proof.
  unfold JS.starts_with, separatorBlock, blankLine, ruleLine, JS.LF.
  intros Hs Hm [-> | [t ->]];
    destruct s as [|c1 [|c2 [|c3 [|c4 [|c5 [|c6 s]]]]]]; try congruence;
    compare_chars.
Qed.

Lemma includes_cons (p : string) (c : ascii) (s : string) :
  JS.includes p (String c s) = false ->
  JS.starts_with p (String c s) = false /\ JS.includes p s = false.
Proof. simpl. intros H. now apply orb_false_iff in H. Qed.

Lemma split_go_piece (piece : string) :
  forall cur tail,
    JS.includes separatorBlock (piece ++ JS.LF) = false ->
    piece_end tail ->
    JS.split_go separatorBlock 0 cur (piece ++ tail)
    = JS.split_go separatorBlock 0 (cur ++ piece) tail.
Proof.
  induction piece as [|c piece IH]; intros cur tail Hin Hend.
  - simpl. now rewrite append_nil_r.
  - change (String c piece ++ JS.LF) with (String c (piece ++ JS.LF)) in Hin.
    apply includes_cons in Hin as [Hhere Hlater].
    change (String c piece ++ tail) with (String c (piece ++ tail)).
    cbn [JS.split_go].
    change (String c (piece ++ tail)) with (String c piece ++ tail).
    rewrite no_separator_across by (auto; discriminate).
    rewrite IH by assumption. now rewrite append_assoc.
Qed.

Lemma split_go_separator (cur t : string) :
  JS.split_go separatorBlock 0 cur (separatorBlock ++ t)
  = cur :: JS.split_go separatorBlock 0 "" t.
Proof. reflexivity. Qed.

(** A piece without a separator is not split. *)
Lemma split_go_clean (piece : string) :
  forall cur,
    JS.includes separatorBlock piece = false ->
    JS.split_go separatorBlock 0 cur piece = [cur ++ piece].
Proof.
  induction piece as [|c piece IH]; intros cur Hin.
  - simpl. now rewrite append_nil_r.
  - apply includes_cons in Hin as [Hhere Hlater].
    cbn [JS.split_go]. rewrite Hhere, IH by assumption.
    now rewrite append_assoc.
Qed.

Lemma split_go_concat (pieces : list string) :
  forall cur piece,
    (forall s, In s (removelast (piece :: pieces)) ->
               JS.includes separatorBlock (s ++ JS.LF) = false) ->
    JS.includes separatorBlock (List.last (piece :: pieces) "") = false ->
    JS.split_go separatorBlock 0 cur
                (String.concat separatorBlock (piece :: pieces))
    = (cur ++ piece) :: pieces.
Proof.
  induction pieces as [|next pieces IH]; intros cur piece Hall Hlast.
  - cbn [String.concat]. now apply split_go_clean.
  - change (String.concat separatorBlock (piece :: next :: pieces))
      with (piece ++ separatorBlock
                  ++ String.concat separatorBlock (next :: pieces)).
    change (removelast (piece :: next :: pieces))
      with (piece :: removelast (next :: pieces)) in Hall.
    change (List.last (piece :: next :: pieces) "")
      with (List.last (next :: pieces) "") in Hlast.
    rewrite split_go_piece by (first [apply Hall; now left | right; eauto]).
    rewrite split_go_separator, IH; [reflexivity | | exact Hlast].
    intros s Hs. apply Hall. now right.
Qed.

(** The blocks come back when none of them holds the separator, also
    when a line break is put after it, as the separator does after every
    block but the last. *)
Lemma split_body (base : string) (entries : list (string * string)) :
  entries <> [] ->
  (forall b, In b (removelast (map (block base) entries)) ->
             JS.includes separator (b ++ JS.LF) = false) ->
  JS.includes separator (List.last (map (block base) entries) "") = false ->
  JS.split separator (body base entries) = map (block base) entries.
Proof.
  intros Hne Hall Hlast. rewrite body_concat.
  destruct entries as [|e entries]; [congruence|].
  unfold JS.split. rewrite separator_is_block in *. cbn [map] in *.
  now rewrite split_go_concat.
Qed.

(** ** Counting the pieces of a body *)

(** A separator that starts in a piece without a separator and ends in
    the separator after it: the piece ends with a line break, the marker
    and a line break. *)
Lemma separator_astride (c : ascii) (p t : string) :
  JS.starts_with separatorBlock (String c p) = false ->
  JS.starts_with separatorBlock (String c p ++ separatorBlock ++ t) = true ->
  String c p = markerLine.
Proof.
  unfold JS.starts_with, separatorBlock, markerLine, blankLine, ruleLine, JS.LF.
  intros Hno Hyes.
  destruct p as [|c2 [|c3 [|c4 [|c5 [|c6 p]]]]]; settle_chars.
Qed.

Lemma split_go_skip (k : nat) (cur : string) (c : ascii) (s : string) :
  JS.split_go separatorBlock (S k) cur (String c s)
  = JS.split_go separatorBlock k cur s.
Proof. reflexivity. Qed.

Lemma split_go_pass (cur : string) (c : ascii) (s : string) :
  JS.starts_with separatorBlock (String c s) = false ->
  JS.split_go separatorBlock 0 cur (String c s)
  = JS.split_go separatorBlock 0 (cur ++ String c "") s.
Proof. intros H. cbn [JS.split_go]. now rewrite H. Qed.

Lemma split_go_hit (cur : string) (c : ascii) (s : string) :
  JS.starts_with separatorBlock (String c s) = true ->
  JS.split_go separatorBlock 0 cur (String c s)
  = cur :: JS.split_go separatorBlock 5 "" s.
Proof. intros H. cbn [JS.split_go]. now rewrite H. Qed.

Lemma marker_not_next (t : string) :
  JS.starts_with "_" t = false ->
  JS.starts_with separatorBlock (String "010" t) = false.
Proof.
  destruct t as [|x t]; [reflexivity|].
  unfold JS.starts_with, separatorBlock, blankLine, ruleLine, JS.LF.
  cbn [JS.strip_prefix append]. rewrite Ascii.eqb_refl.
  now destruct (Ascii.eqb "_" x).
Qed.

(** What is left of the separator after such a match is passed without
    a match, when what follows does not start with the marker. *)
Lemma split_go_astride (cur t : string) :
  JS.starts_with "_" t = false ->
  exists cur',
    JS.split_go separatorBlock 0 cur (markerLine ++ separatorBlock ++ t)
    = cur :: JS.split_go separatorBlock 0 cur' t.
Proof.
  intros Ht. eexists.
  change (markerLine ++ separatorBlock ++ t)
    with (String "010" ("___" ++ JS.LF ++ JS.LF ++ "___" ++ JS.LF ++
                        String "010" t)).
  rewrite split_go_hit by reflexivity.
  unfold JS.LF. cbn [append]. rewrite !split_go_skip.
  do 4 (rewrite split_go_pass by reflexivity).
  rewrite split_go_pass by (now apply marker_not_next).
  reflexivity.
Qed.

(** A piece without a separator, then a separator: one piece more,
    whatever the piece ends with. *)
Lemma split_go_count (piece : string) :
  forall cur t n,
    JS.includes separatorBlock piece = false ->
    JS.starts_with "_" t = false ->
    (forall cur', List.length (JS.split_go separatorBlock 0 cur' t) = n) ->
    List.length (JS.split_go separatorBlock 0 cur (piece ++ separatorBlock ++ t))
    = S n.
Proof.
  induction piece as [|c piece IH]; intros cur t n Hin Ht Hn.
  - change ("" ++ separatorBlock ++ t) with (separatorBlock ++ t).
    rewrite split_go_separator. simpl. now rewrite Hn.
  - apply includes_cons in Hin as [Hhere Hlater].
    destruct (JS.starts_with separatorBlock
                (String c piece ++ separatorBlock ++ t)) eqn:Hmatch.
    + rewrite (separator_astride c piece t Hhere Hmatch).
      destruct (split_go_astride cur t Ht) as [cur' ->].
      simpl. now rewrite Hn.
    + change (String c piece ++ separatorBlock ++ t)
        with (String c (piece ++ separatorBlock ++ t)) in *.
      cbn [JS.split_go]. rewrite Hmatch. now apply IH.
Qed.

(** As many pieces as blocks, when no block holds the separator. *)
Lemma split_count (base : string) (entries : list (string * string)) :
  forall e cur,
    (forall e', In e' (e :: entries) ->
                JS.includes separator (block base e') = false) ->
    List.length
      (JS.split_go separatorBlock 0 cur
         (String.concat separatorBlock (map (block base) (e :: entries))))
    = S (List.length entries).
Proof.
  induction entries as [|e2 entries IH]; intros e cur Hall.
  - cbn [map String.concat]. rewrite split_go_clean; [reflexivity|].
    rewrite <- separator_is_block. apply Hall. now left.
  - change (String.concat separatorBlock
              (map (block base) (e :: e2 :: entries)))
      with (block base e ++ separatorBlock
            ++ String.concat separatorBlock (map (block base) (e2 :: entries))).
    apply split_go_count.
    + rewrite <- separator_is_block. apply Hall. now left.
    + cbn [map String.concat]. now destruct (map (block base) entries).
    + intros cur'. apply IH. intros e' He'. apply Hall. now right.
Qed.

Lemma split_body_count (base : string) (entries : list (string * string)) :
  entries <> [] ->
  (forall e, In e entries -> JS.includes separator (block base e) = false) ->
  List.length (JS.split separator (body base entries)) = List.length entries.
Proof.
  intros Hne Hall. rewrite body_concat.
  destruct entries as [|e entries]; [congruence|].
  unfold JS.split. rewrite separator_is_block. now apply split_count.
Qed.

(** *** More pieces than blocks when a block holds the separator *)

Lemma split_go_some (s : string) :
  forall k cur, 1 <= List.length (JS.split_go separatorBlock k cur s).
Proof.
  induction s as [|c s IH]; intros k cur; [simpl; lia|].
  cbn [JS.split_go]. destruct k as [|k]; [|apply IH].
  destruct (JS.starts_with separatorBlock (String c s)); [simpl; lia | apply IH].
Qed.

Lemma starts_with_inv (p s : string) :
  JS.starts_with p s = true -> exists r, s = p ++ r.
Proof.
  unfold JS.starts_with.
  destruct (JS.strip_prefix p s) as [r|] eqn:E; [|discriminate].
  intros _. exists r. now apply strip_prefix_inv.
Qed.

Lemma includes_markerLine : JS.includes separatorBlock markerLine = false.
Proof. reflexivity. Qed.

(** A piece and then a separator: at least one piece more than what
    follows gives, and at least two when the piece holds a separator. *)
Lemma split_go_at_least (fuel : nat) :
  forall piece cur t n,
    String.length piece <= fuel ->
    JS.starts_with "_" t = false ->
    (forall cur', n <= List.length (JS.split_go separatorBlock 0 cur' t)) ->
    let pieces :=
      JS.split_go separatorBlock 0 cur (piece ++ separatorBlock ++ t) in
    S n <= List.length pieces /\
    (JS.includes separatorBlock piece = true -> S (S n) <= List.length pieces).
Proof.
  induction fuel as [|fuel IH]; intros piece cur t n Hlen Ht Hn; cbv zeta.
  - destruct piece; [|simpl in Hlen; lia].
    change ("" ++ separatorBlock ++ t) with (separatorBlock ++ t).
    rewrite split_go_separator. cbn [List.length]. split; [|discriminate].
    specialize (Hn ""). lia.
  - destruct piece as [|c p].
    { change ("" ++ separatorBlock ++ t) with (separatorBlock ++ t).
      rewrite split_go_separator. cbn [List.length]. split; [|discriminate].
      specialize (Hn ""). lia. }
    destruct (JS.starts_with separatorBlock (String c p)) eqn:Hhere.
    + (* a separator at the head of the piece *)
      destruct (starts_with_inv _ _ Hhere) as [r Er]. rewrite Er.
      rewrite append_assoc, split_go_separator.
      assert (Hr : String.length r <= fuel).
      { apply (f_equal String.length) in Er. rewrite length_append in Er.
        simpl in Er, Hlen. lia. }
      destruct (IH r "" t n Hr Ht Hn) as [Hfew _].
      cbv zeta in Hfew. cbn [List.length]. split; [lia | intros _; lia].
    + destruct (JS.starts_with separatorBlock
                  (String c p ++ separatorBlock ++ t)) eqn:Hmatch.
      * (* a separator that ends in the separator after the piece *)
        rewrite (separator_astride c p t Hhere Hmatch).
        destruct (split_go_astride cur t Ht) as [cur' ->].
        cbn [List.length]. split; [specialize (Hn cur'); lia|].
        rewrite includes_markerLine. discriminate.
      * change (String c p ++ separatorBlock ++ t)
          with (String c (p ++ separatorBlock ++ t)) in *.
        rewrite split_go_pass by exact Hmatch.
        assert (Hp : String.length p <= fuel) by (simpl in Hlen; lia).
        destruct (IH p (cur ++ String c "") t n Hp Ht Hn) as [Hfew Hmore].
        cbv zeta in Hfew, Hmore. split; [exact Hfew|].
        cbn [JS.includes]. rewrite Hhere. exact Hmore.
Qed.

Lemma split_go_last_at_least (piece : string) :
  forall cur,
    JS.includes separatorBlock piece = true ->
    2 <= List.length (JS.split_go separatorBlock 0 cur piece).
Proof.
  induction piece as [|c p IH]; intros cur Hin; [discriminate|].
  cbn [JS.includes] in Hin. cbn [JS.split_go].
  destruct (JS.starts_with separatorBlock (String c p)).
  - pose proof (split_go_some p 5 ""). simpl in *. lia.
  - now apply IH.
Qed.

Lemma block_starts (base : string) (entries : list (string * string))
      (e : string * string) :
  JS.starts_with "_"
    (String.concat separatorBlock (map (block base) (e :: entries))) = false.
Proof. cbn [map String.concat]. now destruct (map (block base) entries). Qed.

(** At least as many pieces as blocks, and more when a block holds the
    separator. *)
Lemma split_count_at_least (base : string) (entries : list (string * string)) :
  forall e cur,
    let pieces :=
      JS.split_go separatorBlock 0 cur
        (String.concat separatorBlock (map (block base) (e :: entries))) in
    S (List.length entries) <= List.length pieces /\
    ((exists e', In e' (e :: entries) /\
                 JS.includes separator (block base e') = true) ->
     S (S (List.length entries)) <= List.length pieces).
Proof.
  induction entries as [|e2 entries IH]; intros e cur; cbv zeta.
  - cbn [map String.concat]. split; [apply split_go_some|].
    intros (e' & [<- | []] & He'). rewrite separator_is_block in He'.
    now apply split_go_last_at_least.
  - change (String.concat separatorBlock
              (map (block base) (e :: e2 :: entries)))
      with (block base e ++ separatorBlock
            ++ String.concat separatorBlock (map (block base) (e2 :: entries))).
    set (t := String.concat separatorBlock (map (block base) (e2 :: entries))).
    assert (Ht : JS.starts_with "_" t = false) by apply block_starts.
    assert (Hfew : forall cur',
               S (List.length entries)
               <= List.length (JS.split_go separatorBlock 0 cur' t))
      by (intros cur'; apply IH).
    destruct (split_go_at_least _ (block base e) cur t _ (le_n _) Ht Hfew)
      as [Hone Htwo].
    cbv zeta in Hone, Htwo. split; [exact Hone|].
    intros (e' & [<- | Hin] & He').
    + apply Htwo. now rewrite <- separator_is_block.
    + assert (Hmore : forall cur',
                 S (S (List.length entries))
                 <= List.length (JS.split_go separatorBlock 0 cur' t)).
      { intros cur'. apply IH. eauto. }
      destruct (split_go_at_least _ (block base e) cur t _ (le_n _) Ht Hmore)
        as [H _].
      exact H.
Qed.

(** The pieces are as many as the blocks exactly when no block holds the
    separator. *)
Lemma split_body_count_iff (base : string) (entries : list (string * string)) :
  entries <> [] ->
  List.length (JS.split separator (body base entries)) = List.length entries
  <-> (forall e, In e entries ->
                 JS.includes separator (block base e) = false).
Proof.
  intros Hne. split; [|now apply split_body_count].
  intros Hlen e He.
  destruct (JS.includes separator (block base e)) eqn:Hin; [|reflexivity].
  exfalso. rewrite body_concat in Hlen.
  destruct entries as [|e0 entries]; [congruence|].
  unfold JS.split in Hlen. rewrite separator_is_block in Hlen.
  destruct (split_count_at_least base entries e0 "") as [_ Hmore].
  cbv zeta in Hmore. specialize (Hmore (ex_intro _ e (conj He Hin))).
  cbn [List.length] in Hlen. lia.
Qed.

Section Consolidate.

Variable host : Host.
Variable settings : LegacyFilePluginSettings.

Lemma filterFiles_subset (callback : TFile -> result bool) (l : list TFile) :
  forall kept, filterFiles callback l = Ok kept ->
               forall f, In f kept -> In f l.
Proof.
  induction l as [|g l IH]; simpl; intros kept.
  - intros [= <-] f [].
  - destruct (callback g) as [keep|]; [|discriminate].
    destruct (filterFiles callback l) as [rest|]; [|discriminate].
    intros [= <-] f Hin. specialize (IH rest eq_refl f).
    destruct keep; simpl in Hin; intuition.
Qed.

Lemma fst_withTimestamp (file : TFile) : fst (withTimestamp file) = file.
Proof.
  unfold withTimestamp.
  destruct (exec timestampPattern (basename file)) as [m|]; [|reflexivity].
  now destruct (group 1 (captures m)).
Qed.

Lemma In_sorted_files (legacy : list TFile) (f : TFile) :
  In f (map fst (filesWithTimestamp settings legacy)) <-> In f legacy.
Proof.
  unfold filesWithTimestamp. rewrite in_map_iff. split.
  - intros [e [<- Hin]]. apply In_sort, in_map_iff in Hin as [g [<- Hg]].
    now rewrite fst_withTimestamp.
  - intros Hin. exists (withTimestamp f). split; [apply fst_withTimestamp|].
    apply In_sort, in_map. exact Hin.
Qed.

(** What a run that ends with the notice of success has done. *)
Lemma preserve_success (activeFile : TFile) (v v' : vault) (name : string) :
  preserveLegacyFiles host settings (Some activeFile) v
  = (v', LegacyFilesPreserved name) ->
  exists legacy,
    adapter_exists (normalizePath host (legacyFolder settings)) v = true /\
    legacyFiles host (basename activeFile)
                (normalizePath host (legacyFolder settings)) v = Ok legacy /\
    legacy <> [] /\
    let sorted := filesWithTimestamp settings legacy in
    let stem := preservedName (basename activeFile) (map snd sorted) in
    let record :=
      created_at host (normalizePath host (legacyFolder settings))
                 (stem ++ ".md") in
    let content :=
      buildContent (basename activeFile) 0 (entries_of v sorted) "" in
    name = stem ++ ".md" /\
    lookup record (files v) = None /\
    files v' = removeAll sorted (files v ++ [(record, content)])%list /\
    folders v' = folders v.
Proof.
  unfold preserveLegacyFiles, try_catch.
  destruct (adapter_exists _ v) eqn:Hex; simpl; [|discriminate].
  unfold bind at 1, lift.
  destruct (legacyFiles _ _ _ v) as [legacy|e] eqn:Hl; [|discriminate].
  destruct legacy as [|f0 legacy0]; [discriminate|].
  set (legacy := f0 :: legacy0) in *.
  unfold bind at 1.
  destruct (readLoop _ 0 _ "" [] v) as [v1 [[pc tss]|e]] eqn:Hr; [|discriminate].
  pose proof (readLoop_keeps _ _ _ _ _ _ _ _ Hr) as [Hf1 Hd1].
  apply readLoop_Ok in Hr as [-> ->]. simpl app.
  unfold bind at 1.
  destruct (create _ _ v1) as [v2 [[]|e]] eqn:Hc; [|discriminate].
  apply create_Ok in Hc as (Hfresh & Hf2 & Hd2).
  unfold bind at 1.
  destruct (deleteLoop _ v2) as [v3 [[]|e]] eqn:Hdel; [|discriminate].
  apply deleteLoop_Ok in Hdel as [Hf3 Hd3].
  unfold ret. intros [= <- <-].
  exists legacy. unfold created_at.
  repeat split; try congruence.
  - subst legacy; discriminate.
  - rewrite <- Hf1. exact Hfresh.
  - rewrite Hf3, Hf2, Hf1. reflexivity.
Qed.

End Consolidate.

(** ** The consolidator: what a run leaves in the vault *)

Lemma removeAll_keeps_others (record : TFile) (sorted l : list (TFile * string)) :
  ~ In record (map fst sorted) ->
  filter (fun e => TFile_eqb record (fst e)) (removeAll sorted l)
  = filter (fun e => TFile_eqb record (fst e)) l.
Proof.
  revert l; induction sorted as [|[f t] sorted IH]; intros l Hn; simpl.
  - reflexivity.
  - simpl in Hn. rewrite IH by tauto. unfold remove.
    induction l as [|[g c] l IHl]; simpl; [reflexivity|].
    destruct (TFile_eqb f g) eqn:Efg; simpl.
    + apply TFile_eqb_eq in Efg. subst g.
      assert (E : TFile_eqb record f = false) by (apply TFile_eqb_neq; intros ->; tauto).
      now rewrite E.
    + now rewrite IHl.
Qed.

Lemma filter_absent (record : TFile) (l : list (TFile * string)) :
  lookup record l = None ->
  filter (fun e => TFile_eqb record (fst e)) l = [].
Proof.
  induction l as [|[g c] l IH]; simpl; [reflexivity|].
  destruct (TFile_eqb record g); [discriminate | exact IH].
Qed.

(** C1.  After a successful run of [preserveLegacyFiles] none of the files
    the filter had selected is left in the vault, and the vault has
    gained exactly one file: the consolidated record, the file the
    normalized path of line 201 names, which was not there before and is
    there once.  The record lies in the legacy folder when the normalized
    path is still a path of that folder, and it has the name shown in the
    notice when the host makes the file under the name asked for. *)
Theorem consolidate_deletion_law
        (host : Host) (settings : LegacyFilePluginSettings)
        (activeFile : TFile) (v v' : vault) (name : string) :
  preserveLegacyFiles host settings (Some activeFile) v
  = (v', LegacyFilesPreserved name) ->
  exists legacy record,
    legacyFiles host (basename activeFile)
                (normalizePath host (legacyFolder settings)) v = Ok legacy /\
    legacy <> [] /\
    (forall f, In f legacy -> ~ In f (getFiles v')) /\
    record = created_at host (normalizePath host (legacyFolder settings)) name /\
    (forall name',
        lacks "/" name' = true ->
        normalizePath host
          (normalizePath host (legacyFolder settings) ++ "/" ++ name)
        = normalizePath host (legacyFolder settings) ++ "/" ++ name' ->
        parent record = Some (normalizePath host (legacyFolder settings))) /\
    (forall stem,
        name = stem ++ ".md" ->
        keeps_name host (normalizePath host (legacyFolder settings)) stem ->
        name = basename record ++ "." ++ extension record) /\
    ~ In record (getFiles v) /\
    List.length (filter (fun e => TFile_eqb record (fst e)) (files v')) = 1 /\
    (forall g, In g (getFiles v') <->
               g = record \/ (In g (getFiles v) /\ ~ In g legacy)).
Proof.
  intros Hrun.
  apply preserve_success in Hrun
    as (legacy & _ & Hl & Hne & Hname & Hfresh & Hfiles & _).
  set (sorted := filesWithTimestamp settings legacy) in *.
  rewrite <- Hname in Hfresh, Hfiles.
  set (record := created_at _ _ name) in *.
  assert (Hsub : forall f, In f legacy -> In f (getFiles v))
    by (apply (filterFiles_subset _ _ _ Hl)).
  assert (Hrec : ~ In record (getFiles v)) by (now apply lookup_None).
  assert (Hnot : ~ In record (map fst sorted)).
  { intros Hin. apply In_sorted_files in Hin. auto. }
  assert (Hall : forall g, In g (getFiles v') <->
                           g = record \/ (In g (getFiles v) /\ ~ In g legacy)).
  { intros g. unfold getFiles. rewrite Hfiles, In_removeAll, map_app, in_app_iff.
    unfold sorted. rewrite In_sorted_files. simpl. split.
    - intros [[Hg | [Hg | []]] Hn]; auto.
    - intros [-> | [Hg Hn]]; [|tauto]. split; [auto|].
      intros Hin. apply Hrec, Hsub, Hin. }
  exists legacy, record. repeat split; auto.
  - intros f Hf Hin. apply Hall in Hin as [-> | [_ Hn]]; auto.
  - intros name' Hn Hp. unfold record, created_at. rewrite Hp.
    now apply parent_file_of_path.
  - intros stem Hs Hk. unfold record. rewrite Hs, Hk. reflexivity.
  - rewrite Hfiles, removeAll_keeps_others, filter_app by assumption.
    rewrite filter_absent by assumption. simpl. now rewrite TFile_eqb_refl.
  - apply Hall.
  - apply Hall.
Qed.

(** The content of the record a successful run creates. *)
Lemma preserve_success_body
      (host : Host) (settings : LegacyFilePluginSettings)
      (activeFile : TFile) (v v' : vault) (name : string) :
  preserveLegacyFiles host settings (Some activeFile) v
  = (v', LegacyFilesPreserved name) ->
  exists legacy,
    legacyFiles host (basename activeFile)
                (normalizePath host (legacyFolder settings)) v = Ok legacy /\
    legacy <> [] /\
    lookup (created_at host (normalizePath host (legacyFolder settings))
                        (preservedName (basename activeFile)
                           (map snd (filesWithTimestamp settings legacy)) ++ ".md"))
           (files v')
    = Some (body (basename activeFile)
                 (entries_of v (filesWithTimestamp settings legacy))).
Proof.
  intros Hrun.
  apply preserve_success in Hrun
    as (legacy & _ & Hl & Hne & Hname & Hfresh & Hfiles & _).
  exists legacy. split; [exact Hl|]. split; [exact Hne|].
  rewrite Hfiles, lookup_removeAll_other.
  - rewrite <- buildContent_body. now apply lookup_app_fresh.
  - intros Hin. apply In_sorted_files in Hin.
    apply (filterFiles_subset _ _ _ Hl) in Hin.
    apply lookup_None in Hfresh. auto.
Qed.

(** C3.  The string the loop of lines 181-195 builds from a list of
    selected files in sorted order is the body of the specification: for
    the first file a header line, a blank line and its content, and for
    every later one a separator block and then the same.  It is the
    content of the record that a successful run creates. *)
Theorem consolidated_body_construction :
  (forall (baseName : string) (sorted : list (TFile * string))
          (v v1 : vault) (preservedContent : string) (timestamps : list string),
      readLoop baseName 0 sorted "" [] v
      = (v1, Ok (preservedContent, timestamps)) ->
      preservedContent = body baseName (entries_of v sorted)) /\
  (forall (host : Host) (settings : LegacyFilePluginSettings)
          (activeFile : TFile) (v v' : vault) (name : string),
      preserveLegacyFiles host settings (Some activeFile) v
      = (v', LegacyFilesPreserved name) ->
      exists legacy,
        legacyFiles host (basename activeFile)
                    (normalizePath host (legacyFolder settings)) v = Ok legacy /\
        let sorted := filesWithTimestamp settings legacy in
        let record :=
          created_at host (normalizePath host (legacyFolder settings))
                      (preservedName (basename activeFile) (map snd sorted) ++ ".md") in
        lookup record (files v')
        = Some (body (basename activeFile) (entries_of v sorted))).
Proof.
  split.
  - intros baseName sorted v v1 preservedContent timestamps Hloop.
    apply readLoop_Ok in Hloop as [-> _]. apply buildContent_body.
  - intros host settings activeFile v v' name Hrun.
    destruct (preserve_success_body _ _ _ _ _ _ Hrun) as (legacy & Hl & _ & Hb).
    exists legacy. split; [exact Hl | exact Hb].
Qed.

(** C6.  When the creation of the consolidated record throws, the run
    ends with the notice of failure and the files of the vault are what
    they were: no selected file has been deleted. *)
Theorem failed_creation_deletes_nothing
        (host : Host) (settings : LegacyFilePluginSettings)
        (activeFile : TFile) (v v1 v2 : vault) (legacy : list TFile)
        (preservedContent : string) (timestamps : list string) (e : error) :
  adapter_exists (normalizePath host (legacyFolder settings)) v = true ->
  legacyFiles host (basename activeFile)
              (normalizePath host (legacyFolder settings)) v = Ok legacy ->
  legacy <> [] ->
  readLoop (basename activeFile) 0 (filesWithTimestamp settings legacy) "" [] v
  = (v1, Ok (preservedContent, timestamps)) ->
  create (normalizePath host
            (normalizePath host (legacyFolder settings) ++ "/" ++
             preservedName (basename activeFile) timestamps ++ ".md"))
         preservedContent v1
  = (v2, Throw e) ->
  preserveLegacyFiles host settings (Some activeFile) v = (v2, PreserveFailed) /\
  files v2 = files v.
Proof.
  intros Hex Hl Hne Hread Hcreate.
  unfold preserveLegacyFiles, try_catch. rewrite Hex. simpl negb. cbv iota.
  unfold bind at 1, lift. rewrite Hl.
  destruct legacy as [|f legacy]; [congruence|].
  unfold bind at 1. rewrite Hread.
  unfold bind at 1. rewrite Hcreate.
  split; [reflexivity|].
  apply readLoop_keeps in Hread as [Hf1 _].
  apply create_Throw in Hcreate as [Hf2 _]. congruence.
Qed.

(** A run that selects no file. *)
Lemma preserve_nothing_selected
      (host : Host) (settings : LegacyFilePluginSettings)
      (activeFile : TFile) (v : vault) :
  adapter_exists (normalizePath host (legacyFolder settings)) v = true ->
  legacyFiles host (basename activeFile)
              (normalizePath host (legacyFolder settings)) v = Ok [] ->
  preserveLegacyFiles host settings (Some activeFile) v = (v, NoLegacyFiles).
Proof.
  intros Hex Hl.
  unfold preserveLegacyFiles, try_catch. rewrite Hex. simpl negb. cbv iota.
  unfold bind, lift. now rewrite Hl.
Qed.

(** ** Hosts that leave canonical paths alone *)


Lemma RegExp_test_compiled (host : Host) (source s : string) (r : regex) :
  compile source = Some r -> RegExp_test host source s = Ok (test r s).
Proof. unfold RegExp_test. now intros ->. Qed.


(** ** The name of the consolidated record *)

Lemma nth_last (A : Type) (l : list A) (d : A) :
  nth (List.length l - 1) l d = List.last l d.
Proof.
  induction l as [|x [|y l] IH]; try reflexivity.
  simpl in *. now rewrite <- IH, Nat.sub_0_r.
Qed.

Lemma last_map_snd (A : Type) (l : list (A * string)) (e : A * string) :
  List.last (map snd l) (snd e) = snd (List.last l e).
Proof.
  induction l as [|x [|y l] IH]; try reflexivity. exact IH.
Qed.

Lemma last_default (A : Type) (l : list A) (x d d' : A) :
  List.last (x :: l) d = List.last (x :: l) d'.
Proof.
  revert x; induction l as [|y l IH]; intros x; [reflexivity|].
  change (List.last (y :: l) d = List.last (y :: l) d'). apply IH.
Qed.

Lemma preservedName_recordName
      (baseName : string) (A : Type) (first : A * string)
      (rest : list (A * string)) :
  preservedName baseName (map snd (first :: rest))
  = recordName baseName (snd first)
               (snd (List.last (first :: rest) first)).
Proof.
  unfold preservedName, recordName. rewrite nth_last.
  rewrite <- last_map_snd. cbn [map nth].
  now rewrite (last_default _ _ _ "undefined" (snd first)).
Qed.

(** ** Round trip of the consolidated body *)

(** C5, as amended.  The record of a successful run is the blocks of the
    selected files (header line, blank line, content) in sorted order,
    joined by the separator block.  Splitting the record on the separator
    gives as many pieces as files were selected when no block holds the
    separator block, and only then.  The pieces are the blocks themselves
    when moreover no block but the last holds the separator block once a
    line break is put after it. *)
Theorem consolidated_body_round_trip
        (host : Host) (settings : LegacyFilePluginSettings)
        (activeFile : TFile) (v v' : vault) (name : string) :
  preserveLegacyFiles host settings (Some activeFile) v
  = (v', LegacyFilesPreserved name) ->
  exists legacy consolidated,
    legacyFiles host (basename activeFile)
                (normalizePath host (legacyFolder settings)) v = Ok legacy /\
    let sorted := filesWithTimestamp settings legacy in
    let entries := entries_of v sorted in
    let blocks := map (block (basename activeFile)) entries in
    lookup (created_at host (normalizePath host (legacyFolder settings)) name)
           (files v') = Some consolidated /\
    1 <= List.length legacy /\
    List.length blocks = List.length legacy /\
    consolidated = String.concat separator blocks /\
    (List.length (JS.split separator consolidated) = List.length legacy
     <-> (forall b, In b blocks -> JS.includes separator b = false)) /\
    ((forall b, In b (removelast blocks) ->
                JS.includes separator (b ++ JS.LF) = false) ->
     JS.includes separator (List.last blocks "") = false ->
     JS.split separator consolidated = blocks).
Proof.
  intros Hrun.
  destruct (preserve_success_body _ _ _ _ _ _ Hrun)
    as (legacy & Hl & Hne & Hbody).
  assert (Hname : name = preservedName (basename activeFile)
                           (map snd (filesWithTimestamp settings legacy))
                         ++ ".md").
  { apply preserve_success in Hrun as (legacy' & _ & Hl' & _ & Hname & _).
    rewrite Hl in Hl'. injection Hl' as <-. exact Hname. }
  rewrite <- Hname in Hbody.
  assert (Hlen : List.length (entries_of v (filesWithTimestamp settings legacy))
                 = List.length legacy).
  { unfold entries_of, filesWithTimestamp.
    now rewrite length_map, length_sort, length_map. }
  assert (Hsome : entries_of v (filesWithTimestamp settings legacy) <> []).
  { intros E. rewrite E in Hlen. destruct legacy; [congruence | discriminate]. }
  exists legacy, (body (basename activeFile)
                       (entries_of v (filesWithTimestamp settings legacy))).
  cbv zeta. repeat split; auto.
  - destruct legacy; [congruence | simpl; lia].
  - now rewrite length_map.
  - rewrite separator_is_block. apply body_concat.
  - rewrite <- Hlen. intros Hcount b Hb.
    apply in_map_iff in Hb as [e [<- He]].
    now apply (proj1 (split_body_count_iff _ _ Hsome) Hcount).
  - rewrite <- Hlen. intros Hall.
    apply (proj2 (split_body_count_iff _ _ Hsome)).
    intros e He. apply Hall. now apply in_map.
  - intros Hall Hlast. now apply split_body.
Qed.

(** C5, as stated, fails: one snapshot whose content holds the separator
    gives a record that splits into two pieces. *)
Lemma split_finds_separator_in_content :
  legacyFiles plain_host "draft" "legacy" ruled_vault = Ok [draft09] /\
  snd (preserveLegacyFiles plain_host DEFAULT_SETTINGS (Some draft) ruled_vault)
  = LegacyFilesPreserved "draft_legacy_20240101090000-20240101090000.md" /\
  List.length
    (JS.split separator
       (content_of
          (fst (preserveLegacyFiles plain_host DEFAULT_SETTINGS (Some draft)
                                    ruled_vault))
          (note "legacy" "draft_legacy_20240101090000-20240101090000")))
  = 2.
Proof. vm_compute. repeat split; reflexivity. Qed.

(** ** Timestamps *)

Lemma all_digits_app (a b : string) :
  JS.all_digits (a ++ b) = JS.all_digits a && JS.all_digits b.
Proof.
  induction a as [|c a IH]; simpl; [reflexivity|].
  now rewrite IH, andb_assoc.
Qed.

(** A property checked on every integer of a range holds on the range. *)
Lemma checked_on_range (P : Z -> bool) (lo : Z) (n : nat) :
  forallb (fun k => P (lo + Z.of_nat k)%Z) (seq 0 n) = true ->
  forall z, (lo <= z < lo + Z.of_nat n)%Z -> P z = true.
Proof.
  intros Hall z Hz. rewrite forallb_forall in Hall.
  replace z with (lo + Z.of_nat (Z.to_nat (z - lo)))%Z by lia.
  apply Hall, in_seq. lia.
Qed.

Lemma two_digits_below_100 (z : Z) : (0 <= z < 100)%Z -> two_digits z = true.
Proof.
  intros Hz. apply (checked_on_range two_digits 0 100); [|lia].
  vm_compute. reflexivity.
Qed.

Lemma four_digits_year (z : Z) : (1000 <= z <= 9999)%Z -> four_digits z = true.
Proof.
  intros Hz. apply (checked_on_range four_digits 1000 (Z.to_nat 9000)); [|lia].
  vm_compute. reflexivity.
Qed.

Lemma getTimestamp_fmt14 (T : Date) :
  Date_in_range T -> (1000 <= getFullYear T <= 9999)%Z ->
  getTimestamp T = fmt14 T /\
  String.length (fmt14 T) = 14 /\ JS.all_digits (fmt14 T) = true.
Proof.
  intros (Hmo & Hd & Hh & Hmi & Hs) Hy.
  pose proof (four_digits_year _ Hy) as Y.
  pose proof (two_digits_below_100 (getMonth T + 1) ltac:(lia)) as A.
  pose proof (two_digits_below_100 (getDate T) ltac:(lia)) as B.
  pose proof (two_digits_below_100 (getHours T) ltac:(lia)) as C.
  pose proof (two_digits_below_100 (getMinutes T) ltac:(lia)) as D.
  pose proof (two_digits_below_100 (getSeconds T) ltac:(lia)) as E.
  unfold two_digits, four_digits in *.
  repeat match goal with
         | H : _ && _ = true |- _ => apply andb_true_iff in H as [? ?]
         | H : (_ =? _)%nat = true |- _ => apply Nat.eqb_eq in H
         | H : String.eqb _ _ = true |- _ => apply String.eqb_eq in H
         end.
  unfold getTimestamp, fmt14. fold (zero_padded 2 (getMonth T + 1)).
  fold (zero_padded 2 (getDate T)). fold (zero_padded 2 (getHours T)).
  fold (zero_padded 2 (getMinutes T)). fold (zero_padded 2 (getSeconds T)).
  repeat split.
  - congruence.
  - rewrite !length_append. lia.
  - rewrite !all_digits_app.
    repeat (apply andb_true_iff; split); assumption.
Qed.

(** The year is written as it is: outside 1000..9999 the timestamp has
    not fourteen digits. *)
Lemma getTimestamp_short_year :
  getTimestamp (mkDate 999 0 1 9 0 0) = "9990101090000" /\
  fmt14 (mkDate 999 0 1 9 0 0) = "09990101090000".
Proof. split; reflexivity. Qed.

(** ** The writer *)

Lemma storage_quiet (v : vault) :
  quiet v ->
  exists v1, storage v = (v1, Ok tt) /\
             files v1 = files v /\ folders v1 = folders v /\ quiet v1.
Proof.
  unfold quiet, storage. intros Hq.
  destruct (faults v) as [|[|] fs] eqn:Ef.
  - exists v. rewrite Ef. auto.
  - specialize (Hq true (or_introl eq_refl)). discriminate.
  - eexists. split; [reflexivity|]. simpl. repeat split; auto.
    intros b Hb. apply Hq. now right.
Qed.

Lemma storage_serves (n : nat) (v : vault) :
  serves (S n) v ->
  exists v1, storage v = (v1, Ok tt) /\
             files v1 = files v /\ folders v1 = folders v /\ serves n v1.
Proof.
  unfold serves, storage. intros Hq.
  destruct (faults v) as [|[|] fs] eqn:Ef.
  - exists v. rewrite Ef. repeat split; auto.
    intros b Hb. now destruct n.
  - specialize (Hq true (or_introl eq_refl)). discriminate.
  - eexists. split; [reflexivity|]. simpl. repeat split; auto.
    intros b Hb. apply Hq. now right.
Qed.

(** C2, as amended.  For a document [D] of the vault and a call time [T]
    with a year of four digits: when the host makes the file under the
    name asked for, the legacy folder holds no file of the snapshot's name
    yet and the storage serves the calls of the run (the read, the
    creation of the folder when it is missing, the creation of the file),
    [createLegacyFile] adds exactly one file, in the legacy folder and
    named [{base(D)}_legacy_{fmt14(T)}], [fmt14(T)] being fourteen digits,
    and its content is the content of [D]. *)
Theorem writeSnapshot_adds_one_entry
        (host : Host) (settings : LegacyFilePluginSettings)
        (D : TFile) (T : Date) (v : vault) (content : string) :
  Date_in_range T ->
  (1000 <= getFullYear T <= 9999)%Z ->
  lookup D (files v) = Some content ->
  keeps_name host (normalizePath host (legacyFolder settings))
             (storageName (basename D) (fmt14 T)) ->
  lookup (markdown_at (normalizePath host (legacyFolder settings))
                      (storageName (basename D) (fmt14 T)))
         (files v) = None ->
  serves (if adapter_exists (normalizePath host (legacyFolder settings)) v
          then 2 else 3) v ->
  String.length (fmt14 T) = 14 /\ JS.all_digits (fmt14 T) = true /\
  exists v',
    createLegacyFile host settings (Some D) T v
    = (v', LegacyFileCreated (storageName (basename D) (fmt14 T) ++ ".md")) /\
    files v'
    = (files v ++
       [(markdown_at (normalizePath host (legacyFolder settings))
                     (storageName (basename D) (fmt14 T)), content)])%list.
Proof.
  intros Hrange Hyear HD Hkeeps Hfresh Hq.
  destruct (getTimestamp_fmt14 T Hrange Hyear) as (Hts & Hlen & Hdig).
  split; [exact Hlen|]. split; [exact Hdig|].
  unfold createLegacyFile, try_catch. rewrite Hts.
  set (folder := normalizePath host (legacyFolder settings)) in *.
  set (snapshot := markdown_at folder _) in *.
  assert (Hname : basename D ++ "_legacy_" ++ fmt14 T ++ ".md"
                  = storageName (basename D) (fmt14 T) ++ ".md")
    by (unfold storageName; now rewrite !append_assoc).
  rewrite Hname.
  (* the read *)
  unfold bind at 1. unfold read at 1. unfold bind at 1.
  assert (Hq0 : serves 2 v /\
                (adapter_exists folder v = false -> serves 3 v)).
  { destruct (adapter_exists folder v); split; auto; try discriminate.
    intros b Hb. apply Hq. simpl in *.
    destruct (faults v) as [|b1 [|b2 fs]]; simpl in *; tauto. }
  destruct Hq0 as [Hq2 Hq3].
  destruct (storage_serves 1 v Hq2) as (v1 & Hs1 & Hf1 & Hd1 & Hq1).
  rewrite Hs1, Hf1, HD.
  (* the folder *)
  unfold bind at 1.
  assert (Hfolder : exists v2,
             (if negb (adapter_exists folder v1)
              then createFolder folder v1 else (v1, Ok tt)) = (v2, Ok tt) /\
             files v2 = files v /\ serves 1 v2).
  { assert (Hex1 : adapter_exists folder v1 = adapter_exists folder v)
      by (unfold adapter_exists; now rewrite Hd1).
    destruct (adapter_exists folder v1) eqn:Hex; simpl.
    - exists v1. auto.
    - symmetry in Hex1.
      destruct (storage_serves 2 v (Hq3 Hex1)) as (v1' & Hs1' & _ & _ & Hq1').
      rewrite Hs1 in Hs1'. injection Hs1' as <-.
      unfold createFolder, bind.
      destruct (storage_serves 1 v1 Hq1') as (v2 & -> & Hf2 & Hd2 & Hq2').
      unfold adapter_exists in *. rewrite Hd2, Hex.
      eexists. split; [reflexivity|]. simpl. split; [congruence|].
      intros b Hb. apply Hq2'. destruct (faults v2); [destruct Hb|].
      simpl in *. tauto. }
  destruct Hfolder as (v2 & -> & Hf2 & Hq2').
  (* the creation *)
  unfold bind at 1. unfold create at 1. unfold bind at 1.
  destruct (storage_serves 0 v2 Hq2') as (v3 & -> & Hf3 & Hd3 & _).
  cbv zeta.
  change (file_of_path (normalizePath host (folder ++ "/" ++ ?n)))
    with (created_at host folder n).
  rewrite Hkeeps. fold snapshot. rewrite Hf3, Hf2, Hfresh.
  eexists. split; reflexivity.
Qed.

(** ** The pattern of a plain base name *)

Lemma plain_character (c : ascii) :
  syntax_character c = false ->
  Ascii.eqb c "\" = false /\ Ascii.eqb c "{" = false /\
  Ascii.eqb c "^" = false /\ Ascii.eqb c "$" = false /\
  Ascii.eqb c "|" = false.
Proof.
  unfold syntax_character. simpl. intros H.
  repeat (apply orb_false_iff in H as [? H]). auto.
Qed.

Lemma lex_plain (b rest : string) (toks : list token) :
  plain_name b = true ->
  lex Plain rest = Some toks ->
  lex Plain (b ++ rest) = Some (characters b ++ toks)%list.
Proof.
  intros Hb Hrest. induction b as [|c b IH]; simpl; [exact Hrest|].
  simpl in Hb. apply andb_true_iff in Hb as [Hc Hb].
  apply negb_true_iff in Hc.
  destruct (plain_character c Hc) as (-> & -> & -> & -> & ->).
  rewrite Hc, (IH Hb). reflexivity.
Qed.

Lemma parse_characters (b : string) (toks : list token) (terms : list regex) :
  match toks with TBrace _ :: _ => False | _ => True end ->
  parse toks = Some [terms] ->
  parse (characters b ++ toks) = Some [(literal b ++ terms)%list].
Proof.
  intros Hhead Htoks. induction b as [|c b IH]; [exact Htoks|].
  cbn [characters literal app].
  assert (Hnext : parse (TChar c :: characters b ++ toks)
                  = option_map (push (Char c)) (parse (characters b ++ toks))).
  { destruct b as [|d b]; [|reflexivity].
    cbn [characters app]. destruct toks as [|[] toks]; try reflexivity.
    destruct Hhead. }
  rewrite Hnext, IH. reflexivity.
Qed.

Lemma compile_plain (baseName : string) :
  plain_name baseName = true ->
  compile (patternSource baseName) = Some (plain_pattern baseName).
Proof.
  intros Hb. unfold compile, patternSource.
  change ("^" ++ baseName ++ "_legacy_\d{14}$")
    with (String "^" (baseName ++ "_legacy_\d{14}$")).
  cbn [lex]. simpl Ascii.eqb. cbv iota.
  rewrite (lex_plain baseName _
             (characters "_legacy_" ++ [TDigit; TBrace 14; TEol])%list Hb)
    by (vm_compute; reflexivity).
  cbn [option_map parse].
  rewrite (parse_characters baseName _
             (literal "_legacy_" ++ [Times 14 Digit; Eol])%list);
    [reflexivity | exact I | vm_compute; reflexivity].
Qed.

Lemma run_Times (n : nat) (r : regex) (st : mstate) :
  run (Times n r) st = repeated (run r) n [st].
Proof. reflexivity. Qed.

Lemma run_Seq (r1 r2 : regex) (st : mstate) :
  run (Seq r1 r2) st = flat_map (run r2) (run r1 st).
Proof. reflexivity. Qed.

Lemma repeated_nil (f : mstate -> list mstate) (n : nat) : repeated f n [] = [].
Proof. induction n as [|n IH]; [reflexivity | exact IH]. Qed.

Lemma moved_here (st : mstate) : moved st true (input st) = st.
Proof. destruct st as [a s c]. unfold moved. simpl. now rewrite andb_true_r. Qed.

Lemma moved_advance (st : mstate) (rest : string) (still : bool) (rest' : string) :
  moved (advance st rest) still rest' = moved st false rest'.
Proof. unfold moved, advance. simpl. now rewrite andb_false_r. Qed.

Lemma run_literal (p : string) (terms : list regex) :
  forall st,
    run (sequence (literal p ++ terms)%list) st
    = match JS.strip_prefix p (input st) with
      | Some rest => run (sequence terms) (moved st (is_empty p) rest)
      | None => []
      end.
Proof.
  induction p as [|c p IH]; intros st.
  - simpl. now rewrite moved_here.
  - cbn [literal app sequence fold_right]. fold (sequence (literal p ++ terms)%list).
    rewrite run_Seq. cbn [run JS.strip_prefix].
    destruct (input st) as [|a s]; [reflexivity|].
    destruct (Ascii.eqb c a); [|reflexivity].
    cbn [flat_map]. rewrite app_nil_r, IH. cbn [input advance].
    destruct (JS.strip_prefix p s); [|reflexivity].
    now rewrite moved_advance.
Qed.

Lemma repeated_Digit (n : nat) :
  forall st,
    repeated (run Digit) n [st]
    = match strip_digits n (input st) with
      | Some rest => [moved st (Nat.eqb n 0) rest]
      | None => []
      end.
Proof.
  induction n as [|n IH]; intros st.
  - simpl. now rewrite moved_here.
  - cbn [repeated flat_map run strip_digits]. fold (repeated (run Digit)).
    destruct (input st) as [|a s]; [apply repeated_nil|].
    destruct (JS.is_digit a); [|apply repeated_nil].
    cbn [app]. rewrite IH. cbn [input advance].
    destruct (strip_digits n s); [|reflexivity].
    now rewrite moved_advance.
Qed.

Lemma run_digits_end (st : mstate) :
  run (sequence [Times 14 Digit; Eol]) st
  = match strip_digits 14 (input st) with
    | Some "" => [moved st false ""]
    | _ => []
    end.
Proof.
  cbn [sequence fold_right]. rewrite run_Seq, run_Times, repeated_Digit.
  destruct (strip_digits 14 (input st)) as [[|c rest]|]; reflexivity.
Qed.

Lemma literal_app (a b : string) :
  literal (a ++ b) = (literal a ++ literal b)%list.
Proof. induction a as [|c a IH]; simpl; [reflexivity | now rewrite IH]. Qed.

Lemma exec_from_Bol (r : regex) (s : string) :
  exec_from (Seq Bol r) false s = None.
Proof. induction s as [|c s IH]; [reflexivity | exact IH]. Qed.

(** The pattern of a plain base name accepts the snapshot names of that
    base name and nothing else. *)
Lemma test_plain_pattern (baseName name : string) :
  test (plain_pattern baseName) name
  = match snapshot_timestamp baseName name with
    | Some _ => true
    | None => false
    end.
Proof.
  unfold test, exec, snapshot_timestamp, plain_pattern.
  assert (Hrun : run (sequence (Bol :: literal baseName ++ literal "_legacy_"
                                    ++ [Times 14 Digit; Eol])%list)
                     (MState true name [])
                 = match JS.strip_prefix (baseName ++ "_legacy_") name with
                   | Some d =>
                       match strip_digits 14 d with
                       | Some "" =>
                           [moved (moved (MState true name [])
                                         (is_empty (baseName ++ "_legacy_")) d)
                                  false ""]
                       | _ => []
                       end
                   | None => []
                   end).
  { cbn [sequence fold_right].
    fold (sequence (literal baseName ++ literal "_legacy_"
                            ++ [Times 14 Digit; Eol])%list).
    rewrite run_Seq. cbn [run at_start flat_map]. rewrite app_nil_r.
    rewrite app_assoc, <- literal_app, run_literal. cbn [input].
    destruct (JS.strip_prefix (baseName ++ "_legacy_") name) as [d|];
      [|reflexivity].
    now rewrite run_digits_end. }
  destruct name as [|c name]; cbn [exec_from]; rewrite Hrun;
    destruct (JS.strip_prefix (baseName ++ "_legacy_") _) as [d|];
    try reflexivity;
    try (destruct (strip_digits 14 d) as [[|x rest]|]; try reflexivity);
    cbn [sequence fold_right]; now rewrite exec_from_Bol.
Qed.

Lemma RegExp_test_plain (host : Host) (baseName name : string) :
  plain_name baseName = true ->
  RegExp_test host (patternSource baseName) name
  = Ok (match snapshot_timestamp baseName name with
        | Some _ => true
        | None => false
        end).
Proof.
  intros Hb.
  rewrite (RegExp_test_compiled _ _ _ _ (compile_plain baseName Hb)).
  now rewrite test_plain_pattern.
Qed.

(** ** The pattern literal of the timestamp *)

Lemma take_all (s : string) : JS.take (String.length s) s = s.
Proof. induction s as [|c s IH]; simpl; [reflexivity | now rewrite IH]. Qed.

Lemma strip_prefix_length (p s t : string) :
  JS.strip_prefix p s = Some t ->
  String.length s = String.length p + String.length t.
Proof. intros H. apply strip_prefix_inv in H. subst. apply length_append. Qed.

Lemma strip_digits_end (n : nat) :
  forall s, strip_digits n s = Some "" ->
            String.length s = n /\ JS.all_digits s = true.
Proof.
  induction n as [|n IH]; intros s; simpl.
  - intros [= ->]. auto.
  - destruct s as [|c s]; [discriminate|].
    destruct (JS.is_digit c) eqn:Hc; [|discriminate].
    intros H. apply IH in H as [<- Hd]. simpl. now rewrite Hc, Hd.
Qed.

Lemma run_Group (i : nat) (r : regex) (st : mstate) :
  run (Group i r) st = map (capture i st) (run r st).
Proof. reflexivity. Qed.

Lemma run_timestampPattern (st : mstate) :
  run timestampPattern st
  = match JS.strip_prefix "_legacy_" (input st) with
    | Some d =>
        match strip_digits 14 d with
        | Some "" => [MState false "" ((1, d) :: captures st)]
        | _ => []
        end
    | None => []
    end.
Proof.
  unfold timestampPattern. rewrite run_literal.
  destruct (JS.strip_prefix "_legacy_" (input st)) as [d|]; [|reflexivity].
  cbn [sequence fold_right].
  rewrite run_Seq, run_Group, run_Times, repeated_Digit. cbn [input moved].
  destruct (strip_digits 14 d) as [[|c rest]|]; try reflexivity.
  cbn [map flat_map run input moved]. rewrite !app_nil_r.
  unfold capture, moved. cbn [input at_start captures String.length].
  rewrite Nat.sub_0_r, take_all, !andb_false_r. reflexivity.
Qed.

Lemma exec_timestampPattern (before d : string) :
  strip_digits 14 d = Some "" ->
  forall start,
    exists st,
      exec_from timestampPattern start (before ++ "_legacy_" ++ d) = Some st /\
      group 1 (captures st) = Some d.
Proof.
  intros Hd. induction before as [|c before IH]; intros start.
  - simpl append. cbn [exec_from]. rewrite run_timestampPattern.
    cbn [input JS.strip_prefix]. simpl Ascii.eqb. cbv iota. rewrite Hd.
    eexists. split; reflexivity.
  - destruct (IH false) as (st & Hexec & Hgroup).
    exists st. split; [|exact Hgroup].
    change (String c before ++ "_legacy_" ++ d)
      with (String c (before ++ "_legacy_" ++ d)).
    cbn [exec_from]. rewrite run_timestampPattern. cbn [input].
    destruct (JS.strip_prefix "_legacy_" (String c (before ++ "_legacy_" ++ d)))
      as [d'|] eqn:Hp; [|exact Hexec].
    destruct (strip_digits 14 d') as [[|x rest]|] eqn:Hd'; try exact Hexec.
    exfalso.
    apply strip_prefix_length in Hp. apply strip_digits_end in Hd' as [Hl _].
    apply strip_digits_end in Hd as [Hl0 _].
    simpl in Hp. rewrite !length_append in Hp. simpl in Hp. lia.
Qed.

Lemma snapshot_timestamp_name (baseName name d : string) :
  snapshot_timestamp baseName name = Some d ->
  name = storageName baseName d /\ strip_digits 14 d = Some "".
Proof.
  unfold snapshot_timestamp, storageName.
  destruct (JS.strip_prefix _ name) as [d'|] eqn:Hp; [|discriminate].
  destruct (strip_digits 14 d') as [[|x rest]|] eqn:Hd; try discriminate.
  intros [= <-]. apply strip_prefix_inv in Hp. subst.
  now rewrite append_assoc.
Qed.

Lemma withTimestamp_snapshot (baseName d : string) (file : TFile) :
  snapshot_timestamp baseName (basename file) = Some d ->
  withTimestamp file = (file, d).
Proof.
  intros H. apply snapshot_timestamp_name in H as [Hname Hd].
  unfold withTimestamp, exec, storageName in *. rewrite Hname.
  destruct (exec_timestampPattern baseName d Hd true) as (st & -> & ->).
  reflexivity.
Qed.

Lemma filterFiles_kept (callback : TFile -> result bool) (l : list TFile) :
  forall kept, filterFiles callback l = Ok kept ->
               forall f, In f kept -> callback f = Ok true.
Proof.
  induction l as [|g l IH]; simpl; intros kept.
  - intros [= <-] f [].
  - destruct (callback g) as [keep|] eqn:Hg; [|discriminate].
    destruct (filterFiles callback l) as [rest|]; [|discriminate].
    intros [= <-] f Hin. specialize (IH rest eq_refl f).
    destruct keep; simpl in Hin; [destruct Hin as [<- | Hin]|]; auto.
Qed.

Lemma filterFiles_none (callback : TFile -> result bool) (l : list TFile) :
  (forall f, In f l -> callback f = Ok false) -> filterFiles callback l = Ok [].
Proof.
  induction l as [|g l IH]; intros H; simpl; [reflexivity|].
  rewrite (H g) by (now left). rewrite IH by (intros; apply H; now right).
  reflexivity.
Qed.

Lemma filterFiles_left_out (callback : TFile -> result bool) (l : list TFile) :
  forall kept, filterFiles callback l = Ok kept ->
               forall f, In f l -> ~ In f kept -> callback f = Ok false.
Proof.
  induction l as [|g l IH]; simpl; intros kept.
  - intros _ f [].
  - destruct (callback g) as [keep|] eqn:Hg; [|discriminate].
    destruct (filterFiles callback l) as [rest|]; [|discriminate].
    intros [= <-] f [<- | Hin] Hout.
    + destruct keep; [exfalso; apply Hout; now left | exact Hg].
    + apply (IH rest eq_refl f Hin).
      destruct keep; [intros Hr; apply Hout; now right | exact Hout].
Qed.

(** With a plain base name every selected file is a snapshot of that base
    name, and its timestamp is the one the map of lines 161-166 finds. *)
Lemma plain_selection_has_timestamps
      (host : Host) (baseName folder : string) (v : vault)
      (legacy : list TFile) :
  plain_name baseName = true ->
  legacyFiles host baseName folder v = Ok legacy ->
  forall f, In f legacy ->
    exists d, basename f = storageName baseName d /\
              String.length d = 14 /\ JS.all_digits d = true /\
              withTimestamp f = (f, d).
Proof.
  intros Hb Hl f Hf.
  pose proof (filterFiles_kept _ _ _ Hl f Hf) as Hcb.
  unfold isLegacyFile in Hcb. rewrite (RegExp_test_plain host _ _ Hb) in Hcb.
  destruct (snapshot_timestamp baseName (basename f)) as [d|] eqn:Hs.
  - exists d. pose proof (withTimestamp_snapshot _ _ _ Hs) as Hw.
    apply snapshot_timestamp_name in Hs as [Hn Hd].
    apply strip_digits_end in Hd as [Hlen Hdig]. auto.
  - rewrite andb_false_r in Hcb. discriminate.
Qed.

(** ** Records, and names with thirteen digits *)

Lemma strip_prefix_append (p q s : string) :
  JS.strip_prefix (p ++ q) s
  = match JS.strip_prefix p s with
    | Some t => JS.strip_prefix q t
    | None => None
    end.
Proof.
  revert s; induction p as [|c p IH]; intros s; [reflexivity|].
  destruct s as [|a s]; simpl; [reflexivity|].
  destruct (Ascii.eqb c a); [apply IH | reflexivity].
Qed.

Lemma strip_prefix_suffix (p : string) :
  forall s t, JS.strip_prefix p s = Some t -> In t (suffixes s).
Proof.
  induction p as [|c p IH]; intros s t; simpl.
  - intros [= <-]. destruct s; now left.
  - destruct s as [|a s]; [discriminate|].
    destruct (Ascii.eqb c a); [|discriminate].
    intros H. right. now apply IH.
Qed.

Lemma snapshot_timestamp_tail (baseName name d : string) :
  snapshot_timestamp baseName name = Some d ->
  existsb timestamp_tail (suffixes name) = true.
Proof.
  unfold snapshot_timestamp. rewrite strip_prefix_append.
  destruct (JS.strip_prefix baseName name) as [t|] eqn:Ht; [|discriminate].
  intros H. apply existsb_exists. exists t.
  split; [now apply (strip_prefix_suffix baseName)|].
  unfold timestamp_tail. destruct (JS.strip_prefix "_legacy_" t); [|discriminate].
  destruct (strip_digits 14 s) as [[|x rest]|]; congruence.
Qed.

(** The pattern of a plain base name rejects the name with thirteen
    digits, whatever the base name. *)
Lemma thirteen_digits_rejected_for_plain_names (host : Host) (baseName : string) :
  plain_name baseName = true ->
  RegExp_test host (patternSource baseName) "note_legacy_2024010100000"
  = Ok false.
Proof.
  intros Hb. rewrite (RegExp_test_plain host _ _ Hb).
  destruct (snapshot_timestamp baseName "note_legacy_2024010100000") eqn:E;
    [|reflexivity].
  apply snapshot_timestamp_tail in E. vm_compute in E. discriminate.
Qed.

(** What the specification expects of the three owners it names. *)
Lemma note_pattern_examples (host : Host) :
  RegExp_test host (patternSource "note") "note_legacy_20240101000000" = Ok true /\
  RegExp_test host (patternSource "note2") "note_legacy_20240101000000" = Ok false /\
  RegExp_test host (patternSource "notex") "note_legacy_20240101000000" = Ok false /\
  RegExp_test host (patternSource "note") "note_legacy_2024010100000" = Ok false.
Proof.
  repeat split;
    (erewrite RegExp_test_compiled by (vm_compute; reflexivity));
    vm_compute; reflexivity.
Qed.

(** C7.  The pattern accepts [note_legacy_20240101000000] for the owner
    [note] and rejects it for [note2] and [notex]; it is to reject
    [note_legacy_2024010100000], of thirteen digits, for every owner, and
    accepts it for the owner [n|x]: the base name is put into the pattern
    source as it is and its bar is read as an alternative. *)
Theorem thirteen_digits_accepted_for_piped_owner (host : Host) :
  RegExp_test host (patternSource "n|x") "note_legacy_2024010100000" = Ok true.
Proof.
  erewrite RegExp_test_compiled by (vm_compute; reflexivity).
  vm_compute. reflexivity.
Qed.

Lemma all_digits_dash (s e : string) : JS.all_digits (s ++ "-" ++ e) = false.
Proof. rewrite all_digits_app. simpl. apply andb_false_r. Qed.

Lemma record_is_no_snapshot (baseName s e : string) :
  snapshot_timestamp baseName (recordName baseName s e) = None.
Proof.
  unfold snapshot_timestamp, recordName.
  replace (baseName ++ "_legacy_" ++ s ++ "-" ++ e)
    with ((baseName ++ "_legacy_") ++ s ++ "-" ++ e)
    by (now rewrite append_assoc).
  rewrite strip_prefix_app.
  destruct (strip_digits 14 (s ++ "-" ++ e)) as [[|x rest]|] eqn:E;
    try reflexivity.
  apply strip_digits_end in E as [_ E]. now rewrite all_digits_dash in E.
Qed.

Lemma preserve_success_files
      (host : Host) (settings : LegacyFilePluginSettings)
      (activeFile : TFile) (v v' : vault) (name : string) :
  preserveLegacyFiles host settings (Some activeFile) v
  = (v', LegacyFilesPreserved name) ->
  exists legacy,
    legacyFiles host (basename activeFile)
                (normalizePath host (legacyFolder settings)) v = Ok legacy /\
    let record :=
      created_at host (normalizePath host (legacyFolder settings))
                  (preservedName (basename activeFile)
                     (map snd (filesWithTimestamp settings legacy)) ++ ".md") in
    ~ In record (getFiles v) /\
    forall g, In g (getFiles v') <->
              g = record \/ (In g (getFiles v) /\ ~ In g legacy).
Proof.
  intros Hrun.
  apply preserve_success in Hrun
    as (legacy & _ & Hl & Hne & Hname & Hfresh & Hfiles & _).
  exists legacy. split; [exact Hl|]. cbv zeta.
  set (record := created_at _ _ _) in *.
  assert (Hrec : ~ In record (getFiles v)) by (now apply lookup_None).
  split; [exact Hrec|].
  intros g. unfold getFiles. rewrite Hfiles, In_removeAll, map_app, in_app_iff.
  rewrite In_sorted_files. simpl. split.
  - intros [[Hg | [Hg | []]] Hn]; auto.
  - intros [-> | [Hg Hn]]; [|tauto]. split; [auto|].
    intros Hin. apply Hrec. apply (filterFiles_subset _ _ _ Hl _ Hin).
Qed.

(** With a plain base name, and a record made under the name asked for, a
    second run finds nothing to consolidate and leaves the record of the
    first run where it is. *)
Lemma plain_consolidation_is_not_repeated
      (host : Host) (settings : LegacyFilePluginSettings)
      (activeFile : TFile) (v v' : vault) (stem : string) :
  plain_name (basename activeFile) = true ->
  keeps_name host (normalizePath host (legacyFolder settings)) stem ->
  preserveLegacyFiles host settings (Some activeFile) v
  = (v', LegacyFilesPreserved (stem ++ ".md")) ->
  preserveLegacyFiles host settings (Some activeFile) v' = (v', NoLegacyFiles).
Proof.
  intros Hb Hkeeps Hrun.
  destruct (preserve_success_files _ _ _ _ _ _ Hrun) as (legacy & Hl & _ & Hall).
  apply preserve_success in Hrun
    as (legacy' & Hex & Hl' & _ & Hname & _ & _ & Hd).
  rewrite Hl in Hl'. injection Hl' as <-.
  apply preserve_nothing_selected.
  - unfold adapter_exists in *. now rewrite Hd.
  - apply filterFiles_none. intros g Hg. apply Hall in Hg as [-> | [Hg Hout]].
    + unfold isLegacyFile. rewrite (RegExp_test_plain host _ _ Hb).
      apply append_inv_tail in Hname. rewrite <- Hname, Hkeeps.
      cbn [basename markdown_at]. rewrite Hname.
      change (preservedName ?b ?t)
        with (recordName b (nth 0 t "undefined")
                         (nth (List.length t - 1) t "undefined")).
      rewrite record_is_no_snapshot. now rewrite andb_false_r.
    + apply (filterFiles_left_out _ _ _ Hl g Hg Hout).
Qed.

(** C9.  Every selected file is to have a timestamp in its name; with the
    owner [a|b] the filter selects the record of another document,
    [alpha_legacy_20240101090000-20240101100000], whose name has none, and
    the map gives it the timestamp [00000000000000]. *)
Theorem piped_owner_reaches_fallback_timestamp :
  legacyFiles plain_host "a|b" "legacy" shared_vault = Ok [alpha_record] /\
  exec timestampPattern (basename alpha_record) = None /\
  filesWithTimestamp DEFAULT_SETTINGS [alpha_record]
  = [(alpha_record, "00000000000000")].
Proof. vm_compute. repeat split; reflexivity. Qed.

(** C10.  The name of a consolidated record is to be rejected by the
    pattern of its owner, and a second run is to find nothing; with the
    owner [a|b] the pattern accepts the name of the record, and the second
    run selects the record of the first, writes it into a new record and
    deletes it. *)
Theorem piped_owner_consolidates_its_record :
  RegExp_test plain_host (patternSource "a|b")
              "a|b_legacy_20240101090000-20240101090000" = Ok true /\
  preserveLegacyFiles plain_host DEFAULT_SETTINGS (Some piped) piped_vault
  = (mkVault [(piped, "now");
              (note "legacy" "a|b_legacy_20240101090000-20240101090000",
               body "a|b" [("20240101090000", "then")])]
             ["legacy"] [],
     LegacyFilesPreserved "a|b_legacy_20240101090000-20240101090000.md") /\
  preserveLegacyFiles plain_host DEFAULT_SETTINGS (Some piped)
    (mkVault [(piped, "now");
              (note "legacy" "a|b_legacy_20240101090000-20240101090000",
               body "a|b" [("20240101090000", "then")])]
             ["legacy"] [])
  = (mkVault [(piped, "now");
              (note "legacy" "a|b_legacy_00000000000000-00000000000000",
               body "a|b" [("00000000000000",
                            body "a|b" [("20240101090000", "then")])])]
             ["legacy"] [],
     LegacyFilesPreserved "a|b_legacy_00000000000000-00000000000000.md").
Proof. vm_compute. repeat split; reflexivity. Qed.

(** ** The writer called twice within a second *)

(** C2, as stated, fails: a second call within the same second finds the
    name taken, reports the failure and adds no file. *)
Lemma second_snapshot_in_one_second_fails :
  createLegacyFile plain_host DEFAULT_SETTINGS (Some draft) nine_o_clock
                   fresh_vault
  = (snapshot_vault, LegacyFileCreated "draft_legacy_20240101090000.md") /\
  createLegacyFile plain_host DEFAULT_SETTINGS (Some draft) nine_o_clock
                   snapshot_vault
  = (snapshot_vault, LegacyFileFailed).
Proof. vm_compute. split; reflexivity. Qed.

(** ** The theorems at work on the examples *)

(** C1 on the consolidation of [draft_vault] in descending order. *)
Lemma consolidate_deletion_law_witness :
  preserveLegacyFiles plain_host descending (Some draft) draft_vault
  = (draft_consolidated,
     LegacyFilesPreserved "draft_legacy_20240101110000-20240101090000.md") /\
  exists legacy record,
    legacyFiles plain_host (basename draft)
                (normalizePath plain_host (legacyFolder descending))
                draft_vault = Ok legacy /\
    legacy <> [] /\
    (forall f, In f legacy -> ~ In f (getFiles draft_consolidated)) /\
    record
    = created_at plain_host
        (normalizePath plain_host (legacyFolder descending))
        "draft_legacy_20240101110000-20240101090000.md" /\
    (forall name',
        lacks "/" name' = true ->
        normalizePath plain_host
          (normalizePath plain_host (legacyFolder descending) ++ "/" ++
           "draft_legacy_20240101110000-20240101090000.md")
        = normalizePath plain_host (legacyFolder descending) ++ "/" ++ name' ->
        parent record
        = Some (normalizePath plain_host (legacyFolder descending))) /\
    (forall stem,
        "draft_legacy_20240101110000-20240101090000.md" = stem ++ ".md" ->
        keeps_name plain_host
                   (normalizePath plain_host (legacyFolder descending)) stem ->
        "draft_legacy_20240101110000-20240101090000.md"
        = basename record ++ "." ++ extension record) /\
    ~ In record (getFiles draft_vault) /\
    List.length (filter (fun e => TFile_eqb record (fst e))
                        (files draft_consolidated)) = 1 /\
    (forall g, In g (getFiles draft_consolidated) <->
               g = record \/ (In g (getFiles draft_vault) /\ ~ In g legacy)).
Proof.
  assert (Hrun : preserveLegacyFiles plain_host descending (Some draft) draft_vault
                 = (draft_consolidated,
                    LegacyFilesPreserved
                      "draft_legacy_20240101110000-20240101090000.md"))
    by (vm_compute; reflexivity).
  split; [exact Hrun|].
  exact (consolidate_deletion_law _ _ _ _ _ _ Hrun).
Defined.

(** C3 on the same run and on its loop. *)
Lemma consolidated_body_construction_witness :
  (readLoop "draft" 0 (filesWithTimestamp descending [draft10; draft09; draft11])
            "" [] draft_vault
   = (draft_vault,
      Ok (body "draft" draft_entries,
          ["20240101110000"; "20240101100000"; "20240101090000"])) /\
   preserveLegacyFiles plain_host descending (Some draft) draft_vault
   = (draft_consolidated,
      LegacyFilesPreserved "draft_legacy_20240101110000-20240101090000.md")) /\
  body "draft" draft_entries
  = body "draft"
         (entries_of draft_vault
            (filesWithTimestamp descending [draft10; draft09; draft11])) /\
  exists legacy,
    legacyFiles plain_host (basename draft)
                (normalizePath plain_host (legacyFolder descending))
                draft_vault = Ok legacy /\
    let sorted := filesWithTimestamp descending legacy in
    let record :=
      created_at plain_host (normalizePath plain_host (legacyFolder descending))
                  (preservedName (basename draft) (map snd sorted) ++ ".md") in
    lookup record (files draft_consolidated)
    = Some (body (basename draft) (entries_of draft_vault sorted)).
Proof.
  assert (Hloop : readLoop "draft" 0
                    (filesWithTimestamp descending [draft10; draft09; draft11])
                    "" [] draft_vault
                  = (draft_vault,
                     Ok (body "draft" draft_entries,
                         ["20240101110000"; "20240101100000"; "20240101090000"])))
    by (vm_compute; reflexivity).
  assert (Hrun : preserveLegacyFiles plain_host descending (Some draft) draft_vault
                 = (draft_consolidated,
                    LegacyFilesPreserved
                      "draft_legacy_20240101110000-20240101090000.md"))
    by (vm_compute; reflexivity).
  split; [auto|]. split.
  - exact (proj1 consolidated_body_construction _ _ _ _ _ _ Hloop).
  - exact (proj2 consolidated_body_construction _ _ _ _ _ _ Hrun).
Defined.

(** C5 on the consolidation of [marked_vault]: the first snapshot holds a
    line made of the marker alone, and no block holds the separator. *)
Lemma consolidated_body_round_trip_witness :
  preserveLegacyFiles plain_host DEFAULT_SETTINGS (Some draft) marked_vault
  = (fst (preserveLegacyFiles plain_host DEFAULT_SETTINGS (Some draft)
                              marked_vault),
     LegacyFilesPreserved "draft_legacy_20240101090000-20240101100000.md") /\
  List.length (JS.split separator (body "draft" marked_entries)) = 2 /\
  JS.split separator (body "draft" marked_entries)
  = map (block "draft") marked_entries.
Proof.
  assert (Hrun : preserveLegacyFiles plain_host DEFAULT_SETTINGS (Some draft)
                                     marked_vault
                 = (fst (preserveLegacyFiles plain_host DEFAULT_SETTINGS
                                             (Some draft) marked_vault),
                    LegacyFilesPreserved
                      "draft_legacy_20240101090000-20240101100000.md"))
    by (vm_compute; reflexivity).
  split; [exact Hrun|].
  destruct (consolidated_body_round_trip _ _ _ _ _ _ Hrun)
    as (legacy & consolidated & Hl & Hfile & _ & _ & _ & Hcount & Hsplit).
  assert (El : legacy = [draft10; draft09]).
  { vm_compute in Hl. injection Hl as <-. reflexivity. }
  subst legacy.
  assert (Ec : consolidated = body "draft" marked_entries).
  { vm_compute in Hfile. injection Hfile as <-. reflexivity. }
  subst consolidated.
  split.
  - apply Hcount. intros b [<- | [<- | []]]; reflexivity.
  - apply Hsplit; [|reflexivity]. intros b [<- | []]. reflexivity.
Defined.

(** C6 on [failing_vault]: the three reads are served and the creation
    is refused. *)
Lemma failed_creation_deletes_nothing_witness :
  (adapter_exists (normalizePath plain_host (legacyFolder descending))
                  failing_vault = true /\
   legacyFiles plain_host (basename draft)
               (normalizePath plain_host (legacyFolder descending))
               failing_vault = Ok [draft10; draft09; draft11] /\
   readLoop (basename draft) 0
            (filesWithTimestamp descending [draft10; draft09; draft11]) "" []
            failing_vault
   = (mkVault draft_files ["legacy"] [true],
      Ok (body "draft" draft_entries,
          ["20240101110000"; "20240101100000"; "20240101090000"])) /\
   create (normalizePath plain_host
             (normalizePath plain_host (legacyFolder descending) ++ "/" ++
              preservedName (basename draft)
                ["20240101110000"; "20240101100000"; "20240101090000"]
              ++ ".md"))
          (body "draft" draft_entries)
          (mkVault draft_files ["legacy"] [true])
   = (mkVault draft_files ["legacy"] [], Throw StorageFault)) /\
  preserveLegacyFiles plain_host descending (Some draft) failing_vault
  = (mkVault draft_files ["legacy"] [], PreserveFailed) /\
  files (mkVault draft_files ["legacy"] []) = files failing_vault.
Proof.
  assert (Hex : adapter_exists (normalizePath plain_host (legacyFolder descending))
                               failing_vault = true) by reflexivity.
  assert (Hl : legacyFiles plain_host (basename draft)
                           (normalizePath plain_host (legacyFolder descending))
                           failing_vault = Ok [draft10; draft09; draft11])
    by (vm_compute; reflexivity).
  assert (Hread : readLoop (basename draft) 0
                    (filesWithTimestamp descending [draft10; draft09; draft11])
                    "" [] failing_vault
                  = (mkVault draft_files ["legacy"] [true],
                     Ok (body "draft" draft_entries,
                         ["20240101110000"; "20240101100000"; "20240101090000"])))
    by (vm_compute; reflexivity).
  assert (Hcreate : create (normalizePath plain_host
                              (normalizePath plain_host (legacyFolder descending)
                               ++ "/" ++
                               preservedName (basename draft)
                                 ["20240101110000"; "20240101100000";
                                  "20240101090000"] ++ ".md"))
                           (body "draft" draft_entries)
                           (mkVault draft_files ["legacy"] [true])
                    = (mkVault draft_files ["legacy"] [], Throw StorageFault))
    by (vm_compute; reflexivity).
  split; [auto|].
  assert (Hne : [draft10; draft09; draft11] <> []) by discriminate.
  exact (failed_creation_deletes_nothing _ _ _ _ _ _ _ _ _ _
           Hex Hl Hne Hread Hcreate).
Defined.

(** C2, as amended, on the first snapshot of [served_vault] at 09:00:00:
    the folder is missing and the storage serves the three calls. *)
Lemma writeSnapshot_adds_one_entry_witness :
  (Date_in_range nine_o_clock /\
   (1000 <= getFullYear nine_o_clock <= 9999)%Z /\
   lookup draft (files served_vault) = Some "now" /\
   keeps_name plain_host
              (normalizePath plain_host (legacyFolder DEFAULT_SETTINGS))
              (storageName (basename draft) (fmt14 nine_o_clock)) /\
   lookup (markdown_at (normalizePath plain_host (legacyFolder DEFAULT_SETTINGS))
                       (storageName (basename draft) (fmt14 nine_o_clock)))
          (files served_vault) = None /\
   serves (if adapter_exists
                (normalizePath plain_host (legacyFolder DEFAULT_SETTINGS))
                served_vault
           then 2 else 3) served_vault) /\
  String.length (fmt14 nine_o_clock) = 14 /\
  JS.all_digits (fmt14 nine_o_clock) = true /\
  exists v',
    createLegacyFile plain_host DEFAULT_SETTINGS (Some draft) nine_o_clock
                     served_vault
    = (v', LegacyFileCreated
             (storageName (basename draft) (fmt14 nine_o_clock) ++ ".md")) /\
    files v'
    = (files served_vault ++
       [(markdown_at (normalizePath plain_host (legacyFolder DEFAULT_SETTINGS))
                     (storageName (basename draft) (fmt14 nine_o_clock)),
         "now")])%list.
Proof.
  assert (Hrange : Date_in_range nine_o_clock)
    by (unfold Date_in_range; simpl; lia).
  assert (Hyear : (1000 <= getFullYear nine_o_clock <= 9999)%Z)
    by (simpl; lia).
  assert (HD : lookup draft (files served_vault) = Some "now") by reflexivity.
  assert (Hkeeps : keeps_name plain_host
                     (normalizePath plain_host (legacyFolder DEFAULT_SETTINGS))
                     (storageName (basename draft) (fmt14 nine_o_clock)))
    by (vm_compute; reflexivity).
  assert (Hfresh : lookup (markdown_at
                             (normalizePath plain_host
                                (legacyFolder DEFAULT_SETTINGS))
                             (storageName (basename draft) (fmt14 nine_o_clock)))
                          (files served_vault) = None)
    by (vm_compute; reflexivity).
  assert (Hq : serves (if adapter_exists
                            (normalizePath plain_host
                               (legacyFolder DEFAULT_SETTINGS))
                            served_vault
                       then 2 else 3) served_vault).
  { intros b Hb. simpl in Hb. intuition. }
  split; [exact (conj Hrange (conj Hyear (conj HD
                   (conj Hkeeps (conj Hfresh Hq)))))|].
  exact (writeSnapshot_adds_one_entry _ _ _ _ _ _
           Hrange Hyear HD Hkeeps Hfresh Hq).
Defined.

(** ** The writer, whatever the storage does *)

Lemma createFolder_run (path : string) (v v' : vault) (r : result unit) :
  createFolder path v = (v', r) ->
  files v' = files v /\
  match r with
  | Ok _ => adapter_exists path v = false /\
            folders v' = (folders v ++ [path])%list
  | Throw _ => folders v' = folders v
  end.
Proof.
  intros H. vault_call H.
  - unfold adapter_exists in *. rewrite <- Hf, <- Hd.
    destruct (existsb (String.eqb path) (folders v0)) eqn:Hex;
      injection H as <- <-; auto.
  - injection H as <- <-. auto.
Qed.

Lemma adapter_exists_added (path : string) (l : list string) :
  existsb (String.eqb path) (l ++ [path])%list = true.
Proof.
  rewrite existsb_app. simpl. rewrite String.eqb_refl.
  apply orb_true_iff. right. reflexivity.
Qed.

Lemma snapshot_of_kept
      (host : Host) (settings : LegacyFilePluginSettings)
      (D : TFile) (T : Date) :
  keeps_name host (normalizePath host (legacyFolder settings))
             (storageName (basename D) (getTimestamp T)) ->
  snapshot_of host settings D T
  = markdown_at (normalizePath host (legacyFolder settings))
                (storageName (basename D) (getTimestamp T)).
Proof.
  unfold keeps_name, snapshot_of, storageName. intros <-.
  now rewrite !append_assoc.
Qed.

(** What any run of [createLegacyFile] on a document does to the vault. *)
Lemma createLegacyFile_run
      (host : Host) (settings : LegacyFilePluginSettings)
      (D : TFile) (T : Date) (v v' : vault) (n : Notice) :
  createLegacyFile host settings (Some D) T v = (v', n) ->
  let folder := normalizePath host (legacyFolder settings) in
  (folders v' = folders v \/
   (adapter_exists folder v = false /\
    folders v' = (folders v ++ [folder])%list)) /\
  ((n = LegacyFileFailed /\ files v' = files v) \/
   (exists content,
       n = LegacyFileCreated
             (basename D ++ "_legacy_" ++ getTimestamp T ++ ".md") /\
       lookup D (files v) = Some content /\
       lookup (snapshot_of host settings D T) (files v) = None /\
       files v' = (files v ++ [(snapshot_of host settings D T, content)])%list /\
       adapter_exists folder v' = true)).
Proof.
  unfold createLegacyFile, try_catch, snapshot_of, created_at. cbv zeta.
  set (folder := normalizePath host (legacyFolder settings)).
  set (path := normalizePath host (folder ++ _)).
  set (snapshot := file_of_path path).
  unfold bind at 1.
  destruct (read D v) as [v1 [content|e]] eqn:Hread.
  2:{ apply read_keeps in Hread as [Hf Hd]. intros [= <- <-]. auto. }
  pose proof (read_Ok _ _ _ _ Hread) as HD.
  apply read_keeps in Hread as [Hf1 Hd1].
  unfold bind at 1.
  assert (Hex1 : adapter_exists folder v1 = adapter_exists folder v)
    by (unfold adapter_exists; now rewrite Hd1).
  destruct (adapter_exists folder v1) eqn:Hex; simpl negb; cbv iota.
  - (* the folder is there *)
    unfold bind at 1.
    destruct (create path content v1) as [v2 [[]|e]] eqn:Hc.
    + apply create_Ok in Hc as (Hfresh & Hf2 & Hd2). fold snapshot in Hfresh, Hf2.
      unfold ret. intros [= <- <-]. split; [left; congruence|].
      right. exists content. repeat split; try congruence.
      unfold adapter_exists in *. now rewrite Hd2.
    + apply create_Throw in Hc as [Hf2 Hd2]. intros [= <- <-].
      split; [left; congruence | left; split; congruence].
  - (* the folder is made first *)
    destruct (createFolder folder v1) as [v2 [[]|e]] eqn:Hmk.
    + apply createFolder_run in Hmk as (Hf2 & _ & Hd2).
      unfold bind at 1.
      destruct (create path content v2) as [v3 [[]|e]] eqn:Hc.
      * apply create_Ok in Hc as (Hfresh & Hf3 & Hd3).
        fold snapshot in Hfresh, Hf3.
        unfold ret. intros [= <- <-].
        split; [right; split; [congruence | congruence]|].
        right. exists content. repeat split; try congruence.
        unfold adapter_exists. rewrite Hd3, Hd2. apply adapter_exists_added.
      * apply create_Throw in Hc as [Hf3 Hd3]. intros [= <- <-].
        split; [right; split; congruence | left; split; congruence].
    + apply createFolder_run in Hmk as (Hf2 & Hd2). intros [= <- <-].
      split; [left; congruence | left; split; congruence].
Qed.

(** X1.  A run of [createLegacyFile] on a document ends with one of its
    two notices and never deletes or overwrites a file: with the notice
    of failure the files are what they were, and with the notice of
    success the name shown is [{basename}_legacy_{timestamp}.md], the
    document was read, and the one file added, after the others, is the
    file the normalized path of line 108 names, which no file had before,
    with the document's content.  When the host makes the file under the
    name asked for, this file is [{basename}_legacy_{timestamp}.md] in
    the legacy folder. *)
Theorem writer_only_appends
        (host : Host) (settings : LegacyFilePluginSettings)
        (D : TFile) (T : Date) (v v' : vault) (n : Notice) :
  createLegacyFile host settings (Some D) T v = (v', n) ->
  (n = LegacyFileFailed /\ files v' = files v) \/
  (exists content,
      n = LegacyFileCreated
            (basename D ++ "_legacy_" ++ getTimestamp T ++ ".md") /\
      lookup D (files v) = Some content /\
      (keeps_name host (normalizePath host (legacyFolder settings))
                  (storageName (basename D) (getTimestamp T)) ->
       snapshot_of host settings D T
       = markdown_at (normalizePath host (legacyFolder settings))
                     (storageName (basename D) (getTimestamp T))) /\
      lookup (snapshot_of host settings D T) (files v) = None /\
      files v' = (files v ++ [(snapshot_of host settings D T, content)])%list).
Proof.
  intros Hrun. apply createLegacyFile_run in Hrun as [_ [Hfail | Hok]].
  - left. exact Hfail.
  - right. destruct Hok as (content & Hn & HD & Hfresh & Hfiles & _).
    exists content. repeat split; auto.
    apply snapshot_of_kept.
Qed.

(** X2.  [createLegacyFile] makes the legacy folder only when
    [adapter.exists] does not find it, and makes no other folder; after
    the notice of success the folder exists. *)
Theorem writer_makes_the_folder_once
        (host : Host) (settings : LegacyFilePluginSettings)
        (D : TFile) (T : Date) (v v' : vault) (n : Notice) :
  createLegacyFile host settings (Some D) T v = (v', n) ->
  let folder := normalizePath host (legacyFolder settings) in
  (adapter_exists folder v = true -> folders v' = folders v) /\
  (folders v' = folders v \/ folders v' = (folders v ++ [folder])%list) /\
  (forall name, n = LegacyFileCreated name -> adapter_exists folder v' = true).
Proof.
  intros Hrun folder.
  apply createLegacyFile_run in Hrun as [Hfolders Hfiles]. fold folder in Hfolders, Hfiles.
  repeat split.
  - intros Hex. destruct Hfolders as [H | [H _]]; [exact H | congruence].
  - destruct Hfolders as [H | [_ H]]; auto.
  - intros name ->. destruct Hfiles as [[H _] | (content & _ & _ & _ & _ & H)];
      [discriminate | exact H].
Qed.

(** ** The consolidator, whatever the storage does *)

Lemma delete_Throw (f : TFile) (v v' : vault) (e : error) :
  delete f v = (v', Throw e) -> files v' = files v /\ folders v' = folders v.
Proof.
  intros H. vault_call H.
  - destruct (lookup f (files v0)); [discriminate|]. injection H as <- _. auto.
  - injection H as <- _. auto.
Qed.

(** The loop of lines 207-209 deletes the files in order and stops at the
    first deletion that throws. *)
Lemma deleteLoop_run (sorted : list (TFile * string)) :
  forall v v' r,
    deleteLoop sorted v = (v', r) ->
    folders v' = folders v /\
    exists k,
      files v' = removeAll (firstn k sorted) (files v) /\
      match r with
      | Ok _ => k = List.length sorted
      | Throw _ => k < List.length sorted
      end.
Proof.
  induction sorted as [|[f t] sorted IH]; intros v v' r; simpl.
  - intros [= <- <-]. split; [reflexivity|]. exists 0. auto.
  - unfold bind at 1. destruct (delete f v) as [v1 [[]|e]] eqn:Hd.
    + apply delete_Ok in Hd as [Hf Hd]. intros H.
      apply IH in H as (Hfold & k & Hfiles & Hk).
      split; [congruence|]. exists (S k). simpl. rewrite <- Hf.
      split; [exact Hfiles|]. destruct r; lia.
    + apply delete_Throw in Hd as [Hf Hd]. intros [= <- <-].
      split; [exact Hd|]. exists 0. simpl. split; [exact Hf | lia].
Qed.

(** What any run of [preserveLegacyFiles] on a document does to the
    vault: nothing but a notice, or a failure before the record is
    created, or the record and the deletion of the first [k] selected
    files. *)
Lemma preserveLegacyFiles_run
      (host : Host) (settings : LegacyFilePluginSettings)
      (activeFile : TFile) (v v' : vault) (n : Notice) :
  preserveLegacyFiles host settings (Some activeFile) v = (v', n) ->
  let folder := normalizePath host (legacyFolder settings) in
  folders v' = folders v /\
  ((n = NoLegacyFolder /\ v' = v /\ adapter_exists folder v = false) \/
   (n = NoLegacyFiles /\ v' = v /\
    legacyFiles host (basename activeFile) folder v = Ok []) \/
   (n = PreserveFailed /\ files v' = files v) \/
   (exists legacy k,
       legacyFiles host (basename activeFile) folder v = Ok legacy /\
       legacy <> [] /\
       let sorted := filesWithTimestamp settings legacy in
       let stem := preservedName (basename activeFile) (map snd sorted) in
       let record := created_at host folder (stem ++ ".md") in
       lookup record (files v) = None /\
       files v'
       = removeAll (firstn k sorted)
                   (files v ++
                    [(record, body (basename activeFile) (entries_of v sorted))])%list /\
       ((n = PreserveFailed /\ k < List.length sorted) \/
        (n = LegacyFilesPreserved (stem ++ ".md") /\ k = List.length sorted)))).
Proof.
  unfold preserveLegacyFiles, try_catch. cbv zeta.
  set (folder := normalizePath host (legacyFolder settings)).
  destruct (adapter_exists folder v) eqn:Hex; simpl negb; cbv iota.
  2:{ intros [= <- <-]. split; [reflexivity|]. left. auto. }
  unfold bind at 1, lift.
  destruct (legacyFiles host (basename activeFile) folder v) as [legacy|e] eqn:Hl.
  2:{ intros [= <- <-]. split; [reflexivity|]. right. right. left. auto. }
  destruct legacy as [|f0 legacy0].
  { unfold ret. intros [= <- <-]. split; [reflexivity|]. right. left. auto. }
  set (legacy := f0 :: legacy0) in *.
  unfold bind at 1.
  destruct (readLoop _ 0 _ "" [] v) as [v1 [[pc tss]|e]] eqn:Hr.
  2:{ apply readLoop_keeps in Hr as [Hf Hd]. intros [= <- <-].
      split; [exact Hd|]. right. right. left. auto. }
  pose proof (readLoop_keeps _ _ _ _ _ _ _ _ Hr) as [Hf1 Hd1].
  apply readLoop_Ok in Hr as [-> ->]. simpl app.
  rewrite buildContent_body.
  unfold bind at 1.
  destruct (create _ _ v1) as [v2 [[]|e]] eqn:Hc.
  2:{ apply create_Throw in Hc as [Hf2 Hd2]. intros [= <- <-].
      split; [congruence|]. right. right. left. split; congruence. }
  apply create_Ok in Hc as (Hfresh & Hf2 & Hd2).
  unfold bind at 1.
  destruct (deleteLoop _ v2) as [v3 [[]|e]] eqn:Hdel;
    apply deleteLoop_run in Hdel as (Hd3 & k & Hf3 & Hk);
    unfold ret; intros [= <- <-]; (split; [congruence|]);
    right; right; right; exists legacy, k;
    (split; [reflexivity|]); (split; [discriminate|]); cbv zeta;
    (split; [rewrite <- Hf1; exact Hfresh|]);
    (split; [rewrite Hf3, Hf2, Hf1; reflexivity|]).
  - right. auto.
  - left. auto.
Qed.

(** ** The contents a record holds *)

Lemma strip_prefix_more (p a b t : string) :
  JS.strip_prefix p a = Some t -> JS.strip_prefix p (a ++ b) = Some (t ++ b).
Proof.
  revert a; induction p as [|c p IH]; intros a; simpl.
  - now intros [= ->].
  - destruct a as [|d a]; [discriminate|]. simpl.
    destruct (Ascii.eqb c d); [apply IH | discriminate].
Qed.

Lemma includes_here (p s : string) : JS.includes p (p ++ s) = true.
Proof.
  destruct (p ++ s) eqn:E; simpl; unfold JS.starts_with; rewrite <- E;
    now rewrite strip_prefix_app.
Qed.

Lemma includes_app_l (p a b : string) :
  JS.includes p a = true -> JS.includes p (a ++ b) = true.
Proof.
  induction a as [|c a IH]; simpl.
  - rewrite orb_false_r. unfold JS.starts_with.
    destruct (JS.strip_prefix p "") as [t|] eqn:E; [|discriminate].
    intros _. apply strip_prefix_inv in E.
    destruct p; [|discriminate]. destruct b; reflexivity.
  - intros H. apply orb_true_iff in H as [H | H].
    + apply orb_true_iff. left. unfold JS.starts_with in *.
      destruct (JS.strip_prefix p (String c a)) as [t|] eqn:E; [|discriminate].
      change (String c (a ++ b)) with (String c a ++ b).
      now rewrite (strip_prefix_more _ _ b _ E).
    + apply orb_true_iff. right. auto.
Qed.

Lemma includes_app_r (p a b : string) :
  JS.includes p b = true -> JS.includes p (a ++ b) = true.
Proof.
  intros H. induction a as [|c a IH]; [exact H|].
  simpl. apply orb_true_iff. right. exact IH.
Qed.

Lemma includes_block (base : string) (e : string * string) :
  JS.includes (snd e) (block base e) = true.
Proof.
  unfold block. apply includes_app_r, includes_app_r.
  rewrite <- (append_nil_r (snd e)) at 2. apply includes_here.
Qed.

Lemma includes_laterBlocks (base : string) (entries : list (string * string))
      (e : string * string) :
  In e entries -> JS.includes (snd e) (laterBlocks base entries) = true.
Proof.
  induction entries as [|e' entries IH]; [intros []|].
  intros [-> | Hin]; cbn [laterBlocks].
  - apply includes_app_r, includes_app_l, includes_block.
  - apply includes_app_r, includes_app_r, IH, Hin.
Qed.

Lemma includes_body (base : string) (entries : list (string * string))
      (e : string * string) :
  In e entries -> JS.includes (snd e) (body base entries) = true.
Proof.
  destruct entries as [|e' entries]; [intros []|].
  intros [-> | Hin]; cbn [body].
  - apply includes_app_l, includes_block.
  - apply includes_app_r, includes_laterBlocks, Hin.
Qed.

Lemma lookup_app_present (f : TFile) (l l' : list (TFile * string)) (c : string) :
  lookup f l = Some c -> lookup f (l ++ l')%list = Some c.
Proof.
  induction l as [|[g d] l IH]; simpl; [discriminate|].
  destruct (TFile_eqb f g); [auto | exact IH].
Qed.

Lemma In_map_firstn (A B : Type) (g : A -> B) (k : nat) (l : list A) (x : B) :
  In x (map g (firstn k l)) -> In x (map g l).
Proof.
  revert l; induction k as [|k IH]; intros [|y l]; simpl; try tauto.
  intros [-> | H]; auto.
Qed.

Lemma TFile_eq_dec (a b : TFile) : {a = b} + {a <> b}.
Proof.
  destruct (TFile_eqb a b) eqn:E.
  - left. now apply TFile_eqb_eq.
  - right. now apply TFile_eqb_neq.
Qed.

Lemma includes_content (base : string) (v : vault) (f : TFile) (c : string)
      (sorted : list (TFile * string)) :
  lookup f (files v) = Some c ->
  In f (map fst sorted) ->
  JS.includes c (body base (entries_of v sorted)) = true.
Proof.
  intros Hf Hin. apply in_map_iff in Hin as [e [E He]].
  assert (Hc : content_of v (fst e) = c)
    by (unfold content_of; now rewrite E, Hf).
  rewrite <- Hc.
  apply (includes_body base _ (snd e, content_of v (fst e))).
  unfold entries_of. apply in_map_iff. exists e. auto.
Qed.

(** A file is kept by a run, or selected and held by the record. *)
Lemma preserve_keeps_or_records
        (host : Host) (settings : LegacyFilePluginSettings)
        (activeFile : TFile) (v v' : vault) (n : Notice)
        (f : TFile) (content : string) :
  preserveLegacyFiles host settings (Some activeFile) v = (v', n) ->
  lookup f (files v) = Some content ->
  lookup f (files v') = Some content \/
  exists legacy consolidated,
    legacyFiles host (basename activeFile)
                (normalizePath host (legacyFolder settings)) v = Ok legacy /\
    In f legacy /\
    lookup (created_at host (normalizePath host (legacyFolder settings))
                        (preservedName (basename activeFile)
                           (map snd (filesWithTimestamp settings legacy)) ++ ".md"))
           (files v') = Some consolidated /\
    JS.includes content consolidated = true.
Proof.
  intros Hrun Hf.
  apply preserveLegacyFiles_run in Hrun as [_ Hcases].
  destruct Hcases as [(_ & -> & _) | [(_ & -> & _) | [(_ & Hfiles) |
                      (legacy & k & Hl & Hne & Hfresh & Hfiles & _)]]];
    try (left; congruence).
  cbv zeta in Hfresh, Hfiles.
  set (sorted := filesWithTimestamp settings legacy) in *.
  set (record := created_at _ _ _) in *.
  assert (Hnot : ~ In record (map fst sorted)).
  { intros Hin. apply In_sorted_files in Hin.
    apply (filterFiles_subset _ _ _ Hl) in Hin.
    apply lookup_None in Hfresh. auto. }
  destruct (in_dec TFile_eq_dec f (map fst (firstn k sorted))) as [Hdel | Hkept].
  - right. exists legacy, (body (basename activeFile) (entries_of v sorted)).
    apply In_map_firstn in Hdel.
    split; [exact Hl|]. split; [now apply In_sorted_files in Hdel|]. split.
    + rewrite Hfiles, lookup_removeAll_other.
      * now apply lookup_app_fresh.
      * intros Hin. apply Hnot, (In_map_firstn _ _ _ k), Hin.
    + now apply (includes_content _ _ f).
  - left. rewrite Hfiles, lookup_removeAll_other by exact Hkept.
    now apply lookup_app_present.
Qed.

(** X3.  [preserveLegacyFiles] loses no content, whatever notice it ends
    with and whatever the storage does: a file of the vault either is
    still there with its content, or it was selected by the filter and
    the record exists and holds that content.  No file is deleted before
    the record is created, and no file outside the selection is touched. *)
Theorem consolidator_loses_no_content
        (host : Host) (settings : LegacyFilePluginSettings)
        (activeFile : TFile) (v v' : vault) (n : Notice)
        (f : TFile) (content : string) :
  preserveLegacyFiles host settings (Some activeFile) v = (v', n) ->
  lookup f (files v) = Some content ->
  lookup f (files v') = Some content \/
  exists legacy consolidated,
    legacyFiles host (basename activeFile)
                (normalizePath host (legacyFolder settings)) v = Ok legacy /\
    In f legacy /\
    lookup (created_at host (normalizePath host (legacyFolder settings))
                        (preservedName (basename activeFile)
                           (map snd (filesWithTimestamp settings legacy)) ++ ".md"))
           (files v') = Some consolidated /\
    JS.includes content consolidated = true.
Proof. apply preserve_keeps_or_records. Qed.

(** X4.  A run of [preserveLegacyFiles] that ends with the notice of
    failure is not rolled back: either no file has changed, or the record
    has been created and the first [k] selected files, in sorted order,
    have been deleted, with [k] below their number. *)
Theorem consolidator_failure_is_not_rolled_back
        (host : Host) (settings : LegacyFilePluginSettings)
        (activeFile : TFile) (v v' : vault) :
  preserveLegacyFiles host settings (Some activeFile) v = (v', PreserveFailed) ->
  files v' = files v \/
  exists legacy k,
    legacyFiles host (basename activeFile)
                (normalizePath host (legacyFolder settings)) v = Ok legacy /\
    k < List.length legacy /\
    let sorted := filesWithTimestamp settings legacy in
    let record :=
      created_at host (normalizePath host (legacyFolder settings))
                  (preservedName (basename activeFile) (map snd sorted) ++ ".md") in
    lookup record (files v) = None /\
    files v'
    = removeAll (firstn k sorted)
                (files v ++
                 [(record, body (basename activeFile) (entries_of v sorted))])%list.
Proof.
  intros Hrun.
  apply preserveLegacyFiles_run in Hrun as [_ Hcases].
  destruct Hcases as [(Hn & _) | [(Hn & _) | [(_ & Hfiles) |
                      (legacy & k & Hl & Hne & Hfresh & Hfiles & Hk)]]];
    try discriminate; [left; exact Hfiles|].
  destruct Hk as [[_ Hk] | [Hn _]]; [|discriminate].
  right. exists legacy, k. split; [exact Hl|]. split.
  - unfold filesWithTimestamp in Hk.
    now rewrite length_sort, length_map in Hk.
  - split; assumption.
Qed.

(** X5.  [preserveLegacyFiles] never makes or removes a folder, and when
    [adapter.exists] does not find the legacy folder it only shows the
    notice of line 134: unlike [createLegacyFile] it does not make the
    folder, and the vault is what it was. *)
Theorem consolidator_leaves_the_folders
        (host : Host) (settings : LegacyFilePluginSettings)
        (activeFile : TFile) (v v' : vault) (n : Notice) :
  preserveLegacyFiles host settings (Some activeFile) v = (v', n) ->
  folders v' = folders v /\
  (adapter_exists (normalizePath host (legacyFolder settings)) v = false ->
   n = NoLegacyFolder /\ v' = v).
Proof.
  intros Hrun. split.
  - now apply preserveLegacyFiles_run in Hrun as [H _].
  - intros Hex. unfold preserveLegacyFiles, try_catch in Hrun.
    rewrite Hex in Hrun. simpl in Hrun. injection Hrun as <- <-. auto.
Qed.

(** ** The consolidator on a storage that does not fail *)

Lemma read_quiet (f : TFile) (v : vault) (c : string) :
  quiet v -> lookup f (files v) = Some c ->
  exists v1, read f v = (v1, Ok c) /\
             files v1 = files v /\ folders v1 = folders v /\ quiet v1.
Proof.
  intros Hq Hf. unfold read, bind.
  destruct (storage_quiet v Hq) as (v1 & -> & Hf1 & Hd1 & Hq1).
  rewrite Hf1, Hf. exists v1. auto.
Qed.

Lemma create_quiet (path d : string) (v : vault) :
  quiet v -> lookup (file_of_path path) (files v) = None ->
  exists v1, create path d v = (v1, Ok tt) /\
             files v1 = (files v ++ [(file_of_path path, d)])%list /\
             folders v1 = folders v /\ quiet v1.
Proof.
  intros Hq Hf. unfold create, bind.
  destruct (storage_quiet v Hq) as (v1 & -> & Hf1 & Hd1 & Hq1).
  cbv zeta. rewrite Hf1, Hf. eexists. split; [reflexivity|]. simpl. auto.
Qed.

Lemma delete_quiet (f : TFile) (v : vault) :
  quiet v -> lookup f (files v) <> None ->
  exists v1, delete f v = (v1, Ok tt) /\
             files v1 = remove f (files v) /\
             folders v1 = folders v /\ quiet v1.
Proof.
  intros Hq Hf. unfold delete, bind.
  destruct (storage_quiet v Hq) as (v1 & -> & Hf1 & Hd1 & Hq1).
  rewrite Hf1. destruct (lookup f (files v)); [|congruence].
  eexists. split; [reflexivity|]. simpl. auto.
Qed.

Lemma readLoop_quiet (baseName : string) (rest : list (TFile * string)) :
  forall i pc tss v,
    quiet v ->
    (forall f, In f (map fst rest) -> lookup f (files v) <> None) ->
    exists v1 pc' tss',
      readLoop baseName i rest pc tss v = (v1, Ok (pc', tss')) /\
      files v1 = files v /\ folders v1 = folders v /\ quiet v1.
Proof.
  induction rest as [|[f t] rest IH]; intros i pc tss v Hq Hall; simpl.
  - exists v, pc, tss. auto.
  - destruct (lookup f (files v)) as [c|] eqn:Hf;
      [|exfalso; apply (Hall f); simpl; auto].
    destruct (read_quiet f v c Hq Hf) as (v1 & Hr & Hf1 & Hd1 & Hq1).
    unfold bind. rewrite Hr.
    destruct (IH (S i) (appendFile baseName i pc t c) (tss ++ [t])%list v1 Hq1)
      as (v2 & pc' & tss' & Hloop & Hf2 & Hd2 & Hq2).
    { intros g Hg. rewrite Hf1. apply Hall. simpl. auto. }
    exists v2, pc', tss'. split; [exact Hloop|]. repeat split; congruence || assumption.
Qed.

Lemma deleteLoop_quiet (sorted : list (TFile * string)) :
  forall v,
    quiet v ->
    NoDup (map fst sorted) ->
    (forall f, In f (map fst sorted) -> lookup f (files v) <> None) ->
    exists v1, deleteLoop sorted v = (v1, Ok tt) /\ quiet v1.
Proof.
  induction sorted as [|[f t] sorted IH]; intros v Hq Hnd Hall; simpl.
  - exists v. auto.
  - inversion_clear Hnd as [|? ? Hnotin Hnd'].
    destruct (delete_quiet f v Hq) as (v1 & Hd & Hf1 & _ & Hq1).
    { apply Hall. simpl. auto. }
    unfold bind at 1. rewrite Hd.
    apply (IH v1 Hq1 Hnd').
    intros g Hg. rewrite Hf1, lookup_remove_other.
    + apply Hall. simpl. auto.
    + intros ->. exact (Hnotin Hg).
Qed.

Lemma filterFiles_NoDup (callback : TFile -> result bool) (l : list TFile) :
  NoDup l -> forall kept, filterFiles callback l = Ok kept -> NoDup kept.
Proof.
  induction 1 as [|x l Hx Hnd IH]; simpl; intros kept.
  - intros [= <-]. constructor.
  - destruct (callback x) as [keep|]; [|discriminate].
    destruct (filterFiles callback l) as [rest|] eqn:E; [|discriminate].
    intros [= <-]. specialize (IH rest eq_refl).
    destruct keep; [|exact IH]. constructor; [|exact IH].
    intros Hin. apply Hx. exact (filterFiles_subset _ _ _ E x Hin).
Qed.

Lemma Permutation_insert (A : Type) (comparefn : A -> A -> comparison)
      (x : A) (l : list A) :
  Permutation (JS.insert comparefn x l) (x :: l).
Proof.
  induction l as [|y l IH]; simpl; [reflexivity|].
  destruct (comparefn x y); try reflexivity.
  rewrite IH. apply perm_swap.
Qed.

Lemma Permutation_sort (A : Type) (comparefn : A -> A -> comparison)
      (l : list A) :
  Permutation (JS.sort comparefn l) l.
Proof.
  induction l as [|x l IH]; simpl; [reflexivity|].
  rewrite Permutation_insert. now constructor.
Qed.

Lemma map_fst_withTimestamp (legacy : list TFile) :
  map fst (map withTimestamp legacy) = legacy.
Proof.
  induction legacy as [|f legacy IH]; simpl; [reflexivity|].
  now rewrite fst_withTimestamp, IH.
Qed.

Lemma Permutation_sorted_files
      (settings : LegacyFilePluginSettings) (legacy : list TFile) :
  Permutation (map fst (filesWithTimestamp settings legacy)) legacy.
Proof.
  unfold filesWithTimestamp.
  rewrite (Permutation_map fst (Permutation_sort _ _ _)).
  now rewrite map_fst_withTimestamp.
Qed.

(** The consolidator on a storage that does not fail. *)
Lemma preserveLegacyFiles_quiet
        (host : Host) (settings : LegacyFilePluginSettings)
        (activeFile : TFile) (v : vault) (legacy : list TFile) :
  quiet v ->
  NoDup (getFiles v) ->
  adapter_exists (normalizePath host (legacyFolder settings)) v = true ->
  legacyFiles host (basename activeFile)
              (normalizePath host (legacyFolder settings)) v = Ok legacy ->
  legacy <> [] ->
  lookup (created_at host (normalizePath host (legacyFolder settings))
                      (preservedName (basename activeFile)
                         (map snd (filesWithTimestamp settings legacy)) ++ ".md"))
         (files v) = None ->
  exists v',
    preserveLegacyFiles host settings (Some activeFile) v
    = (v', LegacyFilesPreserved
             (preservedName (basename activeFile)
                (map snd (filesWithTimestamp settings legacy)) ++ ".md")).
Proof.
  intros Hq Hnd Hex Hl Hne Hfresh.
  unfold preserveLegacyFiles, try_catch. rewrite Hex. simpl negb. cbv iota.
  unfold bind at 1, lift. rewrite Hl.
  destruct legacy as [|f0 legacy0]; [congruence|].
  set (legacy := f0 :: legacy0) in *.
  set (sorted := filesWithTimestamp settings legacy) in *.
  assert (Hpresent : forall f, In f (map fst sorted) -> lookup f (files v) <> None).
  { intros f Hf. apply In_sorted_files in Hf.
    apply (filterFiles_subset _ _ _ Hl) in Hf.
    intros Hnone. apply lookup_None in Hnone. auto. }
  destruct (readLoop_quiet (basename activeFile) sorted 0 "" [] v Hq Hpresent)
    as (v1 & pc & tss & Hloop & Hf1 & Hd1 & Hq1).
  unfold bind at 1. rewrite Hloop.
  apply readLoop_Ok in Hloop as [-> ->]. simpl app.
  destruct (create_quiet
              (normalizePath host
                 (normalizePath host (legacyFolder settings) ++ "/" ++
                  preservedName (basename activeFile) (map snd sorted)
                  ++ ".md"))
              (buildContent (basename activeFile) 0 (entries_of v sorted) "")
              v1 Hq1)
    as (v2 & Hc & Hf2 & Hd2 & Hq2); [rewrite Hf1; exact Hfresh|].
  unfold bind at 1. rewrite Hc.
  destruct (deleteLoop_quiet sorted v2 Hq2) as (v3 & Hdel & _).
  - apply (Permutation_NoDup (l := legacy)).
    + symmetry. apply Permutation_sorted_files.
    + exact (filterFiles_NoDup _ _ Hnd _ Hl).
  - intros f Hf. rewrite Hf2, Hf1.
    specialize (Hpresent f Hf).
    destruct (lookup f (files v)) as [c|] eqn:E; [|congruence].
    now rewrite (lookup_app_present _ _ _ _ E).
  - unfold bind at 1. rewrite Hdel. exists v3. reflexivity.
Qed.

(** X6.  On a storage that does not fail, [preserveLegacyFiles] succeeds
    whenever there is something to consolidate: the legacy folder exists,
    the filter selects at least one file, no file has the path of the
    record, and no two files of the vault share a path.  The run then ends
    with the notice of success and the name of the record. *)
Theorem consolidator_succeeds_on_quiet_storage
        (host : Host) (settings : LegacyFilePluginSettings)
        (activeFile : TFile) (v : vault) (legacy : list TFile) :
  quiet v ->
  NoDup (getFiles v) ->
  adapter_exists (normalizePath host (legacyFolder settings)) v = true ->
  legacyFiles host (basename activeFile)
              (normalizePath host (legacyFolder settings)) v = Ok legacy ->
  legacy <> [] ->
  lookup (created_at host (normalizePath host (legacyFolder settings))
                      (preservedName (basename activeFile)
                         (map snd (filesWithTimestamp settings legacy)) ++ ".md"))
         (files v) = None ->
  exists v',
    preserveLegacyFiles host settings (Some activeFile) v
    = (v', LegacyFilesPreserved
             (preservedName (basename activeFile)
                (map snd (filesWithTimestamp settings legacy)) ++ ".md")).
Proof. apply preserveLegacyFiles_quiet. Qed.

(** ** The filter on a plain base name *)

Lemma strip_digits_all (d : string) :
  JS.all_digits d = true -> strip_digits (String.length d) d = Some "".
Proof.
  induction d as [|c d IH]; simpl; [reflexivity|].
  intros H. apply andb_true_iff in H as [Hc Hd]. now rewrite Hc, IH.
Qed.

Lemma snapshot_timestamp_storageName (baseName d : string) :
  String.length d = 14 -> JS.all_digits d = true ->
  snapshot_timestamp baseName (storageName baseName d) = Some d.
Proof.
  intros Hlen Hdig. unfold snapshot_timestamp, storageName.
  rewrite <- append_assoc, strip_prefix_app.
  rewrite <- Hlen, (strip_digits_all d Hdig). reflexivity.
Qed.

Lemma legacyFiles_plain (host : Host) (baseName folder : string) (l : list TFile) :
  plain_name baseName = true ->
  filterFiles (isLegacyFile host baseName folder) l
  = Ok (filter (fun f => String.eqb (fileFolder host f) folder
                         && is_snapshot_of baseName f) l).
Proof.
  intros Hb. induction l as [|f l IH]; [reflexivity|].
  cbn [filterFiles filter]. rewrite IH.
  unfold isLegacyFile at 1. rewrite (RegExp_test_plain host _ _ Hb).
  reflexivity.
Qed.

(** X7.  With a base name that has no pattern syntax character, the filter
    of lines 143-153 does not throw and selects, in the order of
    [getFiles], exactly the files whose parent folder is the legacy folder
    and whose base name is the owner's base name, [_legacy_] and fourteen
    digits; the extension of the file plays no part. *)
Theorem plain_filter_selects_the_snapshots
        (host : Host) (baseName folder : string) (v : vault) :
  plain_name baseName = true ->
  legacyFiles host baseName folder v
  = Ok (filter (fun f => String.eqb (fileFolder host f) folder
                         && is_snapshot_of baseName f) (getFiles v)) /\
  forall f,
    In f (filter (fun f => String.eqb (fileFolder host f) folder
                           && is_snapshot_of baseName f) (getFiles v)) <->
    In f (getFiles v) /\ fileFolder host f = folder /\
    exists d, basename f = storageName baseName d /\
              String.length d = 14 /\ JS.all_digits d = true.
Proof.
  intros Hb. split; [now apply legacyFiles_plain|].
  intros f. rewrite filter_In, andb_true_iff, String.eqb_eq.
  unfold is_snapshot_of. split.
  - intros (Hin & Hfolder & Hsnap). repeat split; auto.
    destruct (snapshot_timestamp baseName (basename f)) as [d|] eqn:E;
      [|discriminate].
    apply snapshot_timestamp_name in E as [Hname Hd].
    apply strip_digits_end in Hd as [Hlen Hdig]. exists d. auto.
  - intros (Hin & Hfolder & d & Hname & Hlen & Hdig). repeat split; auto.
    now rewrite Hname, (snapshot_timestamp_storageName _ _ Hlen Hdig).
Qed.

(** ** The order of the selected files *)

Lemma compare_Lt_trans (a : string) :
  forall b c, (a ?= b)%string = Lt -> (b ?= c)%string = Lt ->
              (a ?= c)%string = Lt.
Proof.
  induction a as [|x a IH]; intros [|y b] [|z c]; simpl; try discriminate;
    try reflexivity.
  unfold Ascii.compare.
  destruct (N.compare_spec (N_of_ascii x) (N_of_ascii y)) as [Exy|Lxy|Gxy];
    destruct (N.compare_spec (N_of_ascii y) (N_of_ascii z)) as [Eyz|Lyz|Gyz];
    try discriminate; intros Hab Hbc.
  - rewrite Exy, Eyz, N.compare_refl. eauto.
  - rewrite Exy. now rewrite (proj2 (N.compare_lt_iff _ _) Lyz).
  - rewrite <- Eyz. now rewrite (proj2 (N.compare_lt_iff _ _) Lxy).
  - assert (L : (N_of_ascii x < N_of_ascii z)%N) by lia.
    now rewrite (proj2 (N.compare_lt_iff _ _) L).
Qed.

Lemma leb_compare (a b : string) :
  (a <=? b)%string = true <-> (a ?= b)%string = Lt \/ a = b.
Proof.
  unfold String.leb. destruct (a ?= b)%string eqn:E.
  - apply String.compare_eq_iff in E. tauto.
  - tauto.
  - split; [discriminate|]. intros [H | ->]; [discriminate H|].
    exfalso. pose proof (String.compare_antisym b b) as Hanti.
    rewrite E in Hanti. discriminate Hanti.
Qed.

Lemma leb_trans (a b c : string) :
  (a <=? b)%string = true -> (b <=? c)%string = true -> (a <=? c)%string = true.
Proof.
  rewrite !leb_compare. intros [Hab | ->] [Hbc | ->]; auto.
  left. eapply compare_Lt_trans; eauto.
Qed.

Lemma not_Gt_leb (a b : string) :
  (a ?= b)%string <> Gt <-> (a <=? b)%string = true.
Proof. unfold String.leb. destruct (a ?= b)%string; split; congruence. Qed.

Lemma Gt_leb (a b : string) :
  (a ?= b)%string = Gt -> (b <=? a)%string = true.
Proof.
  intros H. unfold String.leb. rewrite String.compare_antisym, H. reflexivity.
Qed.

Lemma in_order_trans (settings : LegacyFilePluginSettings)
      (a b c : TFile * string) :
  in_order settings a b -> in_order settings b c -> in_order settings a c.
Proof.
  unfold in_order. destruct (sortOrder settings); intros H1 H2;
    eapply leb_trans; eauto.
Qed.

Lemma compareTimestamps_in_order (settings : LegacyFilePluginSettings)
      (a b : TFile * string) :
  (compareTimestamps settings a b <> Gt -> in_order settings a b) /\
  (compareTimestamps settings a b = Gt -> in_order settings b a).
Proof.
  unfold compareTimestamps, in_order, JS.localeCompare.
  destruct (sortOrder settings); split;
    try (apply not_Gt_leb); apply Gt_leb.
Qed.

Lemma insert_in_order (settings : LegacyFilePluginSettings)
      (x : TFile * string) (l : list (TFile * string)) :
  StronglySorted (in_order settings) l ->
  StronglySorted (in_order settings) (JS.insert (compareTimestamps settings) x l).
Proof.
  induction 1 as [|y l Hl IH Hy]; simpl.
  - constructor; constructor.
  - destruct (compareTimestamps settings x y) eqn:E.
    + assert (Hxy : in_order settings x y)
        by (apply (proj1 (compareTimestamps_in_order settings x y)); rewrite E; discriminate).
      constructor; [now constructor|]. constructor; [exact Hxy|].
      eapply Forall_impl; [|exact Hy]. intros z. now apply in_order_trans.
    + assert (Hxy : in_order settings x y)
        by (apply (proj1 (compareTimestamps_in_order settings x y)); rewrite E; discriminate).
      constructor; [now constructor|]. constructor; [exact Hxy|].
      eapply Forall_impl; [|exact Hy]. intros z. now apply in_order_trans.
    + assert (Hyx : in_order settings y x)
        by (exact (proj2 (compareTimestamps_in_order settings x y) E)).
      constructor; [exact IH|].
      apply Forall_forall. intros z Hz. apply In_insert in Hz as [-> | Hz];
        [exact Hyx|]. rewrite Forall_forall in Hy. auto.
Qed.

Lemma selected_files_ordered_aux
      (settings : LegacyFilePluginSettings) (legacy : list TFile) :
  StronglySorted (in_order settings) (filesWithTimestamp settings legacy).
Proof.
  unfold filesWithTimestamp.
  induction (map withTimestamp legacy) as [|x l IH]; simpl.
  - constructor.
  - now apply insert_in_order.
Qed.

(** X8.  The sort of lines 169-175 rearranges the selected files without
    adding or dropping one, and leaves them ordered by timestamp: under
    [asc] every file has a timestamp at most that of every later file,
    under [desc] at least. *)
Theorem selected_files_are_ordered
        (settings : LegacyFilePluginSettings) (legacy : list TFile) :
  Permutation (map fst (filesWithTimestamp settings legacy)) legacy /\
  StronglySorted (in_order settings) (filesWithTimestamp settings legacy).
Proof.
  split; [apply Permutation_sorted_files | apply selected_files_ordered_aux].
Qed.

(** ** Timestamps and time *)

Lemma compare_refl (s : string) : (s ?= s)%string = Eq.
Proof.
  pose proof (String.compare_antisym s s) as H.
  destruct (s ?= s)%string; try reflexivity; discriminate H.
Qed.

Lemma compare_append (a a' b b' : string) :
  String.length a = String.length a' ->
  (a ++ b ?= a' ++ b')%string = and_then (a ?= a')%string (b ?= b')%string.
Proof.
  revert a'; induction a as [|x a IH]; intros [|y a']; simpl;
    try discriminate; [reflexivity|].
  intros [= Hlen]. destruct (Ascii.compare x y); try reflexivity.
  now apply IH.
Qed.

(** A function into strings that grows at every step grows, and compares
    as its arguments do. *)
Lemma compare_of_steps (f : Z -> string) (lo hi : Z) :
  (forall z, (lo <= z < hi)%Z -> (f z ?= f (z + 1)%Z)%string = Lt) ->
  forall a b, (lo <= a <= hi)%Z -> (lo <= b <= hi)%Z ->
              (f a ?= f b)%string = (a ?= b)%Z.
Proof.
  intros Hstep.
  assert (Hlt : forall n a, (lo <= a)%Z -> (a + Z.of_nat (S n) <= hi)%Z ->
                            (f a ?= f (a + Z.of_nat (S n))%Z)%string = Lt).
  { induction n as [|n IH]; intros a Ha Hb.
    - apply Hstep. lia.
    - apply (compare_Lt_trans _ (f (a + Z.of_nat (S n))%Z)).
      + apply IH; lia.
      + replace (a + Z.of_nat (S (S n)))%Z with (a + Z.of_nat (S n) + 1)%Z by lia.
        apply Hstep. lia. }
  intros a b Ha Hb. destruct (Z.compare_spec a b) as [-> | Hab | Hab].
  - apply compare_refl.
  - replace b with (a + Z.of_nat (S (Z.to_nat (b - a - 1))))%Z by lia.
    apply Hlt; lia.
  - rewrite String.compare_antisym.
    assert (H : (f b ?= f a)%string = Lt).
    { replace a with (b + Z.of_nat (S (Z.to_nat (a - b - 1))))%Z by lia.
      apply Hlt; lia. }
    now rewrite H.
Qed.

Lemma compare_two_digits (a b : Z) :
  (0 <= a <= 99)%Z -> (0 <= b <= 99)%Z ->
  (zero_padded 2 a ?= zero_padded 2 b)%string = (a ?= b)%Z.
Proof.
  apply (compare_of_steps (zero_padded 2) 0 99).
  intros z Hz.
  pose proof (checked_on_range (before_next 2) 0 99 eq_refl z ltac:(lia)) as H.
  unfold before_next in H.
  destruct (zero_padded 2 z ?= zero_padded 2 (z + 1))%string;
    [discriminate | reflexivity | discriminate].
Qed.

Lemma compare_years (a b : Z) :
  (1000 <= a <= 9999)%Z -> (1000 <= b <= 9999)%Z ->
  (JS.Number_toString a ?= JS.Number_toString b)%string = (a ?= b)%Z.
Proof.
  apply (compare_of_steps JS.Number_toString 1000 9999).
  intros z Hz.
  assert (H : before_next 4 z = true).
  { apply (checked_on_range (before_next 4) 1000 (Z.to_nat 8999)); [|lia].
    vm_compute. reflexivity. }
  unfold before_next in H.
  pose proof (four_digits_year z ltac:(lia)) as Hz4.
  pose proof (four_digits_year (z + 1) ltac:(lia)) as Hz4'.
  unfold four_digits in Hz4, Hz4'.
  apply andb_true_iff in Hz4 as [Hz4 _]. apply andb_true_iff in Hz4 as [Hz4 _].
  apply andb_true_iff in Hz4' as [Hz4' _]. apply andb_true_iff in Hz4' as [Hz4' _].
  apply String.eqb_eq in Hz4, Hz4'. rewrite Hz4, Hz4'.
  destruct (zero_padded 4 z ?= zero_padded 4 (z + 1))%string;
    [discriminate | reflexivity | discriminate].
Qed.

Lemma two_digits_length (z : Z) :
  (0 <= z <= 99)%Z -> String.length (zero_padded 2 z) = 2.
Proof.
  intros Hz. pose proof (two_digits_below_100 z ltac:(lia)) as H.
  unfold two_digits in H. apply andb_true_iff in H as [H _].
  now apply Nat.eqb_eq in H.
Qed.

Lemma year_length (z : Z) :
  (1000 <= z <= 9999)%Z -> String.length (JS.Number_toString z) = 4.
Proof.
  intros Hz. pose proof (four_digits_year z Hz) as H.
  unfold four_digits in H.
  apply andb_true_iff in H as [H _]. apply andb_true_iff in H as [E H].
  apply String.eqb_eq in E. apply Nat.eqb_eq in H. congruence.
Qed.

Lemma and_then_Eq (a b : comparison) :
  and_then a b = Eq -> a = Eq /\ b = Eq.
Proof. destruct a; simpl; auto; discriminate. Qed.

(** X9.  Timestamps compare as the times they are made of: for two dates
    with years of four digits, [localeCompare] on the strings of
    [getTimestamp] gives the comparison of the dates field by field, from
    the year down to the second.  So the sort of [preserveLegacyFiles] is
    chronological on such timestamps, and two dates that differ in some
    field get different timestamps. *)
Theorem timestamps_compare_as_dates (T1 T2 : Date) :
  Date_in_range T1 -> Date_in_range T2 ->
  (1000 <= getFullYear T1 <= 9999)%Z ->
  (1000 <= getFullYear T2 <= 9999)%Z ->
  JS.localeCompare (getTimestamp T1) (getTimestamp T2) = chronological T1 T2 /\
  (getTimestamp T1 = getTimestamp T2 -> T1 = T2).
Proof.
  intros (Hmo1 & Hd1 & Hh1 & Hmi1 & Hs1) (Hmo2 & Hd2 & Hh2 & Hmi2 & Hs2) Hy1 Hy2.
  assert (Hcmp : JS.localeCompare (getTimestamp T1) (getTimestamp T2)
                 = chronological T1 T2).
  { unfold JS.localeCompare, getTimestamp, chronological.
    fold (zero_padded 2 (getMonth T1 + 1)). fold (zero_padded 2 (getMonth T2 + 1)).
    fold (zero_padded 2 (getDate T1)). fold (zero_padded 2 (getDate T2)).
    fold (zero_padded 2 (getHours T1)). fold (zero_padded 2 (getHours T2)).
    fold (zero_padded 2 (getMinutes T1)). fold (zero_padded 2 (getMinutes T2)).
    fold (zero_padded 2 (getSeconds T1)). fold (zero_padded 2 (getSeconds T2)).
    rewrite compare_append by (rewrite !year_length; lia).
    rewrite compare_years by lia.
    rewrite !compare_append by (rewrite !two_digits_length; lia).
    rewrite !compare_two_digits by lia.
    rewrite (Z.add_comm (getMonth T1) 1), (Z.add_comm (getMonth T2) 1).
    now rewrite Z.add_compare_mono_l. }
  split; [exact Hcmp|].
  intros E. unfold JS.localeCompare in Hcmp.
  rewrite E, compare_refl in Hcmp. symmetry in Hcmp.
  unfold chronological in Hcmp.
  repeat match goal with
         | H : and_then _ _ = Eq |- _ => apply and_then_Eq in H as [? H]
         end.
  repeat match goal with
         | H : (_ ?= _)%Z = Eq |- _ => apply Z.compare_eq in H
         end.
  destruct T1, T2; simpl in *. congruence.
Qed.

(** ** From the writer to the consolidator *)

Lemma quiet_same_faults (v v' : vault) :
  faults v' = faults v -> quiet v -> quiet v'.
Proof. unfold quiet. now intros ->. Qed.

Lemma createFolder_quiet (path : string) (v : vault) :
  quiet v -> adapter_exists path v = false ->
  exists v1, createFolder path v = (v1, Ok tt) /\
             files v1 = files v /\
             folders v1 = (folders v ++ [path])%list /\ quiet v1.
Proof.
  intros Hq Hex. unfold createFolder, bind.
  destruct (storage_quiet v Hq) as (v1 & -> & Hf1 & Hd1 & Hq1).
  unfold adapter_exists in *. rewrite Hd1, Hex.
  eexists. split; [reflexivity|]. simpl. repeat split; auto.
Qed.

(** The writer on a storage that does not fail. *)
Lemma createLegacyFile_quiet
      (host : Host) (settings : LegacyFilePluginSettings)
      (D : TFile) (T : Date) (v : vault) (content : string) :
  quiet v ->
  lookup D (files v) = Some content ->
  lookup (snapshot_of host settings D T) (files v) = None ->
  exists v',
    createLegacyFile host settings (Some D) T v
    = (v', LegacyFileCreated
             (basename D ++ "_legacy_" ++ getTimestamp T ++ ".md")) /\
    files v' = (files v ++ [(snapshot_of host settings D T, content)])%list /\
    adapter_exists (normalizePath host (legacyFolder settings)) v' = true /\
    quiet v'.
Proof.
  intros Hq HD Hfresh.
  unfold createLegacyFile, try_catch, snapshot_of, created_at in *.
  set (folder := normalizePath host (legacyFolder settings)) in *.
  set (path := normalizePath host (folder ++ _)) in *.
  destruct (read_quiet D v content Hq HD) as (v1 & Hr & Hf1 & Hd1 & Hq1).
  unfold bind at 1. rewrite Hr. unfold bind at 1.
  assert (Hfolder : exists v2,
             (if negb (adapter_exists folder v1)
              then createFolder folder v1 else (v1, Ok tt)) = (v2, Ok tt) /\
             files v2 = files v /\ adapter_exists folder v2 = true /\ quiet v2).
  { destruct (adapter_exists folder v1) eqn:Hex; simpl.
    - exists v1. auto.
    - destruct (createFolder_quiet folder v1 Hq1 Hex)
        as (v2 & Hmk & Hf2 & Hd2 & Hq2).
      exists v2. repeat split; auto; [congruence|].
      unfold adapter_exists. rewrite Hd2. apply adapter_exists_added. }
  destruct Hfolder as (v2 & -> & Hf2 & Hex2 & Hq2).
  destruct (create_quiet path content v2 Hq2)
    as (v3 & Hc & Hf3 & Hd3 & Hq3); [now rewrite Hf2|].
  unfold bind at 1. rewrite Hc. exists v3.
  split; [reflexivity|]. split; [congruence|]. split; [|exact Hq3].
  unfold adapter_exists in *. now rewrite Hd3.
Qed.

Lemma snapshot_is_a_snapshot
      (host : Host) (settings : LegacyFilePluginSettings) (D : TFile) (T : Date) :
  Date_in_range T -> (1000 <= getFullYear T <= 9999)%Z ->
  keeps_name host (normalizePath host (legacyFolder settings))
             (storageName (basename D) (getTimestamp T)) ->
  snapshot_timestamp (basename D) (basename (snapshot_of host settings D T))
  = Some (getTimestamp T).
Proof.
  intros Hrange Hyear Hk. rewrite (snapshot_of_kept _ _ _ _ Hk).
  destruct (getTimestamp_fmt14 T Hrange Hyear) as (Hts & Hlen & Hdig).
  rewrite <- Hts in Hlen, Hdig.
  exact (snapshot_timestamp_storageName (basename D) _ Hlen Hdig).
Qed.

(** The file the writer has made is one the filter selects. *)
Lemma snapshot_selected
      (host : Host) (settings : LegacyFilePluginSettings)
      (D : TFile) (T : Date) (v' : vault) :
  plain_name (basename D) = true ->
  Date_in_range T -> (1000 <= getFullYear T <= 9999)%Z ->
  normalizePath host (normalizePath host (legacyFolder settings))
  = normalizePath host (legacyFolder settings) ->
  keeps_name host (normalizePath host (legacyFolder settings))
             (storageName (basename D) (getTimestamp T)) ->
  In (snapshot_of host settings D T) (getFiles v') ->
  exists legacy,
    legacyFiles host (basename D) (normalizePath host (legacyFolder settings)) v'
    = Ok legacy /\
    In (snapshot_of host settings D T) legacy /\
    withTimestamp (snapshot_of host settings D T)
    = (snapshot_of host settings D T, getTimestamp T).
Proof.
  intros Hb Hrange Hyear Hidem Hk Hin.
  pose proof (snapshot_is_a_snapshot host settings D T Hrange Hyear Hk) as Hs.
  eexists. split; [apply legacyFiles_plain, Hb|]. split.
  - apply filter_In. split; [exact Hin|].
    unfold is_snapshot_of. rewrite Hs, andb_true_r.
    apply String.eqb_eq. rewrite (snapshot_of_kept _ _ _ _ Hk). exact Hidem.
  - exact (withTimestamp_snapshot _ _ _ Hs).
Qed.

(** X10.  The writer and the consolidator agree on the names: with a
    plain base name, a year of four digits, a [normalizePath] that leaves
    the normalized folder path as it is, and a host that makes the
    snapshot under the name asked for, the file a successful
    [createLegacyFile] has made is selected by the filter of
    [preserveLegacyFiles] for the same document, and the timestamp read
    off its name is the one [getTimestamp] gave. *)
Theorem snapshot_is_found_by_the_consolidator
        (host : Host) (settings : LegacyFilePluginSettings)
        (D : TFile) (T : Date) (v v' : vault) (name : string) :
  plain_name (basename D) = true ->
  Date_in_range T -> (1000 <= getFullYear T <= 9999)%Z ->
  normalizePath host (normalizePath host (legacyFolder settings))
  = normalizePath host (legacyFolder settings) ->
  keeps_name host (normalizePath host (legacyFolder settings))
             (storageName (basename D) (getTimestamp T)) ->
  createLegacyFile host settings (Some D) T v = (v', LegacyFileCreated name) ->
  adapter_exists (normalizePath host (legacyFolder settings)) v' = true /\
  exists legacy,
    legacyFiles host (basename D) (normalizePath host (legacyFolder settings)) v'
    = Ok legacy /\
    In (snapshot_of host settings D T) legacy /\
    withTimestamp (snapshot_of host settings D T)
    = (snapshot_of host settings D T, getTimestamp T).
Proof.
  intros Hb Hrange Hyear Hidem Hk Hrun.
  apply createLegacyFile_run in Hrun as [_ [[Hn _] | Hok]]; [discriminate|].
  destruct Hok as (content & _ & _ & _ & Hfiles & Hex).
  split; [exact Hex|].
  apply snapshot_selected; auto.
  unfold getFiles. rewrite Hfiles, map_app, in_app_iff. right. now left.
Qed.

Lemma strip_prefix_longer (b p : string) :
  p <> "" -> JS.strip_prefix (b ++ p) b = None.
Proof.
  intros Hp. induction b as [|c b IH]; simpl.
  - destruct p; [congruence | reflexivity].
  - now rewrite Ascii.eqb_refl.
Qed.

Lemma owner_is_no_snapshot (baseName : string) :
  snapshot_timestamp baseName baseName = None.
Proof.
  unfold snapshot_timestamp. now rewrite strip_prefix_longer by discriminate.
Qed.

Lemma append_inv_head (a b c : string) : a ++ b = a ++ c -> b = c.
Proof.
  induction a as [|x a IH]; simpl; [auto|]. intros [= H]. auto.
Qed.

Lemma snapshot_is_no_record
      (baseName d s e : string) :
  JS.all_digits d = true -> storageName baseName d <> recordName baseName s e.
Proof.
  unfold storageName, recordName. intros Hd E.
  apply append_inv_head in E. apply (append_inv_head "_legacy_") in E.
  rewrite E, all_digits_dash in Hd. discriminate.
Qed.

Lemma lookup_app_other (f g : TFile) (l : list (TFile * string)) (c : string) :
  f <> g -> lookup f (l ++ [(g, c)])%list = lookup f l.
Proof.
  intros Hne. induction l as [|[h d] l IH]; simpl.
  - apply TFile_eqb_neq in Hne. now rewrite Hne.
  - now rewrite IH.
Qed.

Lemma digits_lack_slash (s : string) :
  JS.all_digits s = true -> lacks "/" s = true.
Proof.
  induction s as [|c s IH]; simpl; [reflexivity|].
  intros H. apply andb_true_iff in H as [Hc Hs]. rewrite (IH Hs), andb_true_r.
  destruct (Ascii.eqb_spec c "/") as [-> | _]; [discriminate | reflexivity].
Qed.

(** With a plain base name the timestamps of the sorted files are
    digits. *)
Lemma sorted_timestamps_are_digits
      (host : Host) (settings : LegacyFilePluginSettings)
      (baseName folder : string) (v : vault) (legacy : list TFile) :
  plain_name baseName = true ->
  legacyFiles host baseName folder v = Ok legacy ->
  forall t, In t (map snd (filesWithTimestamp settings legacy)) ->
            JS.all_digits t = true.
Proof.
  intros Hb Hl t Ht. apply in_map_iff in Ht as [e [<- He]].
  unfold filesWithTimestamp in He.
  apply In_sort, in_map_iff in He as [f [<- Hf]].
  destruct (plain_selection_has_timestamps host _ _ _ _ Hb Hl f Hf)
    as (d & _ & _ & Hd & ->).
  exact Hd.
Qed.

(** X11.  A snapshot and then a consolidation.  For a document with a
    plain base name and a call time with a year of four digits, on a host
    whose [normalizePath] leaves the normalized folder path as it is and
    that makes the snapshot and the records of the document under the
    names asked for, on a storage that does not fail, in a vault whose
    files have distinct paths and that holds neither the snapshot to come
    nor a record of the document: [createLegacyFile] succeeds,
    [preserveLegacyFiles] run next succeeds, the snapshot is gone, the
    record lies in the legacy folder and holds the content the document
    had, and the document itself is as it was. *)
Theorem snapshot_then_consolidation
        (host : Host) (settings : LegacyFilePluginSettings)
        (D : TFile) (T : Date) (v : vault) (content : string) :
  plain_name (basename D) = true ->
  Date_in_range T -> (1000 <= getFullYear T <= 9999)%Z ->
  normalizePath host (normalizePath host (legacyFolder settings))
  = normalizePath host (legacyFolder settings) ->
  keeps_name host (normalizePath host (legacyFolder settings))
             (storageName (basename D) (getTimestamp T)) ->
  (forall s e,
      JS.all_digits s = true -> JS.all_digits e = true ->
      keeps_name host (normalizePath host (legacyFolder settings))
                 (recordName (basename D) s e)) ->
  quiet v ->
  NoDup (getFiles v) ->
  lookup D (files v) = Some content ->
  lookup (snapshot_of host settings D T) (files v) = None ->
  (forall s e,
      lookup (markdown_at (normalizePath host (legacyFolder settings))
                          (recordName (basename D) s e)) (files v) = None) ->
  exists v1 v2 record consolidated,
    createLegacyFile host settings (Some D) T v
    = (v1, LegacyFileCreated
             (basename D ++ "_legacy_" ++ getTimestamp T ++ ".md")) /\
    preserveLegacyFiles host settings (Some D) v1
    = (v2, LegacyFilesPreserved (basename record ++ ".md")) /\
    ~ In (snapshot_of host settings D T) (getFiles v2) /\
    parent record = Some (normalizePath host (legacyFolder settings)) /\
    lookup record (files v2) = Some consolidated /\
    JS.includes content consolidated = true /\
    lookup D (files v2) = Some content.
Proof.
  intros Hb Hrange Hyear Hidem Hksnap Hkrec Hq Hnd HD Hfresh Hrecords.
  pose proof (snapshot_of_kept _ _ _ _ Hksnap) as Esnap.
  set (folder := normalizePath host (legacyFolder settings)) in *.
  set (snapshot := snapshot_of host settings D T) in *.
  destruct (createLegacyFile_quiet host settings D T v content Hq HD Hfresh)
    as (v1 & Hwrite & Hf1 & Hex1 & Hq1).
  fold snapshot in Hf1. fold folder in Hex1.
  assert (Hin1 : In snapshot (getFiles v1)).
  { unfold getFiles. rewrite Hf1, map_app, in_app_iff. right. now left. }
  destruct (snapshot_selected host settings D T v1
              Hb Hrange Hyear Hidem Hksnap Hin1)
    as (legacy & Hl & Hsel & Hts).
  fold snapshot in Hsel, Hts. fold folder in Hl.
  assert (Hne : legacy <> []) by (intros ->; destruct Hsel).
  assert (Hnd1 : NoDup (getFiles v1)).
  { unfold getFiles. rewrite Hf1, map_app. simpl.
    apply NoDup_app_remove_l with (l := []). simpl.
    apply Permutation_NoDup with (l := snapshot :: map fst (files v)).
    - apply Permutation_cons_append.
    - constructor; [now apply lookup_None | exact Hnd]. }
  set (sorted := filesWithTimestamp settings legacy) in *.
  set (tss := map snd sorted).
  set (s0 := nth 0 tss "undefined").
  set (e0 := nth (List.length tss - 1) tss "undefined").
  assert (Hlen : 0 < List.length tss).
  { unfold tss, sorted, filesWithTimestamp.
    rewrite !length_map, length_sort, length_map.
    destruct legacy; [congruence | simpl; lia]. }
  assert (Hs0 : JS.all_digits s0 = true).
  { apply (sorted_timestamps_are_digits host settings _ _ _ _ Hb Hl).
    apply nth_In. exact Hlen. }
  assert (He0 : JS.all_digits e0 = true).
  { apply (sorted_timestamps_are_digits host settings _ _ _ _ Hb Hl).
    apply nth_In. change (List.length tss - 1 < List.length tss). lia. }
  set (made := created_at host folder (preservedName (basename D) tss ++ ".md")).
  set (record := markdown_at folder (recordName (basename D) s0 e0)).
  assert (Erec : made = record) by (exact (Hkrec s0 e0 Hs0 He0)).
  assert (Hdigits : JS.all_digits (getTimestamp T) = true).
  { destruct (getTimestamp_fmt14 T Hrange Hyear) as (E & _ & H). now rewrite E. }
  assert (Hrec1 : lookup made (files v1) = None).
  { rewrite Erec, Hf1, lookup_app_other.
    - apply Hrecords.
    - rewrite Esnap. intros E. apply (f_equal basename) in E. simpl in E.
      symmetry in E. revert E. apply (snapshot_is_no_record _ _ _ _ Hdigits). }
  destruct (preserveLegacyFiles_quiet host settings D v1 legacy
              Hq1 Hnd1 Hex1 Hl Hne Hrec1) as (v2 & Hrun).
  assert (Hsnap : lookup snapshot (files v1) = Some content).
  { rewrite Hf1. apply lookup_app_fresh, Hfresh. }
  assert (HD1 : lookup D (files v1) = Some content)
    by (rewrite Hf1; now apply lookup_app_present).
  exists v1, v2, record, (body (basename D) (entries_of v1 sorted)).
  split; [exact Hwrite|]. split; [exact Hrun|].
  destruct (preserve_success_files _ _ _ _ _ _ Hrun)
    as (legacy' & Hl' & _ & Hall).
  fold folder in Hl'.
  assert (legacy' = legacy) by congruence. subst legacy'.
  destruct (preserve_success_body _ _ _ _ _ _ Hrun)
    as (legacy' & Hl2 & _ & Hbody).
  fold folder in Hl2.
  assert (legacy' = legacy) by congruence. subst legacy'.
  cbv zeta in Hall. fold folder sorted tss made in Hall, Hbody.
  split; [|split; [reflexivity|split; [|split]]].
  - intros Hin. apply Hall in Hin as [E | [_ Hout]]; [|auto].
    apply lookup_None in Hrec1. apply Hrec1.
    change (In made (getFiles v1)). now rewrite <- E.
  - rewrite <- Erec. exact Hbody.
  - apply (includes_content _ _ snapshot); [exact Hsnap|].
    now apply In_sorted_files.
  - destruct (preserve_keeps_or_records _ _ _ _ _ _ _ _ Hrun HD1)
      as [H | (legacy' & consolidated & Hl3 & HDsel & _)]; [exact H|].
    fold folder in Hl3.
    assert (legacy' = legacy) by congruence. subst legacy'.
    exfalso. unfold legacyFiles in Hl.
    rewrite (legacyFiles_plain host _ _ _ Hb) in Hl.
    injection Hl as <-. apply filter_In in HDsel as [_ HDsel].
    apply andb_true_iff in HDsel as [_ HDsel].
    unfold is_snapshot_of in HDsel.
    now rewrite owner_is_no_snapshot in HDsel.
Qed.

(** X12.  With a plain base name, and a host that makes the record
    [stem.md] under the name asked for, a consolidation is not repeated:
    run again after a success that shows [stem.md], [preserveLegacyFiles]
    selects no file, shows the notice of line 156 and leaves the vault,
    the record of the first run included, as it is. *)
Theorem plain_consolidation_runs_once
        (host : Host) (settings : LegacyFilePluginSettings)
        (activeFile : TFile) (v v' : vault) (stem : string) :
  plain_name (basename activeFile) = true ->
  keeps_name host (normalizePath host (legacyFolder settings)) stem ->
  preserveLegacyFiles host settings (Some activeFile) v
  = (v', LegacyFilesPreserved (stem ++ ".md")) ->
  preserveLegacyFiles host settings (Some activeFile) v' = (v', NoLegacyFiles).
Proof. apply plain_consolidation_is_not_repeated. Qed.

(** ** Ascending and descending order *)

Lemma StronglySorted_snoc (A : Type) (R : A -> A -> Prop)
      (l : list A) (x : A) :
  StronglySorted R l -> Forall (fun y => R y x) l ->
  StronglySorted R (l ++ [x])%list.
Proof.
  induction 1 as [|y l Hl IH Hy]; intros Hall; simpl.
  - constructor; constructor.
  - inversion_clear Hall as [|? ? Hyx Hall'].
    constructor; [now apply IH|].
    apply Forall_app. split; [exact Hy | now constructor].
Qed.

Lemma StronglySorted_rev (A : Type) (R : A -> A -> Prop) (l : list A) :
  StronglySorted R l -> StronglySorted (fun a b => R b a) (rev l).
Proof.
  induction 1 as [|y l Hl IH Hy]; simpl; [constructor|].
  apply (StronglySorted_snoc A (fun a b => R b a)); [exact IH|].
  apply Forall_rev. exact Hy.
Qed.

Section SortedLists.

Context {A : Type} (R : A -> A -> Prop).

(** Two sorted arrangements of the same elements are the same list, when
    no two different elements are in order both ways. *)
Lemma StronglySorted_unique (l1 : list A) :
  forall l2,
    (forall a b, In a l1 -> In b l1 -> R a b -> R b a -> a = b) ->
    StronglySorted R l1 -> StronglySorted R l2 -> Permutation l1 l2 ->
    l1 = l2.
Proof.
  induction l1 as [|x l1 IH]; intros l2 Hanti H1 H2 Hperm.
  - now apply Permutation_nil in Hperm.
  - destruct l2 as [|y l2];
      [apply Permutation_sym, Permutation_nil in Hperm; discriminate|].
    inversion_clear H1 as [|? ? H1' Hx]. inversion_clear H2 as [|? ? H2' Hy].
    rewrite Forall_forall in Hx, Hy.
    assert (Exy : x = y).
    { assert (Hxin : In x (y :: l2))
        by (apply (Permutation_in _ Hperm); now left).
      assert (Hyin : In y (x :: l1))
        by (apply (Permutation_in _ (Permutation_sym Hperm)); now left).
      destruct Hxin as [E | Hxin]; [now symmetry|].
      destruct Hyin as [E | Hyin]; [exact E|].
      apply Hanti; [now left | now right | auto | auto]. }
    subst y. f_equal. apply IH; auto.
    + intros a b Ha Hb. apply Hanti; now right.
    + now apply Permutation_cons_inv in Hperm.
Qed.

End SortedLists.

Lemma in_order_desc (folder folder' : string) (a b : TFile * string) :
  in_order (mkSettings folder desc) a b <-> in_order (mkSettings folder' asc) b a.
Proof. reflexivity. Qed.

Lemma in_order_antisym (settings : LegacyFilePluginSettings)
      (a b : TFile * string) :
  in_order settings a b -> in_order settings b a -> snd a = snd b.
Proof.
  unfold in_order. destruct (sortOrder settings); intros H1 H2;
    [|symmetry]; now apply String.leb_antisym.
Qed.

Lemma NoDup_map_eq (A B : Type) (g : A -> B) (l : list A) (a b : A) :
  NoDup (map g l) -> In a l -> In b l -> g a = g b -> a = b.
Proof.
  induction l as [|x l IH]; simpl; [tauto|].
  intros Hnd Ha Hb E. inversion_clear Hnd as [|? ? Hx Hnd'].
  destruct Ha as [-> | Ha], Hb as [-> | Hb]; auto.
  - exfalso. apply Hx. rewrite E. now apply in_map.
  - exfalso. apply Hx. rewrite <- E. now apply in_map.
Qed.

(** X13.  When the selected files have different timestamps, the
    descending order of lines 172-173 is the ascending order of lines
    170-171 read backwards. *)
Theorem descending_is_ascending_reversed
        (folder folder' : string) (legacy : list TFile) :
  NoDup (map snd (map withTimestamp legacy)) ->
  filesWithTimestamp (mkSettings folder desc) legacy
  = rev (filesWithTimestamp (mkSettings folder' asc) legacy).
Proof.
  intros Hnd.
  set (down := mkSettings folder desc). set (up := mkSettings folder' asc).
  assert (Hperm : Permutation (filesWithTimestamp down legacy)
                              (rev (filesWithTimestamp up legacy))).
  { unfold filesWithTimestamp. rewrite <- Permutation_rev.
    now rewrite !Permutation_sort. }
  apply (StronglySorted_unique (in_order down)).
  - intros a b Ha Hb Hab Hba. unfold filesWithTimestamp in Ha, Hb.
    apply (Permutation_in _ (Permutation_sort _ _ _)) in Ha, Hb.
    apply (NoDup_map_eq _ _ snd _ a b Hnd Ha Hb).
    exact (in_order_antisym down a b Hab Hba).
  - apply selected_files_ordered_aux.
  - apply (StronglySorted_rev _ (in_order up)), selected_files_ordered_aux.
  - exact Hperm.
Qed.

Lemma leb_refl (s : string) : (s <=? s)%string = true.
Proof. unfold String.leb. now rewrite compare_refl. Qed.

(** X14.  The timestamps in the name of the record are in the order of
    the sort: under [asc] the start timestamp of lines 198-199 is at most
    the end timestamp, under [desc] it is at least the end timestamp. *)
Theorem record_name_follows_the_order
        (settings : LegacyFilePluginSettings) (baseName : string)
        (legacy : list TFile)
        (first : TFile * string) (rest : list (TFile * string)) :
  filesWithTimestamp settings legacy = first :: rest ->
  preservedName baseName (map snd (first :: rest))
  = recordName baseName (snd first)
               (snd (List.last (first :: rest) first)) /\
  in_order settings first (List.last (first :: rest) first).
Proof.
  intros Hs. split; [apply preservedName_recordName|].
  pose proof (selected_files_ordered_aux settings legacy) as Hsorted.
  rewrite Hs in Hsorted. inversion_clear Hsorted as [|? ? _ Hfirst].
  destruct rest as [|y rest].
  - simpl. unfold in_order. destruct (sortOrder settings); apply leb_refl.
  - rewrite Forall_forall in Hfirst. apply Hfirst.
    change (List.last (first :: y :: rest) first)
      with (List.last (y :: rest) first).
    clear. revert y. induction rest as [|z rest IH]; intros y; [now left|].
    right. apply IH.
Qed.

(** ** The settings *)

Lemma saveSettings_settings (written : bool) (this : LegacyFilePlugin.Plugin) :
  LegacyFilePlugin.settings (LegacyFilePlugin.saveSettings written this)
  = LegacyFilePlugin.settings this.
Proof. now destruct written. Qed.

Lemma saveSettings_reload (this : LegacyFilePlugin.Plugin) :
  LegacyFilePlugin.settings
    (LegacyFilePlugin.loadSettings (LegacyFilePlugin.saveSettings true this))
  = LegacyFilePlugin.settings this.
Proof. destruct this as [[folder order] data]. reflexivity. Qed.

Lemma changes_snoc (session : list (LegacyFilePlugin.Change * bool))
      (change : LegacyFilePlugin.Change) (written : bool)
      (this : LegacyFilePlugin.Plugin) :
  LegacyFilePlugin.changes (session ++ [(change, written)])%list this
  = LegacyFilePlugin.onChange change written
      (LegacyFilePlugin.changes session this).
Proof. unfold LegacyFilePlugin.changes. now rewrite fold_left_app. Qed.

(** X15.  The settings survive a restart: after a session of changes in
    the settings tab whose last change was written by [saveData],
    whatever happened to the earlier ones, [loadSettings] over the data of
    the host gives the settings that were in force. *)
Theorem settings_survive_a_restart
        (session : list (LegacyFilePlugin.Change * bool))
        (change : LegacyFilePlugin.Change) (this : LegacyFilePlugin.Plugin) :
  let after :=
    LegacyFilePlugin.changes (session ++ [(change, true)])%list this in
  LegacyFilePlugin.onload (LegacyFilePlugin.stored after)
  = after.
Proof.
  intros after. subst after. rewrite changes_snoc.
  set (before := LegacyFilePlugin.changes session this).
  destruct before as [[folder order] data].
  destruct change as [value | value]; reflexivity.
Qed.

Lemma is_empty_false (s : string) : is_empty s = false <-> s <> "".
Proof. destruct s; simpl; split; congruence. Qed.

Lemma onload_names_a_folder (data : option LegacyFilePlugin.Data) :
  LegacyFilePlugin.names_a_folder data = true ->
  is_empty (legacyFolder
              (LegacyFilePlugin.settings (LegacyFilePlugin.onload data)))
  = false.
Proof.
  destruct data as [[[value|] order]|]; simpl; try reflexivity.
  now destruct (is_empty value).
Qed.

Lemma onChange_names_a_folder (change : LegacyFilePlugin.Change)
      (written : bool) (this : LegacyFilePlugin.Plugin) :
  is_empty (legacyFolder (LegacyFilePlugin.settings this)) = false /\
  LegacyFilePlugin.names_a_folder (LegacyFilePlugin.stored this) = true ->
  let after := LegacyFilePlugin.onChange change written this in
  is_empty (legacyFolder (LegacyFilePlugin.settings after)) = false /\
  LegacyFilePlugin.names_a_folder (LegacyFilePlugin.stored after) = true.
Proof.
  destruct this as [[folder order] data]. simpl. intros [Hf Hd].
  destruct change as [value | value], written; simpl; auto.
  - now destruct value.
  - now destruct value.
  - now rewrite Hf.
Qed.

Lemma changes_names_a_folder (session : list (LegacyFilePlugin.Change * bool)) :
  forall this : LegacyFilePlugin.Plugin,
    is_empty (legacyFolder (LegacyFilePlugin.settings this)) = false /\
    LegacyFilePlugin.names_a_folder (LegacyFilePlugin.stored this) = true ->
    let after := LegacyFilePlugin.changes session this in
    is_empty (legacyFolder (LegacyFilePlugin.settings after)) = false /\
    LegacyFilePlugin.names_a_folder (LegacyFilePlugin.stored after) = true.
Proof.
  induction session as [|[change written] session IH]; intros this H;
    [exact H|].
  apply (IH (LegacyFilePlugin.onChange change written this)).
  now apply onChange_names_a_folder.
Qed.

(** X16.  The settings tab never leaves the plugin without a folder: when
    the data the plugin is loaded over name no folder or a folder that is
    not the empty string, the folder of the settings is not the empty
    string after any session of changes (an emptied field gives
    ["legacy"], line 241), and neither is it after the next restart. *)
Theorem folder_is_never_empty
        (data : option LegacyFilePlugin.Data)
        (session : list (LegacyFilePlugin.Change * bool)) :
  LegacyFilePlugin.names_a_folder data = true ->
  let after := LegacyFilePlugin.changes session (LegacyFilePlugin.onload data) in
  legacyFolder (LegacyFilePlugin.settings after) <> "" /\
  legacyFolder
    (LegacyFilePlugin.settings
       (LegacyFilePlugin.onload (LegacyFilePlugin.stored after))) <> "".
Proof.
  intros Hd after.
  destruct (changes_names_a_folder session (LegacyFilePlugin.onload data))
    as [Hf Hs].
  { split; [now apply onload_names_a_folder | exact Hd]. }
  fold after in Hf, Hs. split; apply is_empty_false;
    [exact Hf | now apply onload_names_a_folder].
Qed.

(** ** The properties on the vault of [draft] *)

Lemma draft_vault_quiet : quiet draft_vault.
Proof. intros b []. Qed.

Lemma fresh_vault_quiet : quiet fresh_vault.
Proof. intros b []. Qed.

Lemma draft_vault_NoDup : NoDup (getFiles draft_vault).
Proof.
  repeat (constructor; [simpl; intuition discriminate|]). constructor.
Qed.

Lemma fresh_vault_NoDup : NoDup (getFiles fresh_vault).
Proof.
  repeat (constructor; [simpl; intuition discriminate|]). constructor.
Qed.

Lemma writer_only_appends_witness :
  createLegacyFile plain_host DEFAULT_SETTINGS (Some draft) nine_o_clock
                   fresh_vault
  = (snapshot_vault, LegacyFileCreated "draft_legacy_20240101090000.md") /\
  ((LegacyFileCreated "draft_legacy_20240101090000.md" = LegacyFileFailed /\
    files snapshot_vault = files fresh_vault) \/
   (exists content,
       LegacyFileCreated "draft_legacy_20240101090000.md"
       = LegacyFileCreated
           (basename draft ++ "_legacy_" ++ getTimestamp nine_o_clock ++ ".md") /\
       lookup draft (files fresh_vault) = Some content /\
       (keeps_name plain_host
                   (normalizePath plain_host (legacyFolder DEFAULT_SETTINGS))
                   (storageName (basename draft) (getTimestamp nine_o_clock)) ->
        snapshot_of plain_host DEFAULT_SETTINGS draft nine_o_clock
        = markdown_at (normalizePath plain_host (legacyFolder DEFAULT_SETTINGS))
                      (storageName (basename draft)
                                   (getTimestamp nine_o_clock))) /\
       lookup (snapshot_of plain_host DEFAULT_SETTINGS draft nine_o_clock)
              (files fresh_vault) = None /\
       files snapshot_vault
       = (files fresh_vault ++
          [(snapshot_of plain_host DEFAULT_SETTINGS draft nine_o_clock,
            content)])%list)).
Proof.
  assert (Hrun : createLegacyFile plain_host DEFAULT_SETTINGS (Some draft)
                                  nine_o_clock fresh_vault
                 = (snapshot_vault,
                    LegacyFileCreated "draft_legacy_20240101090000.md"))
    by (vm_compute; reflexivity).
  split; [exact Hrun|].
  exact (writer_only_appends _ _ _ _ _ _ _ Hrun).
Defined.

Lemma writer_makes_the_folder_once_witness :
  createLegacyFile plain_host DEFAULT_SETTINGS (Some draft) nine_o_clock
                   fresh_vault
  = (snapshot_vault, LegacyFileCreated "draft_legacy_20240101090000.md") /\
  (adapter_exists "legacy" fresh_vault = true ->
   folders snapshot_vault = folders fresh_vault) /\
  (folders snapshot_vault = folders fresh_vault \/
   folders snapshot_vault = (folders fresh_vault ++ ["legacy"])%list) /\
  (forall name,
      LegacyFileCreated "draft_legacy_20240101090000.md"
      = LegacyFileCreated name ->
      adapter_exists "legacy" snapshot_vault = true).
Proof.
  assert (Hrun : createLegacyFile plain_host DEFAULT_SETTINGS (Some draft)
                                  nine_o_clock fresh_vault
                 = (snapshot_vault,
                    LegacyFileCreated "draft_legacy_20240101090000.md"))
    by (vm_compute; reflexivity).
  split; [exact Hrun|].
  exact (writer_makes_the_folder_once _ _ _ _ _ _ _ Hrun).
Defined.

Lemma consolidator_loses_no_content_witness :
  preserveLegacyFiles plain_host descending (Some draft) draft_vault
  = (draft_consolidated,
     LegacyFilesPreserved "draft_legacy_20240101110000-20240101090000.md") /\
  lookup draft09 (files draft_vault) = Some "nine" /\
  (lookup draft09 (files draft_consolidated) = Some "nine" \/
   exists legacy consolidated,
     legacyFiles plain_host (basename draft)
                 (normalizePath plain_host (legacyFolder descending))
                 draft_vault = Ok legacy /\
     In draft09 legacy /\
     lookup (created_at plain_host (normalizePath plain_host (legacyFolder descending))
                         (preservedName (basename draft)
                            (map snd (filesWithTimestamp descending legacy)) ++ ".md"))
            (files draft_consolidated) = Some consolidated /\
     JS.includes "nine" consolidated = true).
Proof.
  assert (Hrun : preserveLegacyFiles plain_host descending (Some draft)
                                     draft_vault
                 = (draft_consolidated,
                    LegacyFilesPreserved
                      "draft_legacy_20240101110000-20240101090000.md"))
    by (vm_compute; reflexivity).
  assert (Hfile : lookup draft09 (files draft_vault) = Some "nine")
    by reflexivity.
  split; [exact Hrun|]. split; [exact Hfile|].
  exact (consolidator_loses_no_content _ _ _ _ _ _ _ _ Hrun Hfile).
Defined.

Lemma consolidator_failure_is_not_rolled_back_witness :
  let v' := fst (preserveLegacyFiles plain_host descending (Some draft)
                                     interrupted_vault) in
  preserveLegacyFiles plain_host descending (Some draft) interrupted_vault
  = (v', PreserveFailed) /\
  getFiles v' = [draft; draft10; draft09; draft_record] /\
  (files v' = files interrupted_vault \/
   exists legacy k,
     legacyFiles plain_host (basename draft)
                 (normalizePath plain_host (legacyFolder descending))
                 interrupted_vault = Ok legacy /\
     k < List.length legacy /\
     let sorted := filesWithTimestamp descending legacy in
     let record :=
       created_at plain_host (normalizePath plain_host (legacyFolder descending))
                   (preservedName (basename draft) (map snd sorted) ++ ".md") in
     lookup record (files interrupted_vault) = None /\
     files v'
     = removeAll (firstn k sorted)
                 (files interrupted_vault ++
                  [(record,
                    body (basename draft)
                         (entries_of interrupted_vault sorted))])%list).
Proof.
  intros v'.
  assert (Hrun : preserveLegacyFiles plain_host descending (Some draft)
                                     interrupted_vault
                 = (v', PreserveFailed))
    by (vm_compute; reflexivity).
  split; [exact Hrun|]. split; [vm_compute; reflexivity|].
  exact (consolidator_failure_is_not_rolled_back _ _ _ _ _ Hrun).
Defined.

Lemma consolidator_leaves_the_folders_witness :
  preserveLegacyFiles plain_host DEFAULT_SETTINGS (Some draft) fresh_vault
  = (fresh_vault, NoLegacyFolder) /\
  folders fresh_vault = folders fresh_vault /\
  (adapter_exists (normalizePath plain_host (legacyFolder DEFAULT_SETTINGS))
                  fresh_vault = false ->
   NoLegacyFolder = NoLegacyFolder /\ fresh_vault = fresh_vault).
Proof.
  assert (Hrun : preserveLegacyFiles plain_host DEFAULT_SETTINGS (Some draft)
                                     fresh_vault
                 = (fresh_vault, NoLegacyFolder))
    by (vm_compute; reflexivity).
  split; [exact Hrun|].
  exact (consolidator_leaves_the_folders _ _ _ _ _ _ Hrun).
Defined.

Lemma consolidator_succeeds_on_quiet_storage_witness :
  (quiet draft_vault /\
   NoDup (getFiles draft_vault) /\
   adapter_exists (normalizePath plain_host (legacyFolder descending))
                  draft_vault = true /\
   legacyFiles plain_host (basename draft)
               (normalizePath plain_host (legacyFolder descending))
               draft_vault = Ok [draft10; draft09; draft11] /\
   [draft10; draft09; draft11] <> [] /\
   lookup draft_record (files draft_vault) = None) /\
  exists v',
    preserveLegacyFiles plain_host descending (Some draft) draft_vault
    = (v', LegacyFilesPreserved
             (preservedName (basename draft)
                (map snd (filesWithTimestamp descending
                            [draft10; draft09; draft11])) ++ ".md")).
Proof.
  assert (Hex : adapter_exists
                  (normalizePath plain_host (legacyFolder descending))
                  draft_vault = true) by reflexivity.
  assert (Hl : legacyFiles plain_host (basename draft)
                           (normalizePath plain_host (legacyFolder descending))
                           draft_vault = Ok [draft10; draft09; draft11])
    by (vm_compute; reflexivity).
  assert (Hne : [draft10; draft09; draft11] <> []) by discriminate.
  assert (Hfresh : lookup draft_record (files draft_vault) = None)
    by (vm_compute; reflexivity).
  split.
  - exact (conj draft_vault_quiet (conj draft_vault_NoDup
            (conj Hex (conj Hl (conj Hne Hfresh))))).
  - exact (consolidator_succeeds_on_quiet_storage
             plain_host descending draft draft_vault _
             draft_vault_quiet draft_vault_NoDup Hex Hl Hne Hfresh).
Defined.

Lemma plain_filter_selects_the_snapshots_witness :
  plain_name "draft" = true /\
  legacyFiles plain_host "draft" "legacy" draft_vault
  = Ok (filter (fun f => String.eqb (fileFolder plain_host f) "legacy"
                         && is_snapshot_of "draft" f)
               (getFiles draft_vault)) /\
  forall f,
    In f (filter (fun f => String.eqb (fileFolder plain_host f) "legacy"
                           && is_snapshot_of "draft" f)
                 (getFiles draft_vault)) <->
    In f (getFiles draft_vault) /\ fileFolder plain_host f = "legacy" /\
    exists d, basename f = storageName "draft" d /\
              String.length d = 14 /\ JS.all_digits d = true.
Proof.
  assert (Hplain : plain_name "draft" = true) by reflexivity.
  split; [exact Hplain|].
  exact (plain_filter_selects_the_snapshots plain_host "draft" "legacy"
                                            draft_vault Hplain).
Defined.

Lemma timestamps_compare_as_dates_witness :
  (Date_in_range nine_o_clock /\ Date_in_range (mkDate 2024 0 1 10 0 0) /\
   (1000 <= getFullYear nine_o_clock <= 9999)%Z /\
   (1000 <= getFullYear (mkDate 2024 0 1 10 0 0) <= 9999)%Z) /\
  JS.localeCompare (getTimestamp nine_o_clock)
                   (getTimestamp (mkDate 2024 0 1 10 0 0))
  = chronological nine_o_clock (mkDate 2024 0 1 10 0 0) /\
  (getTimestamp nine_o_clock = getTimestamp (mkDate 2024 0 1 10 0 0) ->
   nine_o_clock = mkDate 2024 0 1 10 0 0).
Proof.
  assert (H1 : Date_in_range nine_o_clock)
    by (unfold Date_in_range; simpl; lia).
  assert (H2 : Date_in_range (mkDate 2024 0 1 10 0 0))
    by (unfold Date_in_range; simpl; lia).
  assert (Y1 : (1000 <= getFullYear nine_o_clock <= 9999)%Z) by (simpl; lia).
  assert (Y2 : (1000 <= getFullYear (mkDate 2024 0 1 10 0 0) <= 9999)%Z)
    by (simpl; lia).
  split; [exact (conj H1 (conj H2 (conj Y1 Y2)))|].
  exact (timestamps_compare_as_dates _ _ H1 H2 Y1 Y2).
Defined.

Lemma snapshot_is_found_by_the_consolidator_witness :
  (plain_name (basename draft) = true /\
   Date_in_range nine_o_clock /\
   (1000 <= getFullYear nine_o_clock <= 9999)%Z /\
   normalizePath plain_host
     (normalizePath plain_host (legacyFolder DEFAULT_SETTINGS))
   = normalizePath plain_host (legacyFolder DEFAULT_SETTINGS) /\
   keeps_name plain_host
              (normalizePath plain_host (legacyFolder DEFAULT_SETTINGS))
              (storageName (basename draft) (getTimestamp nine_o_clock)) /\
   createLegacyFile plain_host DEFAULT_SETTINGS (Some draft) nine_o_clock
                    fresh_vault
   = (snapshot_vault, LegacyFileCreated "draft_legacy_20240101090000.md")) /\
  adapter_exists (normalizePath plain_host (legacyFolder DEFAULT_SETTINGS))
                 snapshot_vault = true /\
  exists legacy,
    legacyFiles plain_host (basename draft)
                (normalizePath plain_host (legacyFolder DEFAULT_SETTINGS))
                snapshot_vault = Ok legacy /\
    In (snapshot_of plain_host DEFAULT_SETTINGS draft nine_o_clock) legacy /\
    withTimestamp (snapshot_of plain_host DEFAULT_SETTINGS draft nine_o_clock)
    = (snapshot_of plain_host DEFAULT_SETTINGS draft nine_o_clock,
       getTimestamp nine_o_clock).
Proof.
  assert (Hplain : plain_name (basename draft) = true) by reflexivity.
  assert (Hdate : Date_in_range nine_o_clock)
    by (unfold Date_in_range; simpl; lia).
  assert (Hyear : (1000 <= getFullYear nine_o_clock <= 9999)%Z)
    by (simpl; lia).
  assert (Hpath : normalizePath plain_host
                    (normalizePath plain_host (legacyFolder DEFAULT_SETTINGS))
                  = normalizePath plain_host (legacyFolder DEFAULT_SETTINGS))
    by reflexivity.
  assert (Hrun : createLegacyFile plain_host DEFAULT_SETTINGS (Some draft)
                                  nine_o_clock fresh_vault
                 = (snapshot_vault,
                    LegacyFileCreated "draft_legacy_20240101090000.md"))
    by (vm_compute; reflexivity).
  assert (Hkeeps : keeps_name plain_host
                     (normalizePath plain_host (legacyFolder DEFAULT_SETTINGS))
                     (storageName (basename draft) (getTimestamp nine_o_clock)))
    by (vm_compute; reflexivity).
  split; [exact (conj Hplain (conj Hdate (conj Hyear (conj Hpath
                   (conj Hkeeps Hrun)))))|].
  exact (snapshot_is_found_by_the_consolidator
           _ _ _ _ _ _ _ Hplain Hdate Hyear Hpath Hkeeps Hrun).
Defined.

Lemma fresh_vault_has_no_record (s e : string) :
  lookup (markdown_at (normalizePath plain_host (legacyFolder DEFAULT_SETTINGS))
                      (recordName (basename draft) s e))
         (files fresh_vault) = None.
Proof. reflexivity. Qed.

Lemma draft_records_keep_their_names (s e : string) :
  JS.all_digits s = true -> JS.all_digits e = true ->
  keeps_name plain_host
             (normalizePath plain_host (legacyFolder DEFAULT_SETTINGS))
             (recordName (basename draft) s e).
Proof.
  intros Hs He. apply keeps_name_unchanged; [|reflexivity].
  unfold recordName. rewrite !lacks_app.
  now rewrite (digits_lack_slash s Hs), (digits_lack_slash e He).
Qed.

Lemma snapshot_then_consolidation_witness :
  (plain_name (basename draft) = true /\
   Date_in_range nine_o_clock /\
   (1000 <= getFullYear nine_o_clock <= 9999)%Z /\
   normalizePath plain_host
     (normalizePath plain_host (legacyFolder DEFAULT_SETTINGS))
   = normalizePath plain_host (legacyFolder DEFAULT_SETTINGS) /\
   keeps_name plain_host
              (normalizePath plain_host (legacyFolder DEFAULT_SETTINGS))
              (storageName (basename draft) (getTimestamp nine_o_clock)) /\
   quiet fresh_vault /\
   NoDup (getFiles fresh_vault) /\
   lookup draft (files fresh_vault) = Some "now" /\
   lookup (snapshot_of plain_host DEFAULT_SETTINGS draft nine_o_clock)
          (files fresh_vault) = None) /\
  exists v1 v2 record consolidated,
    createLegacyFile plain_host DEFAULT_SETTINGS (Some draft) nine_o_clock
                     fresh_vault
    = (v1, LegacyFileCreated
             (basename draft ++ "_legacy_" ++ getTimestamp nine_o_clock
                             ++ ".md")) /\
    preserveLegacyFiles plain_host DEFAULT_SETTINGS (Some draft) v1
    = (v2, LegacyFilesPreserved (basename record ++ ".md")) /\
    ~ In (snapshot_of plain_host DEFAULT_SETTINGS draft nine_o_clock)
         (getFiles v2) /\
    parent record
    = Some (normalizePath plain_host (legacyFolder DEFAULT_SETTINGS)) /\
    lookup record (files v2) = Some consolidated /\
    JS.includes "now" consolidated = true /\
    lookup draft (files v2) = Some "now".
Proof.
  assert (Hplain : plain_name (basename draft) = true) by reflexivity.
  assert (Hdate : Date_in_range nine_o_clock)
    by (unfold Date_in_range; simpl; lia).
  assert (Hyear : (1000 <= getFullYear nine_o_clock <= 9999)%Z)
    by (simpl; lia).
  assert (Hpath : normalizePath plain_host
                    (normalizePath plain_host (legacyFolder DEFAULT_SETTINGS))
                  = normalizePath plain_host (legacyFolder DEFAULT_SETTINGS))
    by reflexivity.
  assert (Hdoc : lookup draft (files fresh_vault) = Some "now")
    by reflexivity.
  assert (Hfresh : lookup (snapshot_of plain_host DEFAULT_SETTINGS draft
                                       nine_o_clock)
                          (files fresh_vault) = None)
    by (vm_compute; reflexivity).
  assert (Hkeeps : keeps_name plain_host
                     (normalizePath plain_host (legacyFolder DEFAULT_SETTINGS))
                     (storageName (basename draft) (getTimestamp nine_o_clock)))
    by (vm_compute; reflexivity).
  split.
  - exact (conj Hplain (conj Hdate (conj Hyear (conj Hpath (conj Hkeeps
            (conj fresh_vault_quiet
               (conj fresh_vault_NoDup (conj Hdoc Hfresh)))))))).
  - exact (snapshot_then_consolidation
             plain_host DEFAULT_SETTINGS draft nine_o_clock fresh_vault "now"
             Hplain Hdate Hyear Hpath Hkeeps draft_records_keep_their_names
             fresh_vault_quiet fresh_vault_NoDup
             Hdoc Hfresh fresh_vault_has_no_record).
Defined.

Lemma plain_consolidation_runs_once_witness :
  (plain_name (basename draft) = true /\
   keeps_name plain_host (normalizePath plain_host (legacyFolder descending))
              "draft_legacy_20240101110000-20240101090000" /\
   preserveLegacyFiles plain_host descending (Some draft) draft_vault
   = (draft_consolidated,
      LegacyFilesPreserved "draft_legacy_20240101110000-20240101090000.md")) /\
  preserveLegacyFiles plain_host descending (Some draft) draft_consolidated
  = (draft_consolidated, NoLegacyFiles).
Proof.
  assert (Hplain : plain_name (basename draft) = true) by reflexivity.
  assert (Hrun : preserveLegacyFiles plain_host descending (Some draft)
                                     draft_vault
                 = (draft_consolidated,
                    LegacyFilesPreserved
                      "draft_legacy_20240101110000-20240101090000.md"))
    by (vm_compute; reflexivity).
  assert (Hkeeps : keeps_name plain_host
                     (normalizePath plain_host (legacyFolder descending))
                     "draft_legacy_20240101110000-20240101090000")
    by (vm_compute; reflexivity).
  split; [exact (conj Hplain (conj Hkeeps Hrun))|].
  exact (plain_consolidation_runs_once
           plain_host descending draft draft_vault draft_consolidated
           "draft_legacy_20240101110000-20240101090000" Hplain Hkeeps Hrun).
Defined.

Lemma descending_is_ascending_reversed_witness :
  NoDup (map snd (map withTimestamp [draft10; draft09; draft11])) /\
  filesWithTimestamp (mkSettings "legacy" desc) [draft10; draft09; draft11]
  = rev (filesWithTimestamp (mkSettings "legacy" asc)
                            [draft10; draft09; draft11]).
Proof.
  assert (Hnd : NoDup (map snd (map withTimestamp [draft10; draft09; draft11]))).
  { vm_compute.
    repeat (constructor; [simpl; intuition discriminate|]). constructor. }
  split; [exact Hnd|].
  exact (descending_is_ascending_reversed "legacy" "legacy" _ Hnd).
Defined.

Lemma record_name_follows_the_order_witness :
  filesWithTimestamp descending [draft10; draft09; draft11]
  = [(draft11, "20240101110000"); (draft10, "20240101100000");
     (draft09, "20240101090000")] /\
  preservedName "draft" ["20240101110000"; "20240101100000"; "20240101090000"]
  = recordName "draft" "20240101110000" "20240101090000" /\
  in_order descending (draft11, "20240101110000") (draft09, "20240101090000").
Proof.
  assert (Hs : filesWithTimestamp descending [draft10; draft09; draft11]
               = [(draft11, "20240101110000"); (draft10, "20240101100000");
                  (draft09, "20240101090000")])
    by (vm_compute; reflexivity).
  split; [exact Hs|].
  exact (record_name_follows_the_order descending "draft" _ _ _ Hs).
Defined.

Lemma folder_is_never_empty_witness :
  LegacyFilePlugin.names_a_folder
    (Some (LegacyFilePlugin.mkData None (Some desc))) = true /\
  let after :=
    LegacyFilePlugin.changes renamed_session
      (LegacyFilePlugin.onload
         (Some (LegacyFilePlugin.mkData None (Some desc)))) in
  legacyFolder (LegacyFilePlugin.settings after) <> "" /\
  legacyFolder
    (LegacyFilePlugin.settings
       (LegacyFilePlugin.onload (LegacyFilePlugin.stored after))) <> "".
Proof.
  assert (Hdata : LegacyFilePlugin.names_a_folder
                    (Some (LegacyFilePlugin.mkData None (Some desc))) = true)
    by reflexivity.
  split; [exact Hdata|].
  exact (folder_is_never_empty _ renamed_session Hdata).
Defined.

(** ** The name of the consolidated record and the order of its body *)




(** ** Consolidation without a snapshot *)

(** With a plain base name, a legacy folder without a snapshot of the
    document gives the notice of line 156 and leaves the vault as it is. *)
Lemma plain_owner_without_snapshots
      (host : Host) (settings : LegacyFilePluginSettings)
      (activeFile : TFile) (v : vault) :
  plain_name (basename activeFile) = true ->
  adapter_exists (normalizePath host (legacyFolder settings)) v = true ->
  (forall f, In f (getFiles v) ->
             fileFolder host f = normalizePath host (legacyFolder settings) ->
             is_snapshot_of (basename activeFile) f = false) ->
  preserveLegacyFiles host settings (Some activeFile) v = (v, NoLegacyFiles).
Proof.
  intros Hb Hex Hnone. apply preserve_nothing_selected; [exact Hex|].
  unfold legacyFiles. rewrite (legacyFiles_plain host _ _ _ Hb). f_equal.
  induction (getFiles v) as [|f l IH]; [reflexivity|].
  cbn [filter].
  destruct (String.eqb_spec (fileFolder host f)
                            (normalizePath host (legacyFolder settings)))
    as [E | _].
  - rewrite (Hnone f (or_introl eq_refl) E). simpl.
    apply IH. intros g Hg. apply Hnone. now right.
  - simpl. apply IH. intros g Hg. apply Hnone. now right.
Qed.

Lemma draft_without_snapshots :
  preserveLegacyFiles plain_host DEFAULT_SETTINGS (Some draft) empty_archive
  = (empty_archive, NoLegacyFiles).
Proof.
  apply plain_owner_without_snapshots; [reflexivity | reflexivity |].
  intros f [<- | []]. discriminate.
Qed.

(** C8.  A run that finds the legacy folder and no snapshot of the
    document is to end with the notice that there is no legacy file.
    With the owner [a(b] it does not: the base name is put into the
    pattern source as it is, [^a(b_legacy_\d{14}$] is no pattern, the
    constructor of line 149 throws at the first file of the vault, and
    the run ends with the notice of failure, also when the legacy folder
    is empty. *)
Theorem bracketed_owner_fails_without_snapshots :
  compile (patternSource "a(b") = None /\
  (forall (host : Host) (settings : LegacyFilePluginSettings) (v : vault),
      host_RegExp host (patternSource "a(b") = None ->
      adapter_exists (normalizePath host (legacyFolder settings)) v = true ->
      getFiles v <> [] ->
      preserveLegacyFiles host settings (Some bracketed) v
      = (v, PreserveFailed)) /\
  adapter_exists (normalizePath plain_host (legacyFolder DEFAULT_SETTINGS))
                 bracketed_vault = true /\
  (forall f, In f (getFiles bracketed_vault) ->
             fileFolder plain_host f
             <> normalizePath plain_host (legacyFolder DEFAULT_SETTINGS)) /\
  preserveLegacyFiles plain_host DEFAULT_SETTINGS (Some bracketed)
                      bracketed_vault
  = (bracketed_vault, PreserveFailed).
Proof.
  assert (Hc : compile (patternSource "a(b") = None)
    by (vm_compute; reflexivity).
  split; [exact Hc|]. split; [|split; [reflexivity|split]].
  - intros host settings v Hthrows Hex Hfiles.
    unfold preserveLegacyFiles, try_catch. rewrite Hex. simpl negb. cbv iota.
    unfold bind, lift, legacyFiles.
    destruct (getFiles v) as [|f l]; [congruence|].
    cbn [filterFiles]. unfold isLegacyFile at 1, RegExp_test.
    change (basename bracketed) with "a(b". now rewrite Hc, Hthrows.
  - intros f [<- | []]. discriminate.
  - vm_compute. reflexivity.
Qed.

(** C8 on [bracketed_vault], whose legacy folder is empty. *)
Lemma bracketed_owner_fails_without_snapshots_witness :
  (host_RegExp plain_host (patternSource "a(b") = None /\
   adapter_exists (normalizePath plain_host (legacyFolder DEFAULT_SETTINGS))
                  bracketed_vault = true /\
   getFiles bracketed_vault <> []) /\
  preserveLegacyFiles plain_host DEFAULT_SETTINGS (Some bracketed)
                      bracketed_vault
  = (bracketed_vault, PreserveFailed).
Proof.
  assert (Hthrows : host_RegExp plain_host (patternSource "a(b") = None)
    by reflexivity.
  assert (Hex : adapter_exists
                  (normalizePath plain_host (legacyFolder DEFAULT_SETTINGS))
                  bracketed_vault = true) by reflexivity.
  assert (Hfiles : getFiles bracketed_vault <> []) by discriminate.
  split; [exact (conj Hthrows (conj Hex Hfiles))|].
  exact (proj1 (proj2 bracketed_owner_fails_without_snapshots)
               plain_host DEFAULT_SETTINGS bracketed_vault Hthrows Hex Hfiles).
Defined.
